(** * gmail-mcp-lib: credential resolution, token normalisation, the Gmail
    facade and the MCP tool dispatcher

    A shallow embedding of [src/tokens.ts] (resolveTokens), [src/index.ts]
    (class GmailClient) and the CallToolRequestSchema handler of the MCP
    server, followed by the properties of the specification.

    The sources are TypeScript, but every typed boundary that matters is
    crossed by an unchecked cast ([JSON.parse] returns [any], the dispatcher
    calls the facade through [(client as any)]); the embedding therefore works
    on dynamically typed JavaScript values, and the TypeScript interfaces
    appear as the shapes of the objects the theorems quantify over. *)

From Stdlib Require Import ZArith NArith Ascii String List Bool Lia DecimalString.
From stdpp Require Import gmap strings.

Import ListNotations.
Set Warnings "-register-all".
Local Open Scope Z_scope.

(** ** JavaScript values *)

(** A JavaScript number. [Num m e] stands for the binary64 value nearest to
    the decimal [m * 10 ^ e] (ties to even, the zero when it underflows, an
    infinity when it overflows; the sign of a zero is not kept, nothing in
    the sources observes it). [JSON.parse] yields a number in the form
    Number::toString prints it: the shortest decimal that rounds to the
    binary64 value ([Binary64.round] below). *)
Inductive number :=
| Num (mantissa exponent : Z)
| Infinity (negative : bool)
| NaN.

(** Values: the JSON universe, [undefined], and [Error] instances (message
    plus own enumerable properties). Strings are byte strings, read as the
    UTF-8 encoding of the JavaScript string. Objects keep their properties in
    insertion order; the first entry of a key is its property, as [Obj.get]
    reads it and [Obj.set] writes it. *)
Inductive value : Type :=
| VUndefined
| VNull
| VBool (b : bool)
| VNum (n : number)
| VStr (s : string)
| VArr (items : list value)
| VObj (fields : list (string * value))
| VError (message : string) (props : list (string * value)).

Definition int (z : Z) : value := VNum (Num z 0).

Definition Z_to_string (z : Z) : string := NilZero.string_of_int (Z.to_int z).

(** ** Binary64 rounding

    Decimal to binary64 and back, on exact integers: what the runtime does
    when it reads a numeric literal and when it prints a number. *)
Module Binary64.

(** [num / (den * 2 ^ p)] rounded to the nearest integer, ties to even. *)
Definition scaled (num den p : Z) : Z :=
  let n := if 0 <=? p then num else num * 2 ^ (- p) in
  let d := if 0 <=? p then den * 2 ^ p else den in
  let q := n / d in
  let r := n mod d in
  if 2 * r <? d then q
  else if d <? 2 * r then q + 1
  else if Z.even q then q else q + 1.

(** [2 ^ p <= num / den] *)
Definition at_least_pow2 (num den p : Z) : bool :=
  if 0 <=? p then den * 2 ^ p <=? num else den <=? num * 2 ^ (- p).

(** The binary64 value nearest to the positive fraction [num / den]:
    [Some (q, p)] stands for [q * 2 ^ p] with [q < 2 ^ 53] and
    [-1074 <= p <= 971] (a zero [q] is an underflow), [None] for an
    overflow. *)
Definition nearest (num den : Z) : option (Z * Z) :=
  let l := Z.log2 num - Z.log2 den in
  let fl := if at_least_pow2 num den l then l else l - 1 in
  let p := Z.max (fl - 52) (-1074) in
  let q := scaled num den p in
  let '(q, p) := if q =? 2 ^ 53 then (2 ^ 52, p + 1) else (q, p) in
  if 971 <? p then None else Some (q, p).

(** [nearest] of the decimal [m * 10 ^ e] for a positive [m]. The first two
    tests settle an exponent far out of range without computing its power:
    [m * 10 ^ e] is at least [2 ^ (log2 m + 3 * e)] when [e] is positive and
    below [2 ^ (log2 m + 1 + 3 * e)] when it is negative. *)
Definition of_decimal (m e : Z) : option (Z * Z) :=
  if (0 <=? e) && (1024 <=? Z.log2 m + 3 * e) then None
  else if (e <? 0) && (Z.log2 m + 1 + 3 * e <=? -1075) then Some (0, -1074)
  else if 0 <=? e then nearest (m * 10 ^ e) 1
  else nearest m (10 ^ (- e)).

(** [10 ^ n <= num / den] *)
Definition at_least_pow10 (num den n : Z) : bool :=
  if 0 <=? n then den * 10 ^ n <=? num else den <=? num * 10 ^ (- n).

(** [floor (log10 (num / den))]: an estimate from the binary logarithms,
    which is off by one at most, corrected by comparison. *)
Definition log10 (num den : Z) : Z :=
  let l := Z.log2 num - Z.log2 den in
  let n := l * 30103 / 100000 in
  let n := if at_least_pow10 num den n then n else n - 1 in
  let n := if at_least_pow10 num den n then n else n - 1 in
  let n := if at_least_pow10 num den (n + 1) then n + 1 else n in
  if at_least_pow10 num den (n + 1) then n + 1 else n.

(** The decimals [s * 10 ^ t] with [k] digits that round to [q * 2 ^ p],
    among the two next to it (if any decimal of [k] digits rounds to it, one
    of these does): the nearer one first, the even one on a tie. *)
Definition candidates (q p k : Z) : list (Z * Z) :=
  let num := if 0 <=? p then q * 2 ^ p else q in
  let den := if 0 <=? p then 1 else 2 ^ (- p) in
  let t := log10 num den + 1 - k in
  let n := if 0 <=? t then num else num * 10 ^ (- t) in
  let d := if 0 <=? t then den * 10 ^ t else den in
  let lo := n / d in
  let r := n mod d in
  let hi := lo + 1 in
  let ordered :=
    if r =? 0 then [lo]
    else if 2 * r <? d then [lo; hi]
    else if d <? 2 * r then [hi; lo]
    else if Z.even lo then [lo; hi] else [hi; lo] in
  map (fun s => (s, t))
    (List.filter
       (fun s => match of_decimal s t with
                 | Some (q', p') => (q' =? q) && (p' =? p)
                 | None => false
                 end) ordered).

(** Tries [k], [k + 1], ... digits; seventeen digits always suffice, and the
    exact decimal value [q * 5 ^ (- p) * 10 ^ p] closes the recursion. *)
Fixpoint shortest_from (fuel : nat) (q p k : Z) : Z * Z :=
  match candidates q p k with
  | c :: _ => c
  | [] =>
      match fuel with
      | O => if 0 <=? p then (q * 2 ^ p, 0) else (q * 5 ^ (- p), p)
      | S fuel' => shortest_from fuel' q p (k + 1)
      end
  end.

(** The decimal Number::toString prints for [q * 2 ^ p]: of as few digits as
    possible and, among those, nearest to the value. *)
Definition shortest (q p : Z) : Z * Z := shortest_from 17 q p 1.

Fixpoint strip_zeros (fuel : nat) (s t : Z) : Z * Z :=
  match fuel with
  | O => (s, t)
  | S fuel' =>
      if s mod 10 =? 0 then strip_zeros fuel' (s / 10) (t + 1) else (s, t)
  end.

(** The form a decimal is kept in: an integer with exponent zero, or a
    mantissa that is no multiple of ten with a negative exponent. *)
Definition normal (s t : Z) : Z * Z :=
  if 0 <=? t then (s * 10 ^ t, 0) else strip_zeros (Z.to_nat (- t)) s t.

(** The number the decimal [m * 10 ^ e] denotes. *)
Definition round (m e : Z) : number :=
  if m =? 0 then Num 0 0
  else
    match of_decimal (Z.abs m) e with
    | None => Infinity (m <? 0)
    | Some (q, p) =>
        if q =? 0 then Num 0 0
        else let '(s, t) := shortest q p in
             let '(s', t') := normal s t in
             Num (Z.sgn m * s') t'
    end.

Definition canonical (n : number) : number :=
  match n with
  | Num m e => round m e
  | _ => n
  end.

End Binary64.

Module Obj.
(** Property lists of plain objects. *)
Fixpoint get (k : string) (fs : list (string * value)) : option value :=
  match fs with
  | [] => None
  | (k', v) :: rest => if String.eqb k k' then Some v else get k rest
  end.

(** [o[k] = v]: overwrite in place, or append a new property. *)
Fixpoint set (k : string) (v : value) (fs : list (string * value))
  : list (string * value) :=
  match fs with
  | [] => [(k, v)]
  | (k', v') :: rest =>
      if String.eqb k k' then (k', v) :: rest else (k', v') :: set k v rest
  end.

Definition has (k : string) (fs : list (string * value)) : bool :=
  match get k fs with Some _ => true | None => false end.
End Obj.

(** ToBoolean. *)
Definition truthy (v : value) : bool :=
  match v with
  | VUndefined | VNull => false
  | VBool b => b
  | VNum n =>
      match Binary64.canonical n with
      | Num m _ => negb (m =? 0)
      | Infinity _ => true
      | NaN => false
      end
  | VStr s => negb (String.eqb s EmptyString)
  | VArr _ | VObj _ | VError _ _ => true
  end.

(** [a || b] *)
Definition js_or (a b : value) : value := if truthy a then a else b.

(** Property read [v.k] on a value that is neither [undefined] nor [null]
    (on those the read throws, see [get] below). Only the property names that
    occur in the sources are ever read, none of which is a built-in property
    of strings, arrays or [Object.prototype]. *)
Definition prop (v : value) (k : string) : value :=
  match v with
  | VObj fs => default VUndefined (Obj.get k fs)
  | VError m ps =>
      if String.eqb k "message" then VStr m
      else default VUndefined (Obj.get k ps)
  | _ => VUndefined
  end.

Definition nullish (v : value) : bool :=
  match v with VUndefined | VNull => true | _ => false end.

(** Optional chaining [v?.k]. *)
Definition opt_prop (v : value) (k : string) : value :=
  if nullish v then VUndefined else prop v k.

(** *** Number and value to string *)

Fixpoint zeros (n : nat) : string :=
  match n with
  | O => EmptyString
  | S n' => String "0" (zeros n')
  end.

(** Number::toString of the decimal [s * 10 ^ e] for a positive [s]: with
    [k] digits and the decimal point after the [n]-th, plain notation for
    [-6 < n <= 21] and exponent notation otherwise. *)
Definition decimal_text (s e : Z) : string :=
  let '(s, e) := Binary64.strip_zeros (String.length (Z_to_string s)) s e in
  let ds := Z_to_string s in
  let k := Z.of_nat (String.length ds) in
  let n := k + e in
  if (k <=? n) && (n <=? 21) then ds +:+ zeros (Z.to_nat (n - k))
  else if (0 <? n) && (n <=? 21) then
    substring 0 (Z.to_nat n) ds +:+ "."
    +:+ substring (Z.to_nat n) (Z.to_nat (k - n)) ds
  else if (-6 <? n) && (n <=? 0) then "0." +:+ zeros (Z.to_nat (- n)) +:+ ds
  else
    (if k =? 1 then ds
     else substring 0 1 ds +:+ "." +:+ substring 1 (Z.to_nat (k - 1)) ds)
    +:+ "e" +:+ (if 0 <=? n - 1 then "+" else "-")
    +:+ Z_to_string (Z.abs (n - 1)).

(** Number::toString. *)
Definition Number_toString (n : number) : string :=
  match Binary64.canonical n with
  | Num m e =>
      if m =? 0 then "0"
      else (if m <? 0 then "-" else EmptyString) +:+ decimal_text (Z.abs m) e
  | Infinity false => "Infinity"
  | Infinity true => "-Infinity"
  | NaN => "NaN"
  end.

(** ToString, as performed by template literals, [String(v)] and
    [Array.prototype.join]. An [Error] prints as [Error: message], and as
    [Error] when its message is empty. *)
Fixpoint ToString (v : value) : string :=
  match v with
  | VUndefined => "undefined"
  | VNull => "null"
  | VBool true => "true"
  | VBool false => "false"
  | VNum n => Number_toString n
  | VStr s => s
  | VArr items =>
      (fix join_items (l : list value) : string :=
         match l with
         | [] => EmptyString
         | [x] => if nullish x then EmptyString else ToString x
         | x :: rest =>
             (if nullish x then EmptyString else ToString x) +:+ "," +:+ join_items rest
         end) items
  | VObj _ => "[object Object]"
  | VError m _ => if String.eqb m EmptyString then "Error" else "Error: " +:+ m
  end.

(** [items.join(sep)] *)
Fixpoint join (sep : string) (items : list value) : string :=
  match items with
  | [] => EmptyString
  | [x] => if nullish x then EmptyString else ToString x
  | x :: rest => (if nullish x then EmptyString else ToString x) +:+ sep +:+ join sep rest
  end.

(** ** JSON.parse

    A recursive-descent parser for the JSON grammar (RFC 8259), as the
    runtime's [JSON.parse] accepts it: one value surrounded by optional white
    space, later duplicates of a key overwriting earlier ones. [None] stands
    for the [SyntaxError] the runtime throws. The recursion is on a fuel
    argument; [parse] gives twice the length of the text plus two, which is
    enough for every text ([parse_fuel_enough] below). *)
Module Json.

Definition is_ws (c : ascii) : bool :=
  match c with
  | " "%char | "009"%char | "010"%char | "013"%char => true
  | _ => false
  end.

Fixpoint skip_ws (s : string) : string :=
  match s with
  | String c rest => if is_ws c then skip_ws rest else s
  | EmptyString => s
  end.

Definition code (c : ascii) : Z := Z.of_N (N_of_ascii c).
Definition chr (z : Z) : ascii := ascii_of_N (Z.to_N z).

Definition is_digit (c : ascii) : bool := (48 <=? code c) && (code c <=? 57).

Definition hex_val (c : ascii) : option Z :=
  let n := code c in
  if (48 <=? n) && (n <=? 57) then Some (n - 48)
  else if (97 <=? n) && (n <=? 102) then Some (n - 87)
  else if (65 <=? n) && (n <=? 70) then Some (n - 55)
  else None.

(** Reads a maximal run of decimal digits: accumulated value, number of
    digits read, remaining input. *)
Fixpoint digits (s : string) (acc : Z) (count : Z) : Z * Z * string :=
  match s with
  | String c rest =>
      if is_digit c then digits rest (10 * acc + (code c - 48)) (count + 1)
      else (acc, count, s)
  | EmptyString => (acc, count, s)
  end.

(** The input starts with the given character: the rest of the input. *)
Definition after (c : ascii) (s : string) : option string :=
  match s with
  | String c' rest => if Ascii.eqb c' c then Some rest else None
  | EmptyString => None
  end.

(** exp = ( "e" | "E" ) [ "+" | "-" ] 1*DIGIT, after a number read so far
    as [m * 10 ^ e]; the literal is rounded to binary64 once it is read. *)
Definition parse_exponent (m e : Z) (s : string) : option (number * string) :=
  match s with
  | String x r =>
      if Ascii.eqb x "e"%char || Ascii.eqb x "E"%char then
        let '(eneg, r1) :=
          match after "-"%char r with
          | Some r' => (true, r')
          | None => (false, default r (after "+"%char r))
          end in
        let '(ev, n, r2) := digits r1 0 0 in
        if n =? 0 then None
        else
          Some (Binary64.round m (e + (if eneg : bool then - ev else ev)), r2)
      else Some (Binary64.round m e, s)
  | EmptyString => Some (Binary64.round m e, s)
  end.

(** number = [ minus ] int [ frac ] [ exp ] *)
Definition parse_number (s : string) : option (number * string) :=
  let '(neg, s1) :=
    match after "-"%char s with
    | Some rest => (true, rest)
    | None => (false, s)
    end in
  let sign (m : Z) := if neg : bool then - m else m in
  match s1 with
  | String c rest =>
      if is_digit c then
        let '(ipart, s2) :=
          if Ascii.eqb c "0"%char then (0, rest)
          else let '(v, _, r) := digits s1 0 0 in (v, r) in
        match after "."%char s2 with
        | Some r =>
            let '(v, n, r') := digits r ipart 0 in
            if n =? 0 then None else parse_exponent (sign v) (- n) r'
        | None => parse_exponent (sign ipart) 0 s2
        end
      else None
  | EmptyString => None
  end.

(** UTF-8 bytes of a code point (a lone surrogate is written in the same
    three-byte form). *)
Definition utf8 (cp : Z) : string :=
  if cp <? 128 then String (chr cp) EmptyString
  else if cp <? 2048 then
    String (chr (192 + cp / 64)) (String (chr (128 + cp mod 64)) EmptyString)
  else if cp <? 65536 then
    String (chr (224 + cp / 4096))
      (String (chr (128 + (cp / 64) mod 64))
         (String (chr (128 + cp mod 64)) EmptyString))
  else
    String (chr (240 + cp / 262144))
      (String (chr (128 + (cp / 4096) mod 64))
         (String (chr (128 + (cp / 64) mod 64))
            (String (chr (128 + cp mod 64)) EmptyString))).

Definition hex4 (s : string) : option (Z * string) :=
  match s with
  | String a (String b (String c (String d rest))) =>
      match hex_val a, hex_val b, hex_val c, hex_val d with
      | Some x, Some y, Some z, Some w =>
          Some (((x * 16 + y) * 16 + z) * 16 + w, rest)
      | _, _, _, _ => None
      end
  | _ => None
  end.

(** The character a two-character escape stands for. *)
Definition unescape (e : ascii) : option ascii :=
  if Ascii.eqb e "034"%char then Some "034"%char
  else if Ascii.eqb e "\"%char then Some "\"%char
  else if Ascii.eqb e "/"%char then Some "/"%char
  else if Ascii.eqb e "b"%char then Some "008"%char
  else if Ascii.eqb e "f"%char then Some "012"%char
  else if Ascii.eqb e "n"%char then Some "010"%char
  else if Ascii.eqb e "r"%char then Some "013"%char
  else if Ascii.eqb e "t"%char then Some "009"%char
  else None.

(** After [\u] and the four hex digits of a high surrogate: the low
    surrogate of the pair, when one follows, and the code point of the
    pair. *)
Definition surrogate_pair (hi : Z) (s : string) : option (Z * string) :=
  if (55296 <=? hi) && (hi <=? 56319) then
    match after "\"%char s with
    | Some s1 =>
        match after "u"%char s1 with
        | Some s2 =>
            match hex4 s2 with
            | Some (lo, s3) =>
                if (56320 <=? lo) && (lo <=? 57343)
                then Some (65536 + (hi - 55296) * 1024 + (lo - 56320), s3)
                else None
            | None => None
            end
        | None => None
        end
    | None => None
    end
  else None.

(** The characters of a string literal after its opening quote, up to and
    including the closing quote. *)
Fixpoint parse_chars (fuel : nat) (s : string) : option (string * string) :=
  match fuel with
  | O => None
  | S fuel' =>
      match s with
      | EmptyString => None
      | String c rest =>
          if Ascii.eqb c "034"%char then Some (EmptyString, rest)
          else if Ascii.eqb c "\"%char then
            match rest with
            | EmptyString => None
            | String e rest' =>
                if Ascii.eqb e "u"%char then
                  match hex4 rest' with
                  | None => None
                  | Some (hi, r1) =>
                      let '(cp, r) := default (hi, r1) (surrogate_pair hi r1) in
                      match parse_chars fuel' r with
                      | Some (t, r') => Some (utf8 cp +:+ t, r')
                      | None => None
                      end
                  end
                else
                  match unescape e with
                  | None => None
                  | Some x =>
                      match parse_chars fuel' rest' with
                      | Some (t, r) => Some (String x t, r)
                      | None => None
                      end
                  end
            end
          else if code c <? 32 then None
          else
            match parse_chars fuel' rest with
            | Some (t, r) => Some (String c t, r)
            | None => None
            end
      end
  end.

Definition parse_string (s : string) : option (string * string) :=
  parse_chars (S (String.length s)) s.

Fixpoint expect (lit s : string) : option string :=
  match lit, s with
  | EmptyString, _ => Some s
  | String a lit', String b s' => if Ascii.eqb a b then expect lit' s' else None
  | String _ _, EmptyString => None
  end.

(** What the first character of a value announces. *)
Inductive start := SObject | SArray | SString | STrue | SFalse | SNull | SOther.

Definition classify (c : ascii) : start :=
  if Ascii.eqb c "{"%char then SObject
  else if Ascii.eqb c "["%char then SArray
  else if Ascii.eqb c "034"%char then SString
  else if Ascii.eqb c "t"%char then STrue
  else if Ascii.eqb c "f"%char then SFalse
  else if Ascii.eqb c "n"%char then SNull
  else SOther.

Fixpoint parse_value (fuel : nat) (s : string) : option (value * string) :=
  match fuel with
  | O => None
  | S fuel' =>
      match s with
      | EmptyString => None
      | String c rest =>
          match classify c with
          | SObject =>
              match after "}"%char (skip_ws rest) with
              | Some r => Some (VObj [], r)
              | None => parse_members fuel' (skip_ws rest) []
              end
          | SArray =>
              match after "]"%char (skip_ws rest) with
              | Some r => Some (VArr [], r)
              | None => parse_elements fuel' (skip_ws rest) []
              end
          | SString =>
              match parse_string rest with
              | Some (t, r) => Some (VStr t, r)
              | None => None
              end
          | STrue =>
              match expect "rue" rest with
              | Some r => Some (VBool true, r)
              | None => None
              end
          | SFalse =>
              match expect "alse" rest with
              | Some r => Some (VBool false, r)
              | None => None
              end
          | SNull =>
              match expect "ull" rest with
              | Some r => Some (VNull, r)
              | None => None
              end
          | SOther =>
              match parse_number s with
              | Some (n, r) => Some (VNum n, r)
              | None => None
              end
          end
      end
  end
with parse_elements (fuel : nat) (s : string) (acc : list value)
  : option (value * string) :=
  match fuel with
  | O => None
  | S fuel' =>
      match parse_value fuel' s with
      | None => None
      | Some (v, r) =>
          match after ","%char (skip_ws r) with
          | Some r' => parse_elements fuel' (skip_ws r') (acc ++ [v])
          | None =>
              match after "]"%char (skip_ws r) with
              | Some r' => Some (VArr (acc ++ [v]), r')
              | None => None
              end
          end
      end
  end
with parse_members (fuel : nat) (s : string) (acc : list (string * value))
  : option (value * string) :=
  match fuel with
  | O => None
  | S fuel' =>
      match after "034"%char s with
      | None => None
      | Some r =>
          match parse_string r with
          | None => None
          | Some (k, r1) =>
              match after ":"%char (skip_ws r1) with
              | None => None
              | Some r2 =>
                  match parse_value fuel' (skip_ws r2) with
                  | None => None
                  | Some (v, r3) =>
                      match after ","%char (skip_ws r3) with
                      | Some r4 =>
                          parse_members fuel' (skip_ws r4) (Obj.set k v acc)
                      | None =>
                          match after "}"%char (skip_ws r3) with
                          | Some r4 => Some (VObj (Obj.set k v acc), r4)
                          | None => None
                          end
                      end
                  end
              end
          end
      end
  end.

(** One JSON text: a value between optional white space, with the given
    fuel. *)
Definition parse_with (fuel : nat) (s : string) : option value :=
  match parse_value fuel (skip_ws s) with
  | Some (v, r) =>
      match skip_ws r with
      | EmptyString => Some v
      | String _ _ => None
      end
  | None => None
  end.

Definition parse (s : string) : option value :=
  parse_with (2 * String.length s + 2) s.

End Json.

Definition JSON_parse : string -> option value := Json.parse.

(** JSON text of a string without special characters, and of an object with
    the given members (already in JSON text). *)
Definition quoted (s : string) : string :=
  String "034"%char (s +:+ String "034"%char EmptyString).

Definition member (k v : string) : string := quoted k +:+ ":" +:+ v.

Definition object_text (members : list string) : string :=
  "{" +:+ String.concat "," members +:+ "}".

(** ** Strings as sequences of UTF-16 code units

    A string is kept as bytes: the UTF-8 encoding of its code points, with a
    surrogate that has no partner in the three bytes the same scheme would
    give it. [pieces] reads the bytes back: a byte of an ordinary character,
    a lone surrogate, or a high and a low surrogate next to each other,
    which are one code point. *)
Module Utf16.

(** The code unit of a surrogate written in three bytes. *)
Definition surrogate (a b c : ascii) : option Z :=
  let x := Json.code b in
  let y := Json.code c in
  if (Json.code a =? 237) && (160 <=? x) && (x <=? 191)
     && (128 <=? y) && (y <=? 191)
  then Some (53248 + (x - 128) * 64 + (y - 128))
  else None.

Inductive piece :=
| Byte (c : ascii)
| Lone (unit : Z)
| Pair (point : Z).

Fixpoint pieces (s : string) : list piece :=
  match s with
  | EmptyString => []
  | String a (String b (String c rest3) as rest1) =>
      match surrogate a b c with
      | None => Byte a :: pieces rest1
      | Some hi =>
          match rest3 with
          | String d (String e (String f rest6)) =>
              match surrogate d e f with
              | Some lo =>
                  if (hi <? 56320) && (56320 <=? lo)
                  then Pair (65536 + (hi - 55296) * 1024 + (lo - 56320))
                       :: pieces rest6
                  else Lone hi :: pieces rest3
              | None => Lone hi :: pieces rest3
              end
          | _ => Lone hi :: pieces rest3
          end
      end
  | String a rest => Byte a :: pieces rest
  end.

(** The string holds a surrogate in three bytes. *)
Definition surrogates (s : string) : bool :=
  existsb (fun p => match p with Byte _ => false | _ => true end) (pieces s).

End Utf16.

(** [Buffer.from(s)]: the UTF-8 bytes of the string, with U+FFFD in the
    place of a lone surrogate. *)
Definition Buffer_from (s : string) : string :=
  fold_right
    (fun p bytes =>
       match p with
       | Utf16.Byte c => String c bytes
       | Utf16.Lone _ =>
           String "239"%char (String "191"%char (String "189"%char bytes))
       | Utf16.Pair point => Json.utf8 point +:+ bytes
       end) EmptyString (Utf16.pieces s).

(** ** JSON.stringify

    [None] is the [undefined] the runtime returns for [undefined] itself;
    inside an array [undefined] prints as [null], inside an object the
    property is skipped. A number that is not finite prints as [null]. The
    properties of an object are listed as the runtime enumerates them: those
    named by an array index first, in ascending order, then the others in
    the order of their creation. An [Error] serialises its own properties
    only. *)
Module Stringify.

Definition hex_digit (z : Z) : ascii :=
  if z <? 10 then Json.chr (48 + z) else Json.chr (87 + z).

Definition escape_char (c : ascii) : string :=
  let n := Json.code c in
  if n =? 34 then "\" +:+ String c EmptyString
  else if n =? 92 then "\\"
  else if n =? 8 then "\b"
  else if n =? 12 then "\f"
  else if n =? 10 then "\n"
  else if n =? 13 then "\r"
  else if n =? 9 then "\t"
  else if n <? 32 then
    "\u00" +:+ String (hex_digit (n / 16))
                 (String (hex_digit (n mod 16)) EmptyString)
  else String c EmptyString.

(** QuoteJSONString without the quotes: the two-character escapes, [\u00xx]
    for the other control characters, [\udxxx] for a lone surrogate. *)
Definition escape (s : string) : string :=
  fold_right
    (fun p text =>
       match p with
       | Utf16.Byte c => escape_char c +:+ text
       | Utf16.Lone u =>
           "\u" +:+ String (hex_digit (u / 4096))
                     (String (hex_digit (u / 256 mod 16))
                        (String (hex_digit (u / 16 mod 16))
                           (String (hex_digit (u mod 16)) text)))
       | Utf16.Pair point => Json.utf8 point +:+ text
       end) EmptyString (Utf16.pieces s).

Definition str (s : string) : string := quoted (escape s).

(** A property name that is an array index: the decimal text, without a
    leading zero, of an integer below [2 ^ 32 - 1]. *)
Definition array_index (k : string) : option Z :=
  match k with
  | EmptyString => None
  | String c _ =>
      match Json.digits k 0 0 with
      | (v, n, EmptyString) =>
          if Ascii.eqb c "0"%char && negb (n =? 1) then None
          else if v <? 2 ^ 32 - 1 then Some v else None
      | _ => None
      end
  end.

Fixpoint insert_index {A} (i : Z) (x : A) (l : list (Z * A)) : list (Z * A) :=
  match l with
  | [] => [(i, x)]
  | (j, y) :: rest =>
      if i <? j then (i, x) :: l else (j, y) :: insert_index i x rest
  end.

(** The first binding of each name, the one [prop] reads. *)
Fixpoint first_bindings {A} (seen : list string) (l : list (string * A))
  : list (string * A) :=
  match l with
  | [] => []
  | (k, x) :: rest =>
      if existsb (String.eqb k) seen then first_bindings seen rest
      else (k, x) :: first_bindings (k :: seen) rest
  end.

(** What belongs to the properties, in the order the runtime enumerates
    them. *)
Definition own_order {A} (members : list (string * A)) : list A :=
  map snd
    (fold_left
       (fun acc '(k, x) =>
          match array_index k with
          | Some i => insert_index i x acc
          | None => acc
          end) members [])
  ++ map snd
       (List.filter
          (fun '(k, _) =>
             match array_index k with Some _ => false | None => true end)
          members).

Definition finite (n : number) : bool :=
  match Binary64.canonical n with
  | Num _ _ => true
  | _ => false
  end.

(** The members of an object, from the text of each property ([None] for a
    property that is skipped). *)
Definition object (members : list (string * option string)) : string :=
  "{" +:+ String.concat "," (omap id (own_order (first_bindings [] members)))
  +:+ "}".

Fixpoint to_text (v : value) : option string :=
  let members :=
    fix members (l : list (string * value)) : list (string * option string) :=
      match l with
      | [] => []
      | (k, x) :: rest =>
          (k, match to_text x with
              | Some t => Some (str k +:+ ":" +:+ t)
              | None => None
              end) :: members rest
      end in
  match v with
  | VUndefined => None
  | VNull => Some "null"
  | VBool true => Some "true"
  | VBool false => Some "false"
  | VNum n => Some (if finite n then Number_toString n else "null")
  | VStr s => Some (str s)
  | VArr items =>
      Some ("[" +:+
            String.concat ","
              ((fix elements (l : list value) : list string :=
                  match l with
                  | [] => []
                  | x :: rest => default "null" (to_text x) :: elements rest
                  end) items)
            +:+ "]")
  | VObj fs => Some (object (members fs))
  | VError _ ps => Some (object (members ps))
  end.

End Stringify.

Definition JSON_stringify (v : value) : value :=
  match Stringify.to_text v with
  | Some t => VStr t
  | None => VUndefined
  end.

(** ** Base64, as produced by [Buffer.from(s).toString('base64')] *)
Module Base64.

Definition alphabet : string :=
  "ABCDEFGHIJKLMNOPQRSTUVWXYZabcdefghijklmnopqrstuvwxyz0123456789+/".

Definition pad : ascii := "="%char.

Definition char (i : Z) : ascii :=
  default pad (String.get (Z.to_nat i) alphabet).

(** The six-bit value of an alphabet character. *)
Definition index (c : ascii) : option Z :=
  let n := Json.code c in
  if (65 <=? n) && (n <=? 90) then Some (n - 65)
  else if (97 <=? n) && (n <=? 122) then Some (n - 71)
  else if (48 <=? n) && (n <=? 57) then Some (n + 4)
  else if n =? 43 then Some 62
  else if n =? 47 then Some 63
  else None.

Fixpoint encode_bytes (s : string) : string :=
  match s with
  | EmptyString => EmptyString
  | String a EmptyString =>
      let x := Json.code a in
      String (char (x / 4)) (String (char (x mod 4 * 16))
        (String pad (String pad EmptyString)))
  | String a (String b EmptyString) =>
      let x := Json.code a in
      let y := Json.code b in
      String (char (x / 4)) (String (char (x mod 4 * 16 + y / 16))
        (String (char (y mod 16 * 4)) (String pad EmptyString)))
  | String a (String b (String c rest)) =>
      let x := Json.code a in
      let y := Json.code b in
      let z := Json.code c in
      String (char (x / 4)) (String (char (x mod 4 * 16 + y / 16))
        (String (char (y mod 16 * 4 + z / 64))
           (String (char (z mod 64)) (encode_bytes rest))))
  end.

(** [Buffer.from(s).toString('base64')] *)
Definition encode (s : string) : string := encode_bytes (Buffer_from s).

Fixpoint decode (s : string) : option string :=
  match s with
  | EmptyString => Some EmptyString
  | String a (String b (String c (String d rest))) =>
      match index a, index b with
      | Some p, Some q =>
          let x := Json.chr (p * 4 + q / 16) in
          if Ascii.eqb c pad then
            if Ascii.eqb d pad then
              match rest with
              | EmptyString => Some (String x EmptyString)
              | _ => None
              end
            else None
          else
            match index c with
            | None => None
            | Some r =>
                let y := Json.chr (q mod 16 * 16 + r / 4) in
                if Ascii.eqb d pad then
                  match rest with
                  | EmptyString => Some (String x (String y EmptyString))
                  | _ => None
                  end
                else
                  match index d, decode rest with
                  | Some t, Some tail =>
                      Some (String x (String y
                              (String (Json.chr (r mod 4 * 64 + t)) tail)))
                  | _, _ => None
                  end
            end
      | _, _ => None
      end
  | _ => None
  end.

End Base64.

(** ** The environment of a run, and effects *)

(** What [fs.existsSync] and [fs.readFileSync] find at a path: nothing (the
    path is not in the map), a file whose content can be read, or an entry
    that exists and cannot be read (a directory, a file without permission). *)
Inductive File := Readable (content : string) | Unreadable.

(** The authenticated client of google-auth-library: constructor arguments
    and the credentials set on it. *)
Record OAuth2Client := {
  clientId : value;
  clientSecret : value;
  redirectUri : value;
  credentials : value
}.

(** The methods of [gmail.users] the facade calls. *)
Inductive api_method :=
| messages_list | messages_get | messages_send | messages_modify
| messages_trash | messages_untrash | drafts_create | labels_list
| threads_list | threads_get.

(** The outcome of a computation: a value, or a thrown value (a rejected
    promise, for the asynchronous methods). *)
Inductive result (A : Type) :=
| Return (a : A)
| Throw (error : value).
Arguments Return {A} a.
Arguments Throw {A} error.

Record World := {
  process_env : gmap string string;
  path_resolve : string -> string;
  fs : gmap string File;
  (** the remote service, as seen through the SDK: the response object the
      awaited call yields, or the value it rejects with *)
  gmail_api : OAuth2Client -> api_method -> value -> result value
}.

(** What a run does to the outside, in order. *)
Inductive event :=
| EnvRead (name : string)
| ExistsSync (path : string)
| ReadFileSync (path : string)
| ConsoleError (args : list value)
| ApiCall (method : api_method) (params : value).

Definition M (A : Type) : Type := list event -> result A * list event.

Definition ret {A} (a : A) : M A := fun tr => (Return a, tr).

Definition throw {A} (error : value) : M A := fun tr => (Throw error, tr).

Definition bind {A B} (m : M A) (k : A -> M B) : M B :=
  fun tr =>
    match m tr with
    | (Return a, tr') => k a tr'
    | (Throw error, tr') => (Throw error, tr')
    end.

(** [try { m } catch (error) { handler error }] *)
Definition try_catch {A} (m : M A) (handler : value -> M A) : M A :=
  fun tr =>
    match m tr with
    | (Return a, tr') => (Return a, tr')
    | (Throw error, tr') => handler error tr'
    end.

Definition emit (e : event) : M unit := fun tr => (Return tt, tr ++ [e]).

Declare Scope js_scope.
Delimit Scope js_scope with js.
Notation "'let*' x ':=' m 'in' k" := (bind m (fun x => k))
  (at level 10, x name, m at level 100, k at level 200) : js_scope.
Notation "'run' m 'then' k" := (bind m (fun _ => k))
  (at level 10, m at level 100, k at level 200) : js_scope.
Local Open Scope js_scope.

(** [new Error(message)]; subclasses ([TypeError], [SyntaxError], the
    SDK's errors) are [Error] instances too and are not told apart. *)
Definition Error (message : string) : value := VError message [].

Definition instanceof_Error (v : value) : bool :=
  match v with VError _ _ => true | _ => false end.

(** Property read [v.k], throwing on [undefined] and [null]. *)
Definition get (v : value) (k : string) : M value :=
  if nullish v
  then throw (Error ("Cannot read properties of " +:+ ToString v
                     +:+ " (reading '" +:+ k +:+ "')"))
  else ret (prop v k).

(** [k in v], a [TypeError] on primitives. *)
Definition has_in (k : string) (v : value) : M bool :=
  match v with
  | VObj fs => ret (Obj.has k fs)
  | VError _ ps => ret (String.eqb k "message" || Obj.has k ps)
  | VArr _ => ret false
  | _ => throw (Error ("Cannot use 'in' operator to search for '" +:+ k
                       +:+ "' in " +:+ ToString v))
  end.

Definition console_error (args : list value) : M unit :=
  emit (ConsoleError args).

(** [JSON.parse(text)], throwing a [SyntaxError]. *)
Definition JSON_parse_or_throw (text : string) : M value :=
  match JSON_parse text with
  | Some v => ret v
  | None => throw (Error "Unexpected token in JSON")
  end.

Section Run.

Variable w : World.

(** [process.env.NAME]: a string, or [undefined]. *)
Definition env_value (name : string) : value :=
  match process_env w !! name with
  | Some s => VStr s
  | None => VUndefined
  end.

Definition getenv (name : string) : M value :=
  run emit (EnvRead name) then ret (env_value name).

Definition existsSync (path : string) : M bool :=
  run emit (ExistsSync path) then
  ret (match fs w !! path with Some _ => true | None => false end).

Definition readFileSync (path : string) : M string :=
  run emit (ReadFileSync path) then
  match fs w !! path with
  | Some (Readable content) => ret content
  | Some Unreadable =>
      throw (Error ("EACCES: permission denied, open '" +:+ path +:+ "'"))
  | None =>
      throw (Error ("ENOENT: no such file or directory, open '" +:+ path +:+ "'"))
  end.

(** *** src/tokens.ts *)

Definition env_invalid_message : string :=
  "GMAIL_TOKEN environment variable is not valid JSON".

Definition file_failed_message (tokenPath : string) : string :=
  "Failed to read or parse token file at " +:+ tokenPath.

Definition no_tokens_message : string :=
  "No Gmail tokens found. Provide tokens via: 1) GMAIL_TOKEN env var, 2) GMAIL_TOKEN_FILE env var pointing to JSON file, 3) direct function parameter".

Definition resolveTokens (provided : value) : M value :=
  (* Priority 1: directly provided tokens *)
  if truthy provided then ret provided
  else
    (* Priority 2: environment variable *)
    let* envToken := getenv "GMAIL_TOKEN" in
    if truthy envToken then
      try_catch (JSON_parse_or_throw (ToString envToken))
                (fun _ => throw (Error env_invalid_message))
    else
      (* Priority 3: JSON file *)
      let* fileVar := getenv "GMAIL_TOKEN_FILE" in
      let tokenFile := js_or fileVar (VStr "./token.json") in
      let tokenPath := path_resolve w (ToString tokenFile) in
      let* found := existsSync tokenPath in
      if found : bool then
        try_catch (let* content := readFileSync tokenPath in
                   JSON_parse_or_throw content)
                  (fun _ => throw (Error (file_failed_message tokenPath)))
      else throw (Error no_tokens_message).

(** *** src/index.ts: class GmailClient *)

Record GmailClient := { oauth2Client : OAuth2Client }.

Definition setCredentials (c : OAuth2Client) (tokens : value) : OAuth2Client :=
  {| clientId := clientId c; clientSecret := clientSecret c;
     redirectUri := redirectUri c; credentials := tokens |}.

(** [tokens.snake || tokens.camel] *)
Definition either_name (tokens : value) (snake camel : string) : M value :=
  let* a := get tokens snake in
  if truthy a then ret a else get tokens camel.

Definition normalizedTokens (tokens : value) : M value :=
  let* access_token := either_name tokens "access_token" "accessToken" in
  let* refresh_token := either_name tokens "refresh_token" "refreshToken" in
  let* expiry_date := either_name tokens "expiry_date" "expiryDate" in
  let* token_type := either_name tokens "token_type" "tokenType" in
  ret (VObj [("access_token", access_token);
             ("refresh_token", refresh_token);
             ("expiry_date", expiry_date);
             ("token_type", token_type)]).

Definition new_GmailClient (tokens : value) : M GmailClient :=
  let* id := getenv "GOOGLE_CLIENT_ID" in
  let* secret := getenv "GOOGLE_CLIENT_SECRET" in
  let* redirect := getenv "GOOGLE_REDIRECT_URL" in
  let client :=
    {| clientId := id; clientSecret := secret;
       redirectUri := js_or redirect (VStr "http://localhost:3000/callback");
       credentials := VObj [] |} in
  let* normalized := normalizedTokens tokens in
  ret {| oauth2Client := setCredentials client normalized |}.

End Run.

Definition CRLF : string := String "013"%char (String "010"%char EmptyString).

(** A parameter default [p = dflt]: it applies to [undefined] only. *)
Definition default_param (v dflt : value) : value :=
  match v with VUndefined => dflt | _ => v end.

Section Facade.

Variable w : World.
Variable this : GmailClient.

(** One awaited call of the SDK, [this.gmail.users.<method>(params)]. *)
Definition api (method : api_method) (params : value) : M value :=
  fun tr => (gmail_api w (oauth2Client this) method params,
             tr ++ [ApiCall method params]).

Definition handleError {A} (error : value) : M A :=
  match error with
  | VError message _ =>
      run console_error [VStr ("Gmail API error: " +:+ message)] then
      throw error
  | _ =>
      run console_error [VStr "Unknown Gmail API error:"; error] then
      throw (Error "Unknown Gmail API error")
  end.

Definition buildMessage (options : value) : M string :=
  let* to_field := get options "to" in
  let to :=
    match to_field with
    | VArr items => VStr (join "," items)
    | _ => to_field
    end in
  let* subject_field := get options "subject" in
  let subject := js_or subject_field (VStr "(no subject)") in
  let* body_field := get options "body" in
  let body := js_or body_field (VStr EmptyString) in
  let* has_html := has_in "html" options in
  let* html := (if has_html : bool then get options "html" else ret (VBool false)) in
  let contentType := if truthy html then "text/html" else "text/plain" in
  let headers :=
    ["To: " +:+ ToString to;
     "Subject: " +:+ ToString subject;
     "Content-Type: " +:+ contentType +:+ "; charset=" +:+ quoted "UTF-8";
     "MIME-Version: 1.0"] in
  let* has_reply := has_in "inReplyTo" options in
  let* inReplyTo :=
    (if has_reply : bool then get options "inReplyTo" else ret (VBool false)) in
  let headers :=
    if truthy inReplyTo
    then headers ++ ["In-Reply-To: " +:+ ToString inReplyTo;
                     "References: " +:+ ToString inReplyTo]
    else headers in
  ret (String.concat CRLF headers +:+ CRLF +:+ CRLF +:+ ToString body).

(** The [try] blocks of the methods. *)

Definition listMessages_try (userId options : value) : M value :=
  let* response :=
    api messages_list
      (VObj [("userId", userId);
             ("q", opt_prop options "q");
             ("maxResults", opt_prop options "maxResults");
             ("pageToken", opt_prop options "pageToken");
             ("includeSpamTrash", opt_prop options "includeSpamTrash");
             ("labelIds", opt_prop options "labelIds")]) in
  let* data := get response "data" in
  let* messages := get data "messages" in
  ret (js_or messages (VArr [])).

Definition getMessage_try (userId messageId format : value) : M value :=
  let* response :=
    api messages_get
      (VObj [("userId", userId); ("id", messageId); ("format", format)]) in
  get response "data".

Definition searchMessages_try (userId query options : value) : M value :=
  let* response :=
    api messages_list
      (VObj [("userId", userId);
             ("q", query);
             ("maxResults", opt_prop options "maxResults");
             ("pageToken", opt_prop options "pageToken");
             ("includeSpamTrash", opt_prop options "includeSpamTrash");
             ("labelIds", opt_prop options "labelIds")]) in
  let* data := get response "data" in
  let* messages := get data "messages" in
  ret (js_or messages (VArr [])).

Definition sendMessage_try (userId options : value) : M value :=
  let* email := buildMessage options in
  let* threadId := get options "threadId" in
  let* labelIds := get options "labelIds" in
  let* response :=
    api messages_send
      (VObj [("userId", userId);
             ("requestBody",
              VObj [("raw", VStr (Base64.encode email));
                    ("threadId", threadId);
                    ("labelIds", labelIds)])]) in
  get response "data".

Definition createDraft_try (userId options : value) : M value :=
  let* email := buildMessage options in
  let* threadId := get options "threadId" in
  let* response :=
    api drafts_create
      (VObj [("userId", userId);
             ("requestBody",
              VObj [("message",
                     VObj [("raw", VStr (Base64.encode email));
                           ("threadId", threadId)])])]) in
  get response "data".

Definition listLabels_try (userId : value) : M value :=
  let* response := api labels_list (VObj [("userId", userId)]) in
  let* data := get response "data" in
  let* labels := get data "labels" in
  ret (js_or labels (VArr [])).

Definition modifyMessageLabels_try (userId messageId options : value)
  : M value :=
  let* addLabelIds := get options "addLabelIds" in
  let* removeLabelIds := get options "removeLabelIds" in
  let* response :=
    api messages_modify
      (VObj [("userId", userId);
             ("id", messageId);
             ("requestBody",
              VObj [("addLabelIds", addLabelIds);
                    ("removeLabelIds", removeLabelIds)])]) in
  get response "data".

Definition trashMessage_try (userId messageId : value) : M value :=
  let* response :=
    api messages_trash (VObj [("userId", userId); ("id", messageId)]) in
  get response "data".

Definition untrashMessage_try (userId messageId : value) : M value :=
  let* response :=
    api messages_untrash (VObj [("userId", userId); ("id", messageId)]) in
  get response "data".

Definition listThreads_try (userId options : value) : M value :=
  let* response :=
    api threads_list
      (VObj [("userId", userId);
             ("q", opt_prop options "q");
             ("maxResults", opt_prop options "maxResults");
             ("pageToken", opt_prop options "pageToken");
             ("includeSpamTrash", opt_prop options "includeSpamTrash");
             ("labelIds", opt_prop options "labelIds")]) in
  let* data := get response "data" in
  let* threads := get data "threads" in
  ret (js_or threads (VArr [])).

Definition getThread_try (userId threadId format : value) : M value :=
  let* response :=
    api threads_get
      (VObj [("userId", userId); ("id", threadId); ("format", format)]) in
  get response "data".

(** The methods: defaults for omitted parameters, then
    [try { ... } catch (error) { this.handleError(error); }]. *)

Definition me : value := VStr "me".
Definition full : value := VStr "full".

Definition listMessages (userId options : value) : M value :=
  try_catch (listMessages_try (default_param userId me) options) handleError.

Definition getMessage (userId messageId format : value) : M value :=
  try_catch (getMessage_try (default_param userId me) messageId
                            (default_param format full))
            handleError.

Definition searchMessages (userId query options : value) : M value :=
  try_catch (searchMessages_try (default_param userId me) query options)
            handleError.

Definition sendMessage (userId options : value) : M value :=
  try_catch (sendMessage_try (default_param userId me) options) handleError.

Definition createDraft (userId options : value) : M value :=
  try_catch (createDraft_try (default_param userId me) options) handleError.

Definition listLabels (userId : value) : M value :=
  try_catch (listLabels_try (default_param userId me)) handleError.

Definition modifyMessageLabels (userId messageId options : value) : M value :=
  try_catch (modifyMessageLabels_try (default_param userId me) messageId options)
            handleError.

Definition trashMessage (userId messageId : value) : M value :=
  try_catch (trashMessage_try (default_param userId me) messageId) handleError.

Definition untrashMessage (userId messageId : value) : M value :=
  try_catch (untrashMessage_try (default_param userId me) messageId) handleError.

Definition listThreads (userId options : value) : M value :=
  try_catch (listThreads_try (default_param userId me) options) handleError.

Definition getThread (userId threadId format : value) : M value :=
  try_catch (getThread_try (default_param userId me) threadId
                           (default_param format full))
            handleError.

End Facade.

Section Exports.

Variable w : World.

Definition createGmailClient (options : value) : M GmailClient :=
  let* tokens := resolveTokens w (opt_prop options "tokens") in
  new_GmailClient w tokens.

End Exports.

(** ** The MCP server: the CallToolRequestSchema handler *)
Section Dispatch.

Variable w : World.

(** [{ content: [{ type: 'text', text }] }] *)
Definition text_content (text : value) : value :=
  VObj [("content", VArr [VObj [("type", VStr "text"); ("text", text)]])].

(** [{ content: [{ type: 'text', text }], isError: true }] *)
Definition error_content (text : value) : value :=
  VObj [("content", VArr [VObj [("type", VStr "text"); ("text", text)]]);
        ("isError", VBool true)].

(** The [switch (name)] of the handler. *)
Definition call_tool (client : GmailClient) (name : string) (toolArgs : value)
  : M value :=
  let arg := prop toolArgs in
  if String.eqb name "gmailListMessages" then
    let* r := listMessages w client me
                (VObj [("q", arg "q");
                       ("maxResults", arg "maxResults");
                       ("pageToken", arg "pageToken");
                       ("includeSpamTrash", arg "includeSpamTrash");
                       ("labelIds", arg "labelIds")]) in
    ret (text_content (JSON_stringify r))
  else if String.eqb name "gmailGetMessage" then
    let* r := getMessage w client me (arg "messageId") (arg "format") in
    ret (text_content (JSON_stringify r))
  else if String.eqb name "gmailSearchMessages" then
    let* r := searchMessages w client me (arg "query")
                (VObj [("maxResults", arg "maxResults");
                       ("pageToken", arg "pageToken");
                       ("labelIds", arg "labelIds")]) in
    ret (text_content (JSON_stringify r))
  else if String.eqb name "gmailSendMessage" then
    let* r := sendMessage w client me
                (VObj [("to", arg "to");
                       ("subject", arg "subject");
                       ("body", arg "body");
                       ("html", arg "html");
                       ("threadId", arg "threadId");
                       ("inReplyTo", arg "inReplyTo")]) in
    ret (text_content (JSON_stringify r))
  else if String.eqb name "gmailCreateDraft" then
    let* r := createDraft w client me
                (VObj [("to", arg "to");
                       ("subject", arg "subject");
                       ("body", arg "body");
                       ("html", arg "html");
                       ("threadId", arg "threadId")]) in
    ret (text_content (JSON_stringify r))
  else if String.eqb name "gmailListLabels" then
    let* r := listLabels w client VUndefined in
    ret (text_content (JSON_stringify r))
  else if String.eqb name "gmailModifyMessageLabels" then
    let* r := modifyMessageLabels w client me (arg "messageId")
                (VObj [("addLabelIds", arg "addLabelIds");
                       ("removeLabelIds", arg "removeLabelIds")]) in
    ret (text_content (JSON_stringify r))
  else if String.eqb name "gmailTrashMessage" then
    let* r := trashMessage w client me (arg "messageId") in
    ret (text_content (JSON_stringify r))
  else if String.eqb name "gmailUntrashMessage" then
    let* r := untrashMessage w client me (arg "messageId") in
    ret (text_content (JSON_stringify r))
  else if String.eqb name "gmailListThreads" then
    let* r := listThreads w client me
                (VObj [("q", arg "q");
                       ("maxResults", arg "maxResults");
                       ("pageToken", arg "pageToken");
                       ("labelIds", arg "labelIds")]) in
    ret (text_content (JSON_stringify r))
  else if String.eqb name "gmailGetThread" then
    let* r := getThread w client me (arg "threadId") (arg "format") in
    ret (text_content (JSON_stringify r))
  else
    ret (error_content (VStr ("Unknown tool: " +:+ name))).

(** The [try] block of the handler. *)
Definition handler_try (name : string) (toolArgs tokens : value) : M value :=
  let* client := createGmailClient w (VObj [("tokens", tokens)]) in
  call_tool client name toolArgs.

(** [error instanceof Error ? error.message : String(error)] *)
Definition error_message (error : value) : string :=
  match error with
  | VError message _ => message
  | _ => ToString error
  end.

Definition handler_catch (error : value) : M value :=
  let message := error_message error in
  run console_error [VStr ("Tool error: " +:+ message)] then
  ret (error_content (VStr ("Error: " +:+ message))).

(** The handler, on a request the SDK has validated against
    [CallToolRequestSchema]: [params.name] is a string, [params.arguments]
    an object or [undefined]. *)
Definition handler (name : string) (args : value) : M value :=
  let toolArgs := js_or args (VObj []) in
  let tokens := js_or (prop toolArgs "tokens") VUndefined in
  try_catch (handler_try name toolArgs tokens) handler_catch.

End Dispatch.

(** ** Runs on concrete worlds *)

(** [path.resolve] for the paths of the examples: an absolute path is kept,
    a relative one is appended to the working directory. *)
Definition resolve_from (cwd : string) (p : string) : string :=
  match p with
  | String "/"%char _ => p
  | String "."%char (String "/"%char rest) => cwd +:+ "/" +:+ rest
  | _ => cwd +:+ "/" +:+ p
  end.

(** A remote that answers every call with the given response. *)
Definition answering (response : result value)
  : OAuth2Client -> api_method -> value -> result value :=
  fun _ _ _ => response.

Definition world (env : gmap string string) (files : gmap string File)
    (remote : OAuth2Client -> api_method -> value -> result value) : World :=
  {| process_env := env; path_resolve := resolve_from "/srv/app";
     fs := files; gmail_api := remote |}.

Definition camel_file : string :=
  object_text [member "accessToken" (quoted "X");
               member "refreshToken" (quoted "Y")].

Definition inbox : value := VObj [("id", VStr "INBOX"); ("name", VStr "INBOX")].

(** * The vocabulary of the properties

    Everything below this line is about the program above it: the shapes the
    statements quantify over, the same behaviour written as plain functions
    for the statements to refer to, the wording of the specification where a
    statement is compared with it, and the worlds of the examples. *)

(** [hay.includes(needle)] *)
Fixpoint includes (needle hay : string) : bool :=
  if String.prefix needle hay then true
  else match hay with
       | EmptyString => false
       | String _ rest => includes needle rest
       end.

(** An optional bundle or options record, as the value a caller passes. *)
Definition optional (fields : option (list (string * value))) : value :=
  match fields with
  | Some fs => VObj fs
  | None => VUndefined
  end.

(** The path of the token file in a world: [GMAIL_TOKEN_FILE], or the
    default name, resolved. *)
Definition tokenPath (w : World) : string :=
  path_resolve w
    (ToString (js_or (env_value w "GMAIL_TOKEN_FILE") (VStr "./token.json"))).

(** [GMAIL_TOKEN] is not set, or set to the empty string. *)
Definition env_token_blank (w : World) : Prop :=
  process_env w !! "GMAIL_TOKEN" = None
  \/ process_env w !! "GMAIL_TOKEN" = Some EmptyString.

(** The outcome of a run, without its trace. *)
Definition outcome {A} (r : result A * list event) : result A := fst r.
Definition trace {A} (r : result A * list event) : list event := snd r.

(** The priority chain in the words of the specification: the supplied
    bundle when there is one; otherwise the parsed [GMAIL_TOKEN] when it is
    set and parses; otherwise the parsed token file when it exists and
    parses. [None] where the chain names no value. *)
Definition resolve_as_stated (w : World)
    (supplied : option (list (string * value))) : option value :=
  match supplied with
  | Some bundle => Some (VObj bundle)
  | None =>
      match
        match process_env w !! "GMAIL_TOKEN" with
        | Some s => JSON_parse s
        | None => None
        end
      with
      | Some v => Some v
      | None =>
          match fs w !! tokenPath w with
          | Some (Readable content) => JSON_parse content
          | _ => None
          end
      end
  end.

Definition no_remote : OAuth2Client -> api_method -> value -> result value :=
  answering (Throw VUndefined).

Definition file_bundle_text : string :=
  object_text [member "access_token" (quoted "file-token")].

Definition env_bundle_text : string :=
  object_text [member "access_token" (quoted "env-token")].

(** Both lower sources present and valid. *)
Definition world_env_and_file : World :=
  world {[ "GMAIL_TOKEN" := env_bundle_text ]}
        {[ "/srv/app/token.json" := Readable file_bundle_text ]} no_remote.

(** A valid token file, next to a [GMAIL_TOKEN] that is not JSON. *)
Definition world_bad_env : World :=
  world {[ "GMAIL_TOKEN" := "invalid-json{" ]}
        {[ "/srv/app/token.json" := Readable file_bundle_text ]} no_remote.

(** A valid token file only, at the path [GMAIL_TOKEN_FILE] names. *)
Definition world_file_only : World :=
  world {[ "GMAIL_TOKEN_FILE" := "/custom/path/token.json" ]}
        {[ "/custom/path/token.json" := Readable file_bundle_text ]} no_remote.

(** A token file that is not JSON, and one that cannot be read. *)
Definition world_bad_file : World :=
  world ∅ {[ "/srv/app/token.json" := Readable "invalid-json{" ]} no_remote.

Definition world_unreadable_file : World :=
  world ∅ {[ "/srv/app/token.json" := Unreadable ]} no_remote.

(** No source at all. *)
Definition world_empty : World := world ∅ ∅ no_remote.

(** Fuel of the parser: a run that succeeds consumes input, and succeeds
    with the same result on any fuel of at least twice what it consumed
    (less one, for a value). *)
Definition value_fuel (n : nat) : Prop :=
  (forall s v r,
    Json.parse_value n s = Some (v, r) ->
    String.length r < String.length s
    /\ forall m, 2 * (String.length s - String.length r) <= S m ->
                 Json.parse_value m s = Some (v, r))%nat.

Definition elements_fuel (n : nat) : Prop :=
  (forall s acc v r,
    Json.parse_elements n s acc = Some (v, r) ->
    String.length r < String.length s
    /\ forall m, 2 * (String.length s - String.length r) <= m ->
                 Json.parse_elements m s acc = Some (v, r))%nat.

Definition members_fuel (n : nat) : Prop :=
  (forall s acc v r,
    Json.parse_members n s acc = Some (v, r) ->
    String.length r < String.length s
    /\ forall m, 2 * (String.length s - String.length r) <= m ->
                 Json.parse_members m s acc = Some (v, r))%nat.

(** The check that a six-bit value survives [Base64.char] and
    [Base64.index], and that its character is not the padding. *)
Definition sextet_ok (n : nat) : bool :=
  let c := Base64.char (Z.of_nat n) in
  match Base64.index c with
  | Some i => (i =? Z.of_nat n) && negb (Ascii.eqb c Base64.pad)
  | None => false
  end.

(** ** Field normalisation *)

(** One canonical field in the words of the specification: the value under
    the underscore name when that property is present, else the value under
    the camel-case name, else unset. *)
Definition field_as_stated (bundle : list (string * value))
    (snake camel : string) : value :=
  match Obj.get snake bundle with
  | Some v => v
  | None => default VUndefined (Obj.get camel bundle)
  end.

(** One canonical field as the constructor computes it: the value under the
    underscore name when it is present and truthy (not the empty string, not
    zero, not [null]), else the value under the camel-case name, else
    [undefined]. *)
Definition field_of (bundle : list (string * value))
    (snake camel : string) : value :=
  match Obj.get snake bundle with
  | Some v => if truthy v then v else default VUndefined (Obj.get camel bundle)
  | None => default VUndefined (Obj.get camel bundle)
  end.

Definition canonical (bundle : list (string * value)) : value :=
  VObj [("access_token", field_of bundle "access_token" "accessToken");
        ("refresh_token", field_of bundle "refresh_token" "refreshToken");
        ("expiry_date", field_of bundle "expiry_date" "expiryDate");
        ("token_type", field_of bundle "token_type" "tokenType")].

(** ** The message envelope *)

(** ['k' in options && options.k] on a plain object. *)
Definition guarded (options : list (string * value)) (k : string) : value :=
  match Obj.get k options with
  | Some v => v
  | None => VBool false
  end.

Definition recipients_of (options : list (string * value)) : string :=
  match prop (VObj options) "to" with
  | VArr items => join "," items
  | v => ToString v
  end.

Definition content_type_header (html : bool) : string :=
  "Content-Type: " +:+ (if html then "text/html" else "text/plain")
  +:+ "; charset=" +:+ quoted "UTF-8".

(** The header lines and the body of the envelope of an options object. *)
Definition headers_of (options : list (string * value)) : list string :=
  ["To: " +:+ recipients_of options;
   "Subject: " +:+ ToString (js_or (prop (VObj options) "subject")
                                   (VStr "(no subject)"));
   content_type_header (truthy (guarded options "html"));
   "MIME-Version: 1.0"]
  ++ (if truthy (guarded options "inReplyTo")
      then ["In-Reply-To: " +:+ ToString (guarded options "inReplyTo");
            "References: " +:+ ToString (guarded options "inReplyTo")]
      else []).

Definition body_of (options : list (string * value)) : string :=
  ToString (js_or (prop (VObj options) "body") (VStr EmptyString)).

Definition envelope (headers : list string) (body : string) : string :=
  String.concat CRLF headers +:+ CRLF +:+ CRLF +:+ body.

(** What [sendMessage] hands to the SDK. *)
Definition send_request (userId : value) (options : list (string * value))
  : value :=
  VObj [("userId", default_param userId me);
        ("requestBody",
         VObj [("raw", VStr (Base64.encode
                               (envelope (headers_of options) (body_of options))));
               ("threadId", prop (VObj options) "threadId");
               ("labelIds", prop (VObj options) "labelIds")])].

(** A reply as the dispatcher passes it, with every property present and
    the omitted ones undefined. *)
Definition dispatched_options : list (string * value) :=
  [("to", VArr [VStr "a@x.org"; VStr "b@x.org"]);
   ("subject", VUndefined);
   ("body", VStr "<p>hello</p>");
   ("html", VBool true);
   ("threadId", VUndefined);
   ("inReplyTo", VStr "<m1@x.org>")].

Definition empty_reply_options : list (string * value) :=
  [("to", VStr "a@x.org"); ("inReplyTo", VStr EmptyString)].

Definition plain_envelope : string :=
  envelope ["To: a@x.org";
            "Subject: (no subject)";
            "Content-Type: text/plain; charset=" +:+ quoted "UTF-8";
            "MIME-Version: 1.0"] EmptyString.

(** ** The facade: failures and list results *)

(** A call of one facade method. *)
Inductive operation :=
| ListMessages (userId options : value)
| GetMessage (userId messageId format : value)
| SearchMessages (userId query options : value)
| SendMessage (userId options : value)
| CreateDraft (userId options : value)
| ListLabels (userId : value)
| ModifyMessageLabels (userId messageId options : value)
| TrashMessage (userId messageId : value)
| UntrashMessage (userId messageId : value)
| ListThreads (userId options : value)
| GetThread (userId threadId format : value).

Definition invoke (w : World) (client : GmailClient) (op : operation) : M value :=
  match op with
  | ListMessages userId options => listMessages w client userId options
  | GetMessage userId messageId format =>
      getMessage w client userId messageId format
  | SearchMessages userId query options =>
      searchMessages w client userId query options
  | SendMessage userId options => sendMessage w client userId options
  | CreateDraft userId options => createDraft w client userId options
  | ListLabels userId => listLabels w client userId
  | ModifyMessageLabels userId messageId options =>
      modifyMessageLabels w client userId messageId options
  | TrashMessage userId messageId => trashMessage w client userId messageId
  | UntrashMessage userId messageId => untrashMessage w client userId messageId
  | ListThreads userId options => listThreads w client userId options
  | GetThread userId threadId format =>
      getThread w client userId threadId format
  end.

(** The [try] block the method runs, with the parameter defaults applied. *)
Definition attempt (w : World) (client : GmailClient) (op : operation)
  : M value :=
  match op with
  | ListMessages userId options =>
      listMessages_try w client (default_param userId me) options
  | GetMessage userId messageId format =>
      getMessage_try w client (default_param userId me) messageId
        (default_param format full)
  | SearchMessages userId query options =>
      searchMessages_try w client (default_param userId me) query options
  | SendMessage userId options =>
      sendMessage_try w client (default_param userId me) options
  | CreateDraft userId options =>
      createDraft_try w client (default_param userId me) options
  | ListLabels userId => listLabels_try w client (default_param userId me)
  | ModifyMessageLabels userId messageId options =>
      modifyMessageLabels_try w client (default_param userId me) messageId options
  | TrashMessage userId messageId =>
      trashMessage_try w client (default_param userId me) messageId
  | UntrashMessage userId messageId =>
      untrashMessage_try w client (default_param userId me) messageId
  | ListThreads userId options =>
      listThreads_try w client (default_param userId me) options
  | GetThread userId threadId format =>
      getThread_try w client (default_param userId me) threadId
        (default_param format full)
  end.

(** What the caller of a facade method receives for a failure, and what is
    written to the error stream. *)
Definition propagated (error : value) : value :=
  match error with
  | VError _ _ => error
  | _ => Error "Unknown Gmail API error"
  end.

Definition logged (error : value) : event :=
  match error with
  | VError message _ => ConsoleError [VStr ("Gmail API error: " +:+ message)]
  | _ => ConsoleError [VStr "Unknown Gmail API error:"; error]
  end.

(** The remote rejects every call with the same value. *)
Definition rejecting (w : World) (client : GmailClient) (error : value) : Prop :=
  forall method params,
    gmail_api w (oauth2Client client) method params = Throw error.

(** The remote answers every call with the same response. *)
Definition responding (w : World) (client : GmailClient) (response : value)
  : Prop :=
  forall method params,
    gmail_api w (oauth2Client client) method params = Return response.

(** The options argument is an object where the method reads it without
    optional chaining. *)
Definition options_given (op : operation) : Prop :=
  match op with
  | SendMessage _ options | CreateDraft _ options
  | ModifyMessageLabels _ _ options => exists fields, options = VObj fields
  | _ => True
  end.

Definition stub_client : GmailClient :=
  {| oauth2Client :=
       {| clientId := VUndefined; clientSecret := VUndefined;
          redirectUri := VStr "http://localhost:3000/callback";
          credentials := canonical [("access_token", VStr "test-access-token")] |} |}.

(** ** Search is list with the query bound *)

(** [{ ...options, q: query }], for an options record or none. *)
Definition with_q (options : option (list (string * value))) (query : value)
  : value :=
  VObj (Obj.set "q" query (default [] options)).

(** ** The dispatcher *)

(** The facade call each tool name stands for. *)
Definition tool_operation (name : string) (toolArgs : value) : option operation :=
  let arg := prop toolArgs in
  if String.eqb name "gmailListMessages" then
    Some (ListMessages me
            (VObj [("q", arg "q"); ("maxResults", arg "maxResults");
                   ("pageToken", arg "pageToken");
                   ("includeSpamTrash", arg "includeSpamTrash");
                   ("labelIds", arg "labelIds")]))
  else if String.eqb name "gmailGetMessage" then
    Some (GetMessage me (arg "messageId") (arg "format"))
  else if String.eqb name "gmailSearchMessages" then
    Some (SearchMessages me (arg "query")
            (VObj [("maxResults", arg "maxResults");
                   ("pageToken", arg "pageToken");
                   ("labelIds", arg "labelIds")]))
  else if String.eqb name "gmailSendMessage" then
    Some (SendMessage me
            (VObj [("to", arg "to"); ("subject", arg "subject");
                   ("body", arg "body"); ("html", arg "html");
                   ("threadId", arg "threadId");
                   ("inReplyTo", arg "inReplyTo")]))
  else if String.eqb name "gmailCreateDraft" then
    Some (CreateDraft me
            (VObj [("to", arg "to"); ("subject", arg "subject");
                   ("body", arg "body"); ("html", arg "html");
                   ("threadId", arg "threadId")]))
  else if String.eqb name "gmailListLabels" then Some (ListLabels VUndefined)
  else if String.eqb name "gmailModifyMessageLabels" then
    Some (ModifyMessageLabels me (arg "messageId")
            (VObj [("addLabelIds", arg "addLabelIds");
                   ("removeLabelIds", arg "removeLabelIds")]))
  else if String.eqb name "gmailTrashMessage" then
    Some (TrashMessage me (arg "messageId"))
  else if String.eqb name "gmailUntrashMessage" then
    Some (UntrashMessage me (arg "messageId"))
  else if String.eqb name "gmailListThreads" then
    Some (ListThreads me
            (VObj [("q", arg "q"); ("maxResults", arg "maxResults");
                   ("pageToken", arg "pageToken");
                   ("labelIds", arg "labelIds")]))
  else if String.eqb name "gmailGetThread" then
    Some (GetThread me (arg "threadId") (arg "format"))
  else None.

(** What the dispatcher answers for a failure. *)
Definition error_response (error : value) : value :=
  error_content (VStr ("Error: " +:+ error_message error)).

Definition tool_error_logged (error : value) : event :=
  ConsoleError [VStr ("Tool error: " +:+ error_message error)].

(** The arguments and the embedded bundle as the handler derives them. *)
Definition toolArgs_of (args : value) : value := js_or args (VObj []).
Definition tokens_of (args : value) : value :=
  js_or (prop (toolArgs_of args) "tokens") VUndefined.

(** A bundle in [GMAIL_TOKEN], and a remote that answers with one label. *)
Definition world_labels : World :=
  world {[ "GMAIL_TOKEN" := env_bundle_text ]} ∅
        (answering (Return (VObj [("data", VObj [("labels", VArr [inbox])])]))).

Definition labels_client : GmailClient :=
  {| oauth2Client :=
       {| clientId := VUndefined; clientSecret := VUndefined;
          redirectUri := VStr "http://localhost:3000/callback";
          credentials := canonical [("access_token", VStr "env-token")] |} |}.

(** * Further code: the exported functions and the tool registry *)

(** ** src/index.ts: the exported functions

    Each resolves the credentials, builds a client of its own and calls one
    method of it. *)
Module Exported.

Definition listMessages (w : World) (userId options tokens : value) : M value :=
  let* resolved := resolveTokens w tokens in
  let* client := new_GmailClient w resolved in
  listMessages w client userId options.

Definition getMessage (w : World) (messageId tokens format : value) : M value :=
  let* resolved := resolveTokens w tokens in
  let* client := new_GmailClient w resolved in
  getMessage w client me messageId format.

Definition searchMessages (w : World) (query tokens options : value) : M value :=
  let* resolved := resolveTokens w tokens in
  let* client := new_GmailClient w resolved in
  searchMessages w client me query options.

Definition sendMessage (w : World) (options tokens : value) : M value :=
  let* resolved := resolveTokens w tokens in
  let* client := new_GmailClient w resolved in
  sendMessage w client me options.

Definition createDraft (w : World) (options tokens : value) : M value :=
  let* resolved := resolveTokens w tokens in
  let* client := new_GmailClient w resolved in
  createDraft w client me options.

Definition listLabels (w : World) (tokens : value) : M value :=
  let* resolved := resolveTokens w tokens in
  let* client := new_GmailClient w resolved in
  listLabels w client VUndefined.

Definition modifyMessageLabels (w : World) (messageId options tokens : value)
  : M value :=
  let* resolved := resolveTokens w tokens in
  let* client := new_GmailClient w resolved in
  modifyMessageLabels w client me messageId options.

Definition trashMessage (w : World) (messageId tokens : value) : M value :=
  let* resolved := resolveTokens w tokens in
  let* client := new_GmailClient w resolved in
  trashMessage w client me messageId.

Definition untrashMessage (w : World) (messageId tokens : value) : M value :=
  let* resolved := resolveTokens w tokens in
  let* client := new_GmailClient w resolved in
  untrashMessage w client me messageId.

Definition listThreads (w : World) (tokens options : value) : M value :=
  let* resolved := resolveTokens w tokens in
  let* client := new_GmailClient w resolved in
  listThreads w client me options.

Definition getThread (w : World) (threadId tokens format : value) : M value :=
  let* resolved := resolveTokens w tokens in
  let* client := new_GmailClient w resolved in
  getThread w client me threadId format.

End Exported.

(** ** The MCP server: input schemas and the tool registry *)
Module Registry.

(** [{ type, description }] *)
Definition described (type description : string) : value :=
  VObj [("type", VStr type); ("description", VStr description)].

(** [{ type: 'array', items: { type: 'string' }, description }] *)
Definition string_array (description : string) : value :=
  VObj [("type", VStr "array");
        ("items", VObj [("type", VStr "string")]);
        ("description", VStr description)].

(** [{ ...base, description }] *)
Definition spread_described (base : value) (description : string) : value :=
  match base with
  | VObj fields => VObj (Obj.set "description" (VStr description) fields)
  | _ => VObj [("description", VStr description)]
  end.

Definition tokensSchema : value :=
  VObj [("type", VStr "object");
        ("properties",
         VObj [("accessToken", VObj [("type", VStr "string")]);
               ("refreshToken", VObj [("type", VStr "string")]);
               ("expiryDate", VObj [("type", VStr "number")]);
               ("tokenType", VObj [("type", VStr "string")])])].

Definition tokens_property : string * value :=
  ("tokens", spread_described tokensSchema "Gmail authentication tokens").

Definition recipients_property : string * value :=
  ("to", VObj [("oneOf", VArr [VObj [("type", VStr "string")];
                               VObj [("type", VStr "array");
                                     ("items", VObj [("type", VStr "string")])]]);
               ("description", VStr "Recipient(s)")]).

Definition format_property (formats : list string) (description : string)
  : string * value :=
  ("format", VObj [("type", VStr "string");
                   ("enum", VArr (map VStr formats));
                   ("description", VStr description)]).

Definition object_schema (properties : list (string * value))
    (required : list string) : value :=
  match required with
  | [] => VObj [("type", VStr "object"); ("properties", VObj properties)]
  | _ => VObj [("type", VStr "object"); ("properties", VObj properties);
               ("required", VArr (map VStr required))]
  end.

Definition ListMessagesInputSchema : value :=
  object_schema
    [("q", described "string" "Gmail search query");
     ("maxResults", described "number" "Max results to return");
     ("pageToken", described "string" "Pagination token");
     ("includeSpamTrash", described "boolean" "Include spam and trash");
     ("labelIds", string_array "Label IDs to filter by");
     tokens_property] [].

Definition GetMessageInputSchema : value :=
  object_schema
    [("messageId", described "string" "The message ID");
     format_property ["full"; "minimal"; "raw"; "metadata"] "Message format";
     tokens_property] ["messageId"].

Definition SearchMessagesInputSchema : value :=
  object_schema
    [("query", described "string" "Gmail search query");
     ("maxResults", described "number" "Max results to return");
     ("pageToken", described "string" "Pagination token");
     ("labelIds", string_array "Label IDs to filter by");
     tokens_property] ["query"].

Definition SendMessageInputSchema : value :=
  object_schema
    [recipients_property;
     ("subject", described "string" "Email subject");
     ("body", described "string" "Email body");
     ("html", described "boolean" "Whether body is HTML");
     ("threadId", described "string" "Reply to thread ID");
     ("inReplyTo", described "string" "In-Reply-To message ID");
     tokens_property] ["to"].

Definition CreateDraftInputSchema : value :=
  object_schema
    [recipients_property;
     ("subject", described "string" "Email subject");
     ("body", described "string" "Email body");
     ("html", described "boolean" "Whether body is HTML");
     ("threadId", described "string" "Reply to thread ID");
     tokens_property] ["to"].

Definition ListLabelsInputSchema : value := object_schema [tokens_property] [].

Definition ModifyLabelsInputSchema : value :=
  object_schema
    [("messageId", described "string" "The message ID");
     ("addLabelIds", string_array "Labels to add");
     ("removeLabelIds", string_array "Labels to remove");
     tokens_property] ["messageId"].

Definition TrashMessageInputSchema : value :=
  object_schema
    [("messageId", described "string" "The message ID"); tokens_property]
    ["messageId"].

Definition UntrashMessageInputSchema : value :=
  object_schema
    [("messageId", described "string" "The message ID"); tokens_property]
    ["messageId"].

Definition ListThreadsInputSchema : value :=
  object_schema
    [("q", described "string" "Gmail search query");
     ("maxResults", described "number" "Max results to return");
     ("pageToken", described "string" "Pagination token");
     ("labelIds", string_array "Label IDs to filter by");
     tokens_property] [].

Definition GetThreadInputSchema : value :=
  object_schema
    [("threadId", described "string" "The thread ID");
     format_property ["full"; "minimal"; "metadata"] "Thread format";
     tokens_property] ["threadId"].

Record Tool := {
  name : string;
  description : string;
  inputSchema : value
}.

Definition tools : list Tool :=
  [{| name := "gmailListMessages";
      description := "List messages in the mailbox";
      inputSchema := ListMessagesInputSchema |};
   {| name := "gmailGetMessage";
      description := "Get a specific message by ID";
      inputSchema := GetMessageInputSchema |};
   {| name := "gmailSearchMessages";
      description := "Search for messages using Gmail search syntax";
      inputSchema := SearchMessagesInputSchema |};
   {| name := "gmailSendMessage";
      description := "Send an email message";
      inputSchema := SendMessageInputSchema |};
   {| name := "gmailCreateDraft";
      description := "Create a draft email message";
      inputSchema := CreateDraftInputSchema |};
   {| name := "gmailListLabels";
      description := "List all labels in the mailbox";
      inputSchema := ListLabelsInputSchema |};
   {| name := "gmailModifyMessageLabels";
      description := "Add or remove labels from a message";
      inputSchema := ModifyLabelsInputSchema |};
   {| name := "gmailTrashMessage";
      description := "Move a message to trash";
      inputSchema := TrashMessageInputSchema |};
   {| name := "gmailUntrashMessage";
      description := "Restore a message from trash";
      inputSchema := UntrashMessageInputSchema |};
   {| name := "gmailListThreads";
      description := "List threads in the mailbox";
      inputSchema := ListThreadsInputSchema |};
   {| name := "gmailGetThread";
      description := "Get a specific thread by ID";
      inputSchema := GetThreadInputSchema |}].

(** The names of the properties a schema declares, and of those it
    requires. *)
Definition declared (schema : value) : list string :=
  match prop schema "properties" with
  | VObj properties => map fst properties
  | _ => []
  end.

Definition required (schema : value) : list string :=
  match prop schema "required" with
  | VArr names => map ToString names
  | _ => []
  end.

End Registry.

(** ** Vocabulary of the further properties *)

(** The SDK method a facade call uses, and the mailbox it names. *)
Definition method_of (op : operation) : api_method :=
  match op with
  | ListMessages _ _ | SearchMessages _ _ _ => messages_list
  | GetMessage _ _ _ => messages_get
  | SendMessage _ _ => messages_send
  | CreateDraft _ _ => drafts_create
  | ListLabels _ => labels_list
  | ModifyMessageLabels _ _ _ => messages_modify
  | TrashMessage _ _ => messages_trash
  | UntrashMessage _ _ => messages_untrash
  | ListThreads _ _ => threads_list
  | GetThread _ _ _ => threads_get
  end.

Definition mailbox_of (op : operation) : value :=
  match op with
  | ListMessages userId _ | GetMessage userId _ _ | SearchMessages userId _ _
  | SendMessage userId _ | CreateDraft userId _ | ListLabels userId
  | ModifyMessageLabels userId _ _ | TrashMessage userId _
  | UntrashMessage userId _ | ListThreads userId _ | GetThread userId _ _ =>
      default_param userId me
  end.

(** The methods that hand back [response.data] as it is. *)
Definition relays_data (op : operation) : Prop :=
  match op with
  | ListMessages _ _ | SearchMessages _ _ _ | ListLabels _ | ListThreads _ _ =>
      False
  | _ => True
  end.

(** The options argument is [undefined] or [null] where the method reads it
    without optional chaining. *)
Definition options_missing (op : operation) : Prop :=
  match op with
  | SendMessage _ options | CreateDraft _ options
  | ModifyMessageLabels _ _ options => nullish options = true
  | _ => False
  end.

(** A computation that does nothing to the outside. *)
Definition silent {A} (m : M A) : Prop := forall tr, snd (m tr) = tr.

(** A computation that either fails before doing anything, or makes exactly
    one call of the given SDK method for the given mailbox and nothing
    else. *)
Definition one_call {A} (method : api_method) (mailbox : value) (m : M A)
  : Prop :=
  forall tr,
    (exists error, m tr = (Throw error, tr))
    \/ (exists params outcome,
           m tr = (outcome, tr ++ [ApiCall method params])
           /\ prop params "userId" = mailbox).

(** The events of credential resolution, in the order they can happen. *)
Definition resolution_events (w : World) : list event :=
  [EnvRead "GMAIL_TOKEN"; EnvRead "GMAIL_TOKEN_FILE";
   ExistsSync (tokenPath w); ReadFileSync (tokenPath w)].

(** Two worlds agree on what credential resolution looks at. *)
Definition same_sources (w1 w2 : World) : Prop :=
  process_env w1 !! "GMAIL_TOKEN" = process_env w2 !! "GMAIL_TOKEN"
  /\ process_env w1 !! "GMAIL_TOKEN_FILE" = process_env w2 !! "GMAIL_TOKEN_FILE"
  /\ tokenPath w1 = tokenPath w2
  /\ fs w1 !! tokenPath w1 = fs w2 !! tokenPath w2.

(** The three OAuth settings the constructor reads. *)
Definition oauth_reads : list event :=
  [EnvRead "GOOGLE_CLIENT_ID"; EnvRead "GOOGLE_CLIENT_SECRET";
   EnvRead "GOOGLE_REDIRECT_URL"].

Definition default_redirect : value := VStr "http://localhost:3000/callback".

(** The eight property names the constructor reads from a bundle. *)
Definition token_names : list string :=
  ["access_token"; "accessToken"; "refresh_token"; "refreshToken";
   "expiry_date"; "expiryDate"; "token_type"; "tokenType"].

(** What [createDraft] hands to the SDK. *)
Definition draft_request (userId : value) (options : list (string * value))
  : value :=
  VObj [("userId", default_param userId me);
        ("requestBody",
         VObj [("message",
                VObj [("raw", VStr (Base64.encode
                                      (envelope (headers_of options)
                                                (body_of options))));
                      ("threadId", prop (VObj options) "threadId")])])].

(** A call of one exported function, and the facade call it makes. *)
Inductive exported_call :=
| XListMessages (userId options tokens : value)
| XGetMessage (messageId tokens format : value)
| XSearchMessages (query tokens options : value)
| XSendMessage (options tokens : value)
| XCreateDraft (options tokens : value)
| XListLabels (tokens : value)
| XModifyMessageLabels (messageId options tokens : value)
| XTrashMessage (messageId tokens : value)
| XUntrashMessage (messageId tokens : value)
| XListThreads (tokens options : value)
| XGetThread (threadId tokens format : value).

Definition run_exported (w : World) (call : exported_call) : M value :=
  match call with
  | XListMessages userId options tokens =>
      Exported.listMessages w userId options tokens
  | XGetMessage messageId tokens format =>
      Exported.getMessage w messageId tokens format
  | XSearchMessages query tokens options =>
      Exported.searchMessages w query tokens options
  | XSendMessage options tokens => Exported.sendMessage w options tokens
  | XCreateDraft options tokens => Exported.createDraft w options tokens
  | XListLabels tokens => Exported.listLabels w tokens
  | XModifyMessageLabels messageId options tokens =>
      Exported.modifyMessageLabels w messageId options tokens
  | XTrashMessage messageId tokens => Exported.trashMessage w messageId tokens
  | XUntrashMessage messageId tokens =>
      Exported.untrashMessage w messageId tokens
  | XListThreads tokens options => Exported.listThreads w tokens options
  | XGetThread threadId tokens format =>
      Exported.getThread w threadId tokens format
  end.

Definition tokens_argument (call : exported_call) : value :=
  match call with
  | XListMessages _ _ tokens | XGetMessage _ tokens _
  | XSearchMessages _ tokens _ | XSendMessage _ tokens | XCreateDraft _ tokens
  | XListLabels tokens | XModifyMessageLabels _ _ tokens
  | XTrashMessage _ tokens | XUntrashMessage _ tokens | XListThreads tokens _
  | XGetThread _ tokens _ => tokens
  end.

Definition facade_call (call : exported_call) : operation :=
  match call with
  | XListMessages userId options _ => ListMessages userId options
  | XGetMessage messageId _ format => GetMessage me messageId format
  | XSearchMessages query _ options => SearchMessages me query options
  | XSendMessage options _ => SendMessage me options
  | XCreateDraft options _ => CreateDraft me options
  | XListLabels _ => ListLabels VUndefined
  | XModifyMessageLabels messageId options _ =>
      ModifyMessageLabels me messageId options
  | XTrashMessage messageId _ => TrashMessage me messageId
  | XUntrashMessage messageId _ => UntrashMessage me messageId
  | XListThreads _ options => ListThreads me options
  | XGetThread threadId _ format => GetThread me threadId format
  end.

(** An event is a call of the SDK for the mailbox [me]. *)
Definition about_me (e : event) : Prop :=
  match e with
  | ApiCall _ params => prop params "userId" = VStr "me"
  | _ => True
  end.

(** How many of the [resolution_events] a run of [resolveTokens] performs. *)
Definition reads_needed (w : World) (provided : value) : nat :=
  if truthy provided then 0%nat
  else if truthy (env_value w "GMAIL_TOKEN") then 1%nat
  else match fs w !! tokenPath w with
       | None => 3%nat
       | Some _ => 4%nat
       end.

(** A JSON value that is neither an object nor [null]. *)
Definition not_an_object (v : value) : bool :=
  match v with
  | VBool _ | VNum _ | VStr _ | VArr _ => true
  | _ => false
  end.

Definition no_credentials : value :=
  VObj [("access_token", VUndefined); ("refresh_token", VUndefined);
        ("expiry_date", VUndefined); ("token_type", VUndefined)].

(** Worlds of the examples: other variables and files next to the sources
    of [world_file_only], and a [GMAIL_TOKEN] that is JSON but no object. *)
Definition world_file_and_more : World :=
  {| process_env := {[ "GMAIL_TOKEN_FILE" := "/custom/path/token.json";
                       "HOME" := "/home/me" ]};
     path_resolve := resolve_from "/srv/app";
     fs := {[ "/custom/path/token.json" := Readable file_bundle_text;
              "/srv/app/token.json" := Unreadable ]};
     gmail_api := answering (Return VNull) |}.

Definition world_null_token : World :=
  world {[ "GMAIL_TOKEN" := "null" ]} ∅ no_remote.

Definition world_number_token : World :=
  world {[ "GMAIL_TOKEN" := "42" ]} ∅ no_remote.

Definition world_redirect : World :=
  world {[ "GOOGLE_REDIRECT_URL" := "https://app.example/cb" ]} ∅ no_remote.

(** The names the registry announces. *)
Definition tool_names : list string := map Registry.name Registry.tools.

(** An event that is a call of the SDK names the given mailbox. *)
Definition about (mailbox : value) (e : event) : Prop :=
  match e with
  | ApiCall _ params => prop params "userId" = mailbox
  | _ => True
  end.

Definition draft_options : list (string * value) :=
  [("to", VArr [VStr "a@x.org"; VStr "b@x.org"]);
   ("subject", VStr EmptyString);
   ("body", VStr "line one"); ("threadId", VStr "t1")].

(** Events that only read the environment or the file system. *)
Definition is_read (e : event) : Prop :=
  match e with
  | EnvRead _ | ExistsSync _ | ReadFileSync _ => True
  | _ => False
  end.

Definition is_api (e : event) : bool :=
  match e with ApiCall _ _ => true | _ => false end.

(** The number of SDK calls among some events. *)
Definition api_count (events : list event) : nat :=
  length (List.filter is_api events).

(** A computation that only reads. *)
Definition reads_only {A} (m : M A) : Prop :=
  forall tr, exists events, snd (m tr) = tr ++ events /\ Forall is_read events.

(** Some events make at most [n] SDK calls, all for the given mailbox. *)
Definition calls_at_most (n : nat) (mailbox : value) (events : list event)
  : Prop :=
  Forall (about mailbox) events /\ (api_count events <= n)%nat.

(** The mailbox an exported function works on: the caller's for
    [listMessages], [me] for the others. *)
Definition exported_mailbox (call : exported_call) : value :=
  match call with
  | XListMessages userId _ _ => default_param userId me
  | _ => VStr "me"
  end.

(** Arguments of a search and of the listing it amounts to. *)
Definition search_arguments : list (string * value) :=
  [("query", VStr "is:unread"); ("maxResults", int 5);
   ("includeSpamTrash", VBool true)].

Definition list_arguments : list (string * value) :=
  [("q", VStr "is:unread"); ("maxResults", int 5)].

(** * Properties *)

(** ** The runtime's functions on examples *)

Example ToString_int : ToString (int 1234567890) = "1234567890".
Proof. reflexivity. Qed.

Example ToString_fraction : ToString (VNum (Num (-1250) (-3))) = "-1.25".
Proof. reflexivity. Qed.

(** Number::toString keeps the zeros after the decimal point, and changes
    to exponent notation below [1e-6] and from [1e21] on. *)
Example ToString_notation :
  map Number_toString
    [Num 5 (-3); Num 1005 (-3); Num 1 (-6); Num 15 (-7); Num 1 (-7);
     Num 123 (-9); Num 1 20; Num 1 21; Num 12 22; Num (-25) (-1); Num 0 3]
  = ["0.005"; "1.005"; "0.000001"; "0.0000015"; "1e-7";
     "1.23e-7"; "100000000000000000000"; "1e+21"; "1.2e+23"; "-2.5"; "0"].
Proof. vm_compute. reflexivity. Qed.

(** A literal is a binary64 value: it is printed as the shortest decimal
    that rounds to it, beyond 2^53 not every integer exists, a literal too
    small is zero and one too large is infinite. *)
Example ToString_binary64 :
  map Number_toString
    [Num 1 (-1); Num 30000000000000004 (-17); Num 9007199254740993 0;
     Num 9999999999999999 0; Num 123456789012345678901234567890 0;
     Num 5 (-324); Num 2 (-324); Num (-1) (-400); Num 1 400; Num (-1) 400;
     Num 17976931348623157 292; Num 17976931348623159 292; NaN]
  = ["0.1"; "0.30000000000000004"; "9007199254740992";
     "10000000000000000"; "1.2345678901234568e+29";
     "5e-324"; "0"; "0"; "Infinity"; "-Infinity";
     "1.7976931348623157e+308"; "Infinity"; "NaN"].
Proof. vm_compute. reflexivity. Qed.

Example truthy_numbers :
  map (fun n => truthy (VNum n))
    [Num 0 0; Num 0 7; Num 1 0; Num (-5) (-324); Num 1 (-400); Num 1 400; NaN]
  = [false; false; true; true; false; true; false].
Proof. vm_compute. reflexivity. Qed.

Example join_recipients :
  join "," [VStr "a@x.org"; VStr "b@x.org"; VStr "c@x.org"]
  = "a@x.org,b@x.org,c@x.org".
Proof. reflexivity. Qed.

Example JSON_parse_bundle :
  JSON_parse (object_text [member "access_token" (quoted "file-token");
                           member "expiry_date" " 1234567890 "])
  = Some (VObj [("access_token", VStr "file-token");
                ("expiry_date", int 1234567890)]).
Proof. reflexivity. Qed.

Example JSON_parse_numbers :
  JSON_parse "[0, -12, 2.50, -3e2, 1E-2]"
  = Some (VArr [int 0; int (-12); VNum (Num 25 (-1)); int (-300);
                VNum (Num 1 (-2))]).
Proof. reflexivity. Qed.

(** [JSON.parse] rounds a literal to binary64. *)
Example JSON_parse_binary64 :
  JSON_parse "[9007199254740993, 0.1e1, 1e-400, -0, 1e400, 1e23, 0.005]"
  = Some (VArr [int 9007199254740992; int 1; int 0; int 0;
                VNum (Infinity false); int (10 ^ 23); VNum (Num 5 (-3))]).
Proof. vm_compute. reflexivity. Qed.

Example JSON_parse_duplicate_key :
  JSON_parse (object_text [member "a" "1"; member "b" "true"; member "a" "null"])
  = Some (VObj [("a", VNull); ("b", VBool true)]).
Proof. reflexivity. Qed.

Example JSON_parse_escapes :
  JSON_parse (quoted "a\nb\u0041\ud83d\ude00")
  = Some (VStr ("a" +:+ String "010"%char "bA"
                +:+ String "240"%char (String "159"%char
                      (String "152"%char (String "128"%char EmptyString))))).
Proof. reflexivity. Qed.

Example JSON_parse_rejects :
  map JSON_parse ["invalid-json{"; EmptyString; "01"; "[1,]"; "1."; "-"; "nul"; "{} x";
                  object_text [quoted "a" +:+ " 1"]; quoted "\x"]
  = [None; None; None; None; None; None; None; None; None; None].
Proof. reflexivity. Qed.

Example JSON_parse_nested :
  JSON_parse "[[[[[[[[ [], {} ]]]]]]]]"
  = Some (VArr [VArr [VArr [VArr [VArr [VArr [VArr [VArr [VArr []; VObj []]]]]]]]]).
Proof. reflexivity. Qed.

(** The empty string is not JSON. *)
Lemma JSON_parse_empty : JSON_parse EmptyString = None.
Proof. reflexivity. Qed.

(** ** The fuel of the parser *)

Section Fuel.
Import Json.
Local Open Scope nat_scope.

Lemma skip_ws_length s : String.length (skip_ws s) <= String.length s.
Proof.
  induction s as [| c s IH]; [reflexivity |].
  cbn [skip_ws]. destruct (is_ws c); cbn [String.length]; lia.
Qed.

Lemma after_length c s r :
  after c s = Some r -> String.length s = S (String.length r).
Proof.
  destruct s as [| c' s]; [discriminate |]. cbn [after].
  destruct (Ascii.eqb c' c); [| discriminate]. now intros [= ->].
Qed.

Lemma expect_length lit s r :
  expect lit s = Some r -> String.length r <= String.length s.
Proof.
  revert s. induction lit as [| a lit IH]; intros s.
  - now intros [= ->].
  - destruct s as [| b s]; [discriminate |]. cbn [expect].
    destruct (Ascii.eqb a b); [| discriminate].
    intros H. apply IH in H. cbn [String.length]. lia.
Qed.

Lemma digits_length s acc count :
  String.length (snd (digits s acc count)) <= String.length s.
Proof.
  revert acc count. induction s as [| c s IH]; intros acc count; [reflexivity |].
  cbn [digits]. destruct (is_digit c); [| reflexivity].
  specialize (IH (10 * acc + (code c - 48))%Z (count + 1)%Z).
  cbn [String.length]. lia.
Qed.

Lemma parse_exponent_length m e s n r :
  parse_exponent m e s = Some (n, r) -> String.length r <= String.length s.
Proof.
  unfold parse_exponent. destruct s as [| x s']; [now intros [= _ <-] |].
  destruct (Ascii.eqb x "e" || Ascii.eqb x "E")%bool; [| now intros [= _ <-]].
  assert (Hsign : forall b r1,
             (match after "-"%char s' with
              | Some r' => (true, r')
              | None => (false, default s' (after "+"%char s'))
              end) = (b, r1) -> String.length r1 <= String.length s').
  { intros b r1. destruct (after "-"%char s') as [r' |] eqn:Hminus.
    - intros [= _ <-]. apply after_length in Hminus. lia.
    - destruct (after "+"%char s') as [r' |] eqn:Hplus; intros [= _ <-].
      + apply after_length in Hplus. cbn. lia.
      + reflexivity. }
  destruct (match after "-"%char s' with
            | Some r' => (true, r')
            | None => (false, default s' (after "+"%char s'))
            end) as [eneg r1] eqn:Hsr.
  specialize (Hsign eneg r1 eq_refl).
  pose proof (digits_length r1 0%Z 0%Z) as Hd.
  destruct (digits r1 0 0) as [[ev cnt] r2]. cbn [snd] in Hd.
  destruct (cnt =? 0)%Z; [discriminate |].
  intros [= _ <-]. cbn [String.length]. lia.
Qed.

Lemma parse_number_length s n r :
  parse_number s = Some (n, r) -> String.length r < String.length s.
Proof.
  unfold parse_number.
  destruct (match after "-"%char s with
            | Some rest => (true, rest)
            | None => (false, s)
            end) as [neg s1] eqn:Hneg.
  assert (Hs1 : String.length s1 <= String.length s).
  { destruct (after "-"%char s) as [rest |] eqn:Hminus;
      injection Hneg as _ <-; [apply after_length in Hminus; lia | reflexivity]. }
  destruct s1 as [| c rest]; [discriminate |].
  destruct (is_digit c) eqn:Hc; [| discriminate].
  destruct (if Ascii.eqb c "0"%char then (0%Z, rest)
            else let '(v, _, r) := digits (String c rest) 0 0 in (v, r))
    as [ipart s2] eqn:Hint.
  assert (Hs2 : String.length s2 <= String.length rest).
  { destruct (Ascii.eqb c "0"%char); [injection Hint as _ <-; reflexivity |].
    cbn [digits] in Hint. rewrite Hc in Hint.
    pose proof (digits_length rest (10 * 0 + (code c - 48))%Z (0 + 1)%Z) as Hd.
    destruct (digits rest (10 * 0 + (code c - 48)) (0 + 1)) as [[v cnt] r0].
    injection Hint as _ <-. exact Hd. }
  cbn [String.length] in Hs1.
  destruct (after "."%char s2) as [r0 |] eqn:Hdot.
  - apply after_length in Hdot.
    pose proof (digits_length r0 ipart 0%Z) as Hd.
    destruct (digits r0 ipart 0) as [[v cnt] r'].
    cbn [snd] in Hd.
    destruct (cnt =? 0)%Z; [discriminate |].
    intros H. apply parse_exponent_length in H. lia.
  - intros H. apply parse_exponent_length in H. lia.
Qed.

Lemma hex4_length s v r :
  hex4 s = Some (v, r) -> String.length s = 4 + String.length r.
Proof.
  destruct s as [| a [| b [| c [| d rest]]]]; try discriminate.
  cbn [hex4].
  destruct (hex_val a), (hex_val b), (hex_val c), (hex_val d); try discriminate.
  now intros [= _ <-].
Qed.

Lemma surrogate_pair_length hi s cp r :
  surrogate_pair hi s = Some (cp, r) -> String.length r < String.length s.
Proof.
  unfold surrogate_pair.
  destruct ((55296 <=? hi)%Z && (hi <=? 56319)%Z)%bool; [| discriminate].
  destruct (after "\"%char s) as [s1 |] eqn:H1; [| discriminate].
  destruct (after "u"%char s1) as [s2 |] eqn:H2; [| discriminate].
  destruct (hex4 s2) as [[lo s3] |] eqn:H3; [| discriminate].
  destruct ((56320 <=? lo)%Z && (lo <=? 57343)%Z)%bool; [| discriminate].
  intros [= _ <-].
  apply after_length in H1. apply after_length in H2. apply hex4_length in H3.
  lia.
Qed.

(** A string literal is read with as little fuel as it has characters, and
    more fuel changes nothing. *)
Lemma parse_chars_fuel n :
  forall s t r,
    parse_chars n s = Some (t, r) ->
    String.length r < String.length s
    /\ forall m, String.length s - String.length r <= m ->
                 parse_chars m s = Some (t, r).
Proof.
  induction n as [| n IH]; intros s t r; [discriminate |].
  destruct s as [| c rest]; [discriminate |].
  cbn [parse_chars String.length].
  destruct (Ascii.eqb c "034"%char) eqn:Hq.
  { intros [= <- <-]. split; [lia |].
    intros [| m] Hm; [lia |]. cbn [parse_chars]. now rewrite Hq. }
  destruct (Ascii.eqb c "\"%char) eqn:Hb.
  - destruct rest as [| e rest']; [discriminate |].
    cbn [String.length].
    destruct (Ascii.eqb e "u"%char) eqn:Hu.
    + destruct (hex4 rest') as [[hi r1] |] eqn:Hhex; [| discriminate].
      destruct (default (hi, r1) (surrogate_pair hi r1)) as [cp r0] eqn:Hpair.
      assert (Hr0 : String.length r0 <= String.length r1).
      { destruct (surrogate_pair hi r1) as [[cp' r0'] |] eqn:Hsp; cbn in Hpair;
          injection Hpair as _ <-;
          [apply surrogate_pair_length in Hsp; lia | reflexivity]. }
      pose proof (hex4_length _ _ _ Hhex) as Hlen4.
      destruct (parse_chars n r0) as [[t0 r'] |] eqn:Hrec; [| discriminate].
      intros [= <- <-]. destruct (IH _ _ _ Hrec) as [Hlen Hfuel].
      split; [lia |].
      intros [| m] Hm; [lia |]. cbn [parse_chars]. rewrite Hq, Hb, Hu, Hhex.
      rewrite Hpair. rewrite (Hfuel m) by lia. reflexivity.
    + destruct (unescape e) as [x |] eqn:Hx; [| discriminate].
      destruct (parse_chars n rest') as [[t0 r'] |] eqn:Hrec; [| discriminate].
      intros [= <- <-]. destruct (IH _ _ _ Hrec) as [Hlen Hfuel].
      split; [lia |].
      intros [| m] Hm; [lia |]. cbn [parse_chars]. rewrite Hq, Hb, Hu, Hx.
      rewrite (Hfuel m) by lia. reflexivity.
  - destruct (code c <? 32)%Z eqn:Hctl; [discriminate |].
    destruct (parse_chars n rest) as [[t0 r'] |] eqn:Hrec; [| discriminate].
    intros [= <- <-]. destruct (IH _ _ _ Hrec) as [Hlen Hfuel].
    split; [lia |].
    intros [| m] Hm; [lia |]. cbn [parse_chars]. rewrite Hq, Hb, Hctl.
    rewrite (Hfuel m) by lia. reflexivity.
Qed.

Lemma parse_string_length s t r :
  parse_string s = Some (t, r) -> String.length r < String.length s.
Proof. intros H. now apply parse_chars_fuel in H. Qed.


Lemma value_fuel_step n :
  elements_fuel n -> members_fuel n -> value_fuel (S n).
Proof.
  intros IHe IHm s v r.
  destruct s as [| c rest]; [discriminate |].
  cbn [parse_value String.length].
  pose proof (skip_ws_length rest) as Hws.
  destruct (classify c) eqn:Hc.
  - (* object *)
    destruct (after "}"%char (skip_ws rest)) as [r0 |] eqn:Hclose.
    + intros [= <- <-]. pose proof (after_length _ _ _ Hclose).
      split; [lia |].
      intros [| m] Hm; [lia |]. cbn [parse_value]. now rewrite Hc, Hclose.
    + intros H. destruct (IHm _ _ _ _ H) as [Hlen Hfuel].
      split; [lia |].
      intros [| m] Hm; [lia |]. cbn [parse_value]. rewrite Hc, Hclose.
      apply Hfuel. lia.
  - (* array *)
    destruct (after "]"%char (skip_ws rest)) as [r0 |] eqn:Hclose.
    + intros [= <- <-]. pose proof (after_length _ _ _ Hclose).
      split; [lia |].
      intros [| m] Hm; [lia |]. cbn [parse_value]. now rewrite Hc, Hclose.
    + intros H. destruct (IHe _ _ _ _ H) as [Hlen Hfuel].
      split; [lia |].
      intros [| m] Hm; [lia |]. cbn [parse_value]. rewrite Hc, Hclose.
      apply Hfuel. lia.
  - (* string *)
    destruct (parse_string rest) as [[t r0] |] eqn:Hstr; [| discriminate].
    intros [= <- <-]. pose proof (parse_string_length _ _ _ Hstr).
    split; [lia |].
    intros [| m] Hm; [lia |]. cbn [parse_value]. now rewrite Hc, Hstr.
  - destruct (expect "rue" rest) as [r0 |] eqn:Hlit; [| discriminate].
    intros [= <- <-]. pose proof (expect_length _ _ _ Hlit).
    split; [lia |].
    intros [| m] Hm; [lia |]. cbn [parse_value]. now rewrite Hc, Hlit.
  - destruct (expect "alse" rest) as [r0 |] eqn:Hlit; [| discriminate].
    intros [= <- <-]. pose proof (expect_length _ _ _ Hlit).
    split; [lia |].
    intros [| m] Hm; [lia |]. cbn [parse_value]. now rewrite Hc, Hlit.
  - destruct (expect "ull" rest) as [r0 |] eqn:Hlit; [| discriminate].
    intros [= <- <-]. pose proof (expect_length _ _ _ Hlit).
    split; [lia |].
    intros [| m] Hm; [lia |]. cbn [parse_value]. now rewrite Hc, Hlit.
  - destruct (parse_number (String c rest)) as [[k r0] |] eqn:Hnum;
      [| discriminate].
    intros [= <- <-]. pose proof (parse_number_length _ _ _ Hnum) as Hlen.
    cbn [String.length] in Hlen.
    split; [lia |].
    intros [| m] Hm; [lia |]. cbn [parse_value]. now rewrite Hc, Hnum.
Qed.

Lemma elements_fuel_step n :
  value_fuel n -> elements_fuel n -> elements_fuel (S n).
Proof.
  intros IHv IHe s acc v r.
  cbn [parse_elements].
  destruct (parse_value n s) as [[v0 r0] |] eqn:Hv; [| discriminate].
  destruct (IHv _ _ _ Hv) as [Hlen0 Hfuel0].
  pose proof (skip_ws_length r0) as Hws.
  destruct (after ","%char (skip_ws r0)) as [r1 |] eqn:Hcomma.
  - pose proof (after_length _ _ _ Hcomma).
    pose proof (skip_ws_length r1).
    intros H'. destruct (IHe _ _ _ _ H') as [Hlen Hfuel].
    split; [lia |].
    intros [| m] Hm; [lia |]. cbn [parse_elements].
    rewrite (Hfuel0 m) by lia. rewrite Hcomma. apply Hfuel. lia.
  - destruct (after "]"%char (skip_ws r0)) as [r1 |] eqn:Hclose; [| discriminate].
    pose proof (after_length _ _ _ Hclose).
    intros [= <- <-].
    split; [lia |].
    intros [| m] Hm; [lia |]. cbn [parse_elements].
    rewrite (Hfuel0 m) by lia. now rewrite Hcomma, Hclose.
Qed.

Lemma members_fuel_step n :
  value_fuel n -> members_fuel n -> members_fuel (S n).
Proof.
  intros IHv IHm s acc v r.
  cbn [parse_members].
  destruct (after "034"%char s) as [s0 |] eqn:Hquote; [| discriminate].
  pose proof (after_length _ _ _ Hquote).
  destruct (parse_string s0) as [[k s1] |] eqn:Hkey; [| discriminate].
  pose proof (parse_string_length _ _ _ Hkey).
  pose proof (skip_ws_length s1).
  destruct (after ":"%char (skip_ws s1)) as [s2 |] eqn:Hcolon; [| discriminate].
  pose proof (after_length _ _ _ Hcolon).
  pose proof (skip_ws_length s2).
  destruct (parse_value n (skip_ws s2)) as [[v0 r0] |] eqn:Hv; [| discriminate].
  destruct (IHv _ _ _ Hv) as [Hlen0 Hfuel0].
  pose proof (skip_ws_length r0) as Hws.
  destruct (after ","%char (skip_ws r0)) as [r1 |] eqn:Hcomma.
  - pose proof (after_length _ _ _ Hcomma).
    pose proof (skip_ws_length r1).
    intros H'. destruct (IHm _ _ _ _ H') as [Hlen Hfuel].
    split; [lia |].
    intros [| m] Hm; [lia |]. cbn [parse_members].
    rewrite Hquote, Hkey, Hcolon.
    rewrite (Hfuel0 m) by lia. rewrite Hcomma. apply Hfuel. lia.
  - destruct (after "}"%char (skip_ws r0)) as [r1 |] eqn:Hclose; [| discriminate].
    pose proof (after_length _ _ _ Hclose).
    intros [= <- <-].
    split; [lia |].
    intros [| m] Hm; [lia |]. cbn [parse_members].
    rewrite Hquote, Hkey, Hcolon.
    rewrite (Hfuel0 m) by lia. now rewrite Hcomma, Hclose.
Qed.

Lemma parser_fuel n : value_fuel n /\ elements_fuel n /\ members_fuel n.
Proof.
  induction n as [| n (IHv & IHe & IHm)].
  - unfold value_fuel, elements_fuel, members_fuel.
    repeat split; intros; discriminate.
  - split; [now apply value_fuel_step |].
    split; [now apply elements_fuel_step | now apply members_fuel_step].
Qed.

(** The fuel [parse] gives is enough: a text that parses with any fuel at
    all parses, to the same value, with the fuel of [parse]. *)
Theorem parse_fuel_enough n s v :
  parse_with n s = Some v -> parse s = Some v.
Proof.
  unfold parse, parse_with.
  destruct (parse_value n (skip_ws s)) as [[v0 r] |] eqn:Hv; [| discriminate].
  destruct (proj1 (parser_fuel n) _ _ _ Hv) as [Hlen Hfuel].
  pose proof (skip_ws_length s).
  rewrite (Hfuel (2 * String.length s + 2)) by lia.
  trivial.
Qed.

(** A string literal read with any fuel is read by [parse_string]. *)
Theorem parse_string_fuel_enough n s t r :
  parse_chars n s = Some (t, r) -> parse_string s = Some (t, r).
Proof.
  intros H. destruct (parse_chars_fuel n _ _ _ H) as [Hlen Hfuel].
  apply Hfuel. lia.
Qed.

End Fuel.

(** ** The runtime's functions on examples, continued *)

Example JSON_stringify_labels :
  JSON_stringify (VArr [VObj [("id", VStr "INBOX"); ("name", VStr "INBOX");
                              ("type", VUndefined)]; VUndefined])
  = VStr ("[" +:+ object_text [member "id" (quoted "INBOX");
                               member "name" (quoted "INBOX")] +:+ ",null]").
Proof. reflexivity. Qed.

(** Properties named by an array index come first, in ascending order;
    numbers print as Number::toString has them, those not finite as
    [null]. *)
Example JSON_stringify_order :
  JSON_stringify
    (VObj [("id", VStr "m1"); ("10", int 1); ("score", VNum (Num 5 (-3)));
           ("2", VNum (Infinity false)); ("02", VNull); ("size", int (10 ^ 21))])
  = VStr (object_text [member "2" "null"; member "10" "1";
                       member "id" (quoted "m1"); member "score" "0.005";
                       member "02" "null"; member "size" "1e+21"]).
Proof. vm_compute. reflexivity. Qed.

(** What [JSON.stringify] writes, [JSON.parse] reads back. *)
Example JSON_parse_stringify :
  let v :=
    VArr [VObj [("id", VStr "18c"); ("snippet", VStr ("a" +:+ CRLF +:+ ""));
                ("sizeEstimate", int 4521);
                ("labelIds", VArr [VStr "INBOX"; VStr "UNREAD"]);
                ("payload", VObj [("headers", VArr []); ("body", VNull)])];
          VNum (Num (-15) (-1)); VBool false] in
  match JSON_stringify v with
  | VStr text => JSON_parse text
  | _ => None
  end = Some v.
Proof. vm_compute. reflexivity. Qed.

Example base64_examples :
  map Base64.encode ["To: a@x.org"; "M"; "Ma"; "Man"]
  = ["VG86IGFAeC5vcmc="; "TQ=="; "TWE="; "TWFu"].
Proof. reflexivity. Qed.

(** The end-to-end scenario of the specification: credentials from a file in
    the camel-case convention, then [listLabels] against a stub response. *)
Example end_to_end_listLabels :
  let w := world ∅ {[ "/srv/app/token.json" := Readable camel_file ]}
             (answering (Return (VObj [("data", VObj [("labels", VArr [inbox])])]))) in
  (let* client := createGmailClient w VUndefined in
   listLabels w client VUndefined) []
  = (Return (VArr [inbox]),
     [EnvRead "GMAIL_TOKEN"; EnvRead "GMAIL_TOKEN_FILE";
      ExistsSync "/srv/app/token.json"; ReadFileSync "/srv/app/token.json";
      EnvRead "GOOGLE_CLIENT_ID"; EnvRead "GOOGLE_CLIENT_SECRET";
      EnvRead "GOOGLE_REDIRECT_URL";
      ApiCall labels_list (VObj [("userId", VStr "me")])]).
Proof. vm_compute. reflexivity. Qed.

(** ** Running binds and handlers *)

Lemma bind_Return {A B} (m : M A) (k : A -> M B) tr a tr' :
  m tr = (Return a, tr') -> bind m k tr = k a tr'.
Proof. intros H. unfold bind. now rewrite H. Qed.

Lemma bind_Throw {A B} (m : M A) (k : A -> M B) tr e tr' :
  m tr = (Throw e, tr') -> bind m k tr = (Throw e, tr').
Proof. intros H. unfold bind. now rewrite H. Qed.

Lemma try_catch_Return {A} (m : M A) h tr a tr' :
  m tr = (Return a, tr') -> try_catch m h tr = (Return a, tr').
Proof. intros H. unfold try_catch. now rewrite H. Qed.

Lemma try_catch_Throw {A} (m : M A) h tr e tr' :
  m tr = (Throw e, tr') -> try_catch m h tr = h e tr'.
Proof. intros H. unfold try_catch. now rewrite H. Qed.

Lemma truthy_nonempty s : s <> EmptyString -> truthy (VStr s) = true.
Proof. destruct s; [congruence | reflexivity]. Qed.

Lemma env_blank_falsy w :
  env_token_blank w -> truthy (env_value w "GMAIL_TOKEN") = false.
Proof. unfold env_value. now intros [-> | ->]. Qed.

Lemma either_name_run bundle snake camel tr :
  either_name (VObj bundle) snake camel tr
  = (Return (field_of bundle snake camel), tr).
Proof.
  unfold either_name, field_of, get, bind, ret. cbn [nullish prop].
  destruct (Obj.get snake bundle) as [v|]; cbn [default from_option id].
  - destruct (truthy v); reflexivity.
  - reflexivity.
Qed.

Lemma normalizedTokens_run bundle tr :
  normalizedTokens (VObj bundle) tr = (Return (canonical bundle), tr).
Proof.
  unfold normalizedTokens.
  repeat (erewrite bind_Return by apply either_name_run).
  reflexivity.
Qed.

(** ** Credential resolution *)

Section Resolution.

Variable w : World.

Lemma getenv_run name tr :
  getenv w name tr = (Return (env_value w name), tr ++ [EnvRead name]).
Proof. reflexivity. Qed.

Lemma existsSync_run path tr :
  existsSync w path tr
  = (Return (match fs w !! path with Some _ => true | None => false end),
     tr ++ [ExistsSync path]).
Proof. reflexivity. Qed.

Lemma readFileSync_run path tr :
  readFileSync w path tr
  = (match fs w !! path with
     | Some (Readable content) => Return content
     | Some Unreadable =>
         Throw (Error ("EACCES: permission denied, open '" +:+ path +:+ "'"))
     | None =>
         Throw (Error ("ENOENT: no such file or directory, open '"
                       +:+ path +:+ "'"))
     end, tr ++ [ReadFileSync path]).
Proof.
  unfold readFileSync, bind, emit.
  destruct (fs w !! path) as [[content|]|]; reflexivity.
Qed.

(** The run of [resolveTokens] once the bundle is missing and
    [GMAIL_TOKEN] is blank: it is decided by the token file. *)
Lemma resolveTokens_file tr :
  env_token_blank w ->
  resolveTokens w VUndefined tr
  = let tr' := tr ++ [EnvRead "GMAIL_TOKEN"; EnvRead "GMAIL_TOKEN_FILE";
                      ExistsSync (tokenPath w)] in
    match fs w !! tokenPath w with
    | None => (Throw (Error no_tokens_message), tr')
    | Some f =>
        match f with
        | Readable content =>
            match JSON_parse content with
            | Some v => (Return v, tr' ++ [ReadFileSync (tokenPath w)])
            | None => (Throw (Error (file_failed_message (tokenPath w))),
                       tr' ++ [ReadFileSync (tokenPath w)])
            end
        | Unreadable => (Throw (Error (file_failed_message (tokenPath w))),
                         tr' ++ [ReadFileSync (tokenPath w)])
        end
    end.
Proof.
  intros Hblank. unfold resolveTokens. cbn [truthy].
  erewrite bind_Return by apply getenv_run.
  rewrite (env_blank_falsy w Hblank).
  erewrite bind_Return by apply getenv_run.
  fold (tokenPath w).
  erewrite bind_Return by apply existsSync_run.
  rewrite <- !app_assoc. cbn [app].
  destruct (fs w !! tokenPath w) as [[content|]|] eqn:Hf; cbn zeta.
  - unfold try_catch, bind. rewrite readFileSync_run, Hf.
    unfold JSON_parse_or_throw, ret, throw.
    rewrite <- !app_assoc. destruct (JSON_parse content); reflexivity.
  - unfold try_catch, bind. rewrite readFileSync_run, Hf.
    rewrite <- !app_assoc. reflexivity.
  - reflexivity.
Qed.

(** The run once the bundle is missing and [GMAIL_TOKEN] is a non-empty
    string: it is decided by that string alone. *)
Lemma resolveTokens_env tr s :
  process_env w !! "GMAIL_TOKEN" = Some s -> s <> EmptyString ->
  resolveTokens w VUndefined tr
  = match JSON_parse s with
    | Some v => (Return v, tr ++ [EnvRead "GMAIL_TOKEN"])
    | None => (Throw (Error env_invalid_message), tr ++ [EnvRead "GMAIL_TOKEN"])
    end.
Proof.
  intros Henv Hs. unfold resolveTokens. cbn [truthy].
  erewrite bind_Return by apply getenv_run.
  unfold env_value. rewrite Henv. rewrite (truthy_nonempty s Hs).
  cbn [ToString].
  unfold try_catch, JSON_parse_or_throw, ret, throw.
  destruct (JSON_parse s); reflexivity.
Qed.

End Resolution.

(** C8: a directly supplied bundle, whatever its fields (none at all
    included), is returned as it is, unvalidated, and the run reads neither
    the environment nor the file system: the trace is unchanged, in every
    world. Accordingly, building a client from a supplied bundle reads only
    the three OAuth application settings, never [GMAIL_TOKEN],
    [GMAIL_TOKEN_FILE] or a file. *)
Theorem resolveTokens_supplied_as_is (w : World)
    (bundle : list (string * value)) (tr : list event) :
  resolveTokens w (VObj bundle) tr = (Return (VObj bundle), tr)
  /\ exists client,
       createGmailClient w (VObj [("tokens", VObj bundle)]) tr
       = (Return client,
          tr ++ [EnvRead "GOOGLE_CLIENT_ID"; EnvRead "GOOGLE_CLIENT_SECRET";
                 EnvRead "GOOGLE_REDIRECT_URL"]).
Proof.
  split; [reflexivity |].
  eexists. unfold createGmailClient.
  erewrite bind_Return by reflexivity.
  unfold new_GmailClient.
  repeat (erewrite bind_Return by apply getenv_run).
  erewrite bind_Return by apply normalizedTokens_run.
  rewrite <- !app_assoc. reflexivity.
Qed.

(** C7: with no bundle supplied, [GMAIL_TOKEN] unset and no file at the
    token path, resolution fails with the message that lists the three ways
    of supplying credentials: the GMAIL_TOKEN variable, the GMAIL_TOKEN_FILE
    variable naming a JSON file, and the direct parameter. *)
Theorem resolveTokens_no_source (w : World) (tr : list event) :
  process_env w !! "GMAIL_TOKEN" = None ->
  fs w !! tokenPath w = None ->
  resolveTokens w VUndefined tr
  = (Throw (Error no_tokens_message),
     tr ++ [EnvRead "GMAIL_TOKEN"; EnvRead "GMAIL_TOKEN_FILE";
            ExistsSync (tokenPath w)])
  /\ includes "1) GMAIL_TOKEN env var" no_tokens_message = true
  /\ includes "2) GMAIL_TOKEN_FILE env var pointing to JSON file"
       no_tokens_message = true
  /\ includes "3) direct function parameter" no_tokens_message = true.
Proof.
  intros Henv Hfile. split; [| repeat split; reflexivity].
  rewrite resolveTokens_file by (now left). now rewrite Hfile.
Qed.

Lemma resolveTokens_no_source_witness :
  process_env world_empty !! "GMAIL_TOKEN" = None
  /\ fs world_empty !! tokenPath world_empty = None
  /\ resolveTokens world_empty VUndefined []
     = (Throw (Error no_tokens_message),
        [EnvRead "GMAIL_TOKEN"; EnvRead "GMAIL_TOKEN_FILE";
         ExistsSync "/srv/app/token.json"]).
Proof.
  split; [vm_compute; reflexivity |].
  split; [vm_compute; reflexivity |].
  apply (resolveTokens_no_source world_empty []); vm_compute; reflexivity.
Defined.

(** C1, as the code has it: a supplied bundle is the result; otherwise a
    [GMAIL_TOKEN] that parses gives the result, whatever the file holds;
    otherwise, when [GMAIL_TOKEN] is unset or empty and the token file is
    readable and parses, the file gives the result. A non-empty
    [GMAIL_TOKEN] that does not parse is a failure and does not fall through
    to the file. The result is always the value of one source alone. *)
Theorem resolveTokens_priority (w : World) (tr : list event) :
  (forall bundle,
      resolveTokens w (VObj bundle) tr = (Return (VObj bundle), tr))
  /\ (forall s v,
         process_env w !! "GMAIL_TOKEN" = Some s -> JSON_parse s = Some v ->
         outcome (resolveTokens w VUndefined tr) = Return v)
  /\ (forall content v,
         env_token_blank w ->
         fs w !! tokenPath w = Some (Readable content) ->
         JSON_parse content = Some v ->
         outcome (resolveTokens w VUndefined tr) = Return v)
  /\ (forall s,
         process_env w !! "GMAIL_TOKEN" = Some s -> s <> EmptyString ->
         JSON_parse s = None ->
         outcome (resolveTokens w VUndefined tr)
         = Throw (Error env_invalid_message)).
Proof.
  repeat split.
  - intros s v Henv Hparse.
    assert (Hs : s <> EmptyString).
    { intros ->. rewrite JSON_parse_empty in Hparse. discriminate. }
    rewrite (resolveTokens_env w tr s Henv Hs), Hparse. reflexivity.
  - intros content v Hblank Hfile Hparse.
    rewrite (resolveTokens_file w tr Hblank), Hfile, Hparse. reflexivity.
  - intros s Henv Hs Hparse.
    rewrite (resolveTokens_env w tr s Henv Hs), Hparse. reflexivity.
Qed.

Lemma resolveTokens_priority_witness :
  outcome (resolveTokens world_env_and_file VUndefined [])
  = Return (VObj [("access_token", VStr "env-token")])
  /\ outcome (resolveTokens world_file_only VUndefined [])
     = Return (VObj [("access_token", VStr "file-token")])
  /\ outcome (resolveTokens world_bad_env VUndefined [])
     = Throw (Error env_invalid_message).
Proof.
  split; [| split].
  - apply (proj1 (proj2 (resolveTokens_priority world_env_and_file []))
             env_bundle_text); vm_compute; reflexivity.
  - apply (proj1 (proj2 (proj2 (resolveTokens_priority world_file_only [])))
             file_bundle_text).
    + left. vm_compute. reflexivity.
    + vm_compute. reflexivity.
    + vm_compute. reflexivity.
  - apply (proj2 (proj2 (proj2 (resolveTokens_priority world_bad_env [])))
             "invalid-json{").
    + vm_compute. reflexivity.
    + discriminate.
    + vm_compute. reflexivity.
Defined.

(** C1 as stated fails: with [GMAIL_TOKEN] set to text that is not JSON and
    a valid token file, the chain of the specification names the file's
    bundle, and the code throws. *)
Lemma resolveTokens_bad_env_does_not_fall_through :
  resolve_as_stated world_bad_env None
  = Some (VObj [("access_token", VStr "file-token")])
  /\ resolveTokens world_bad_env VUndefined []
     = (Throw (Error env_invalid_message), [EnvRead "GMAIL_TOKEN"])
  /\ outcome (resolveTokens world_bad_env VUndefined [])
     <> Return (VObj [("access_token", VStr "file-token")]).
Proof.
  split; [vm_compute; reflexivity |].
  split; [vm_compute; reflexivity |].
  vm_compute. discriminate.
Qed.

(** C6, as the code has it: the failures of resolution carry three
    messages. A non-empty [GMAIL_TOKEN] that is not JSON has its own; a token
    file that exists and cannot be read and one whose content is not JSON
    share one message, which names the path; the absence of every source has
    its own. The three are pairwise different, for every path. *)
Theorem resolveTokens_failure_messages (w : World) (tr : list event) :
  (forall s,
      process_env w !! "GMAIL_TOKEN" = Some s -> s <> EmptyString ->
      JSON_parse s = None ->
      outcome (resolveTokens w VUndefined tr) = Throw (Error env_invalid_message))
  /\ (env_token_blank w -> fs w !! tokenPath w = Some Unreadable ->
      outcome (resolveTokens w VUndefined tr)
      = Throw (Error (file_failed_message (tokenPath w))))
  /\ (forall content,
         env_token_blank w ->
         fs w !! tokenPath w = Some (Readable content) ->
         JSON_parse content = None ->
         outcome (resolveTokens w VUndefined tr)
         = Throw (Error (file_failed_message (tokenPath w))))
  /\ (env_token_blank w -> fs w !! tokenPath w = None ->
      outcome (resolveTokens w VUndefined tr) = Throw (Error no_tokens_message))
  /\ (forall path,
         env_invalid_message <> file_failed_message path
         /\ file_failed_message path <> no_tokens_message)
  /\ env_invalid_message <> no_tokens_message.
Proof.
  split; [| split; [| split; [| split; [| split]]]].
  - intros s Henv Hs Hparse.
    rewrite (resolveTokens_env w tr s Henv Hs), Hparse. reflexivity.
  - intros Hblank Hfile.
    rewrite (resolveTokens_file w tr Hblank), Hfile. reflexivity.
  - intros content Hblank Hfile Hparse.
    rewrite (resolveTokens_file w tr Hblank), Hfile, Hparse. reflexivity.
  - intros Hblank Hfile.
    rewrite (resolveTokens_file w tr Hblank), Hfile. reflexivity.
  - intros path. split; discriminate.
  - discriminate.
Qed.

Lemma resolveTokens_failure_messages_witness :
  outcome (resolveTokens world_bad_env VUndefined [])
  = Throw (Error env_invalid_message)
  /\ outcome (resolveTokens world_unreadable_file VUndefined [])
     = Throw (Error (file_failed_message "/srv/app/token.json"))
  /\ outcome (resolveTokens world_bad_file VUndefined [])
     = Throw (Error (file_failed_message "/srv/app/token.json"))
  /\ outcome (resolveTokens world_empty VUndefined [])
     = Throw (Error no_tokens_message).
Proof.
  split; [| split; [| split]].
  - apply (proj1 (resolveTokens_failure_messages world_bad_env [])
             "invalid-json{").
    + vm_compute. reflexivity.
    + discriminate.
    + vm_compute. reflexivity.
  - apply (proj1 (proj2 (resolveTokens_failure_messages world_unreadable_file []))).
    + left. vm_compute. reflexivity.
    + vm_compute. reflexivity.
  - apply (proj1 (proj2 (proj2
             (resolveTokens_failure_messages world_bad_file []))) "invalid-json{").
    + left. vm_compute. reflexivity.
    + vm_compute. reflexivity.
    + vm_compute. reflexivity.
  - apply (proj1 (proj2 (proj2 (proj2
             (resolveTokens_failure_messages world_empty []))))).
    + left. vm_compute. reflexivity.
    + vm_compute. reflexivity.
Defined.

(** C6 as stated fails: a token file that cannot be read and a token file
    whose content is not JSON fail with the same error, message included. *)
Lemma unreadable_and_malformed_file_same_error :
  fs world_unreadable_file !! tokenPath world_unreadable_file = Some Unreadable
  /\ fs world_bad_file !! tokenPath world_bad_file = Some (Readable "invalid-json{")
  /\ JSON_parse "invalid-json{" = None
  /\ outcome (resolveTokens world_unreadable_file VUndefined [])
     = Throw (Error "Failed to read or parse token file at /srv/app/token.json")
  /\ outcome (resolveTokens world_bad_file VUndefined [])
     = outcome (resolveTokens world_unreadable_file VUndefined []).
Proof. repeat split; vm_compute; reflexivity. Qed.

(** ** Base64 decodes what it encodes *)

Lemma code_bound c : 0 <= Json.code c < 256.
Proof.
  unfold Json.code. pose proof (N_ascii_bounded c). lia.
Qed.

Lemma chr_code c : Json.chr (Json.code c) = c.
Proof.
  unfold Json.chr, Json.code. rewrite N2Z.id. apply ascii_N_embedding.
Qed.

Lemma sextets_ok : forallb sextet_ok (seq 0 64) = true.
Proof. vm_compute. reflexivity. Qed.

Lemma index_char i :
  0 <= i < 64 ->
  Base64.index (Base64.char i) = Some i
  /\ Ascii.eqb (Base64.char i) Base64.pad = false.
Proof.
  intros Hi.
  pose proof (proj1 (forallb_forall sextet_ok (seq 0 64)) sextets_ok
                (Z.to_nat i)) as H.
  unfold sextet_ok in H. rewrite Z2Nat.id in H by lia.
  destruct (Base64.index (Base64.char i)) as [j|].
  - assert (Hin : In (Z.to_nat i) (seq 0 64)) by (apply in_seq; lia).
    apply H in Hin. apply andb_prop in Hin as [Hj Hp].
    apply Z.eqb_eq in Hj. subst j.
    split; [reflexivity | now apply negb_true_iff].
  - assert (Hin : In (Z.to_nat i) (seq 0 64)) by (apply in_seq; lia).
    apply H in Hin. discriminate.
Qed.

Lemma string_ind3 (P : string -> Prop) :
  P EmptyString ->
  (forall a, P (String a EmptyString)) ->
  (forall a b, P (String a (String b EmptyString))) ->
  (forall a b c s, P s -> P (String a (String b (String c s)))) ->
  forall s, P s.
Proof.
  intros H0 H1 H2 H3.
  fix IH 1. intros [|a [|b [|c s]]].
  - exact H0.
  - apply H1.
  - apply H2.
  - apply H3. apply IH.
Qed.

Ltac sextet :=
  match goal with
  | |- context [Base64.index (Base64.char ?i)] =>
      let H := fresh in
      let E := fresh in
      assert (H : 0 <= i < 64) by (Z.div_mod_to_equations; lia);
      destruct (index_char i H) as [E ?]; rewrite E; clear E
  end.

Lemma chr_of_code a z : z = Json.code a -> Json.chr z = a.
Proof. intros ->. apply chr_code. Qed.

Lemma base64_decode_bytes s : Base64.decode (Base64.encode_bytes s) = Some s.
Proof.
  induction s as [| a | a b | a b c s IH] using string_ind3.
  - reflexivity.
  - cbn [Base64.encode_bytes Base64.decode].
    pose proof (code_bound a). set (x := Json.code a) in *.
    repeat sextet. rewrite Ascii.eqb_refl.
    f_equal. f_equal. apply chr_of_code. subst x.
    Z.div_mod_to_equations. lia.
  - cbn [Base64.encode_bytes Base64.decode].
    pose proof (code_bound a). pose proof (code_bound b).
    set (x := Json.code a) in *. set (y := Json.code b) in *.
    repeat sextet.
    repeat match goal with
           | H : Ascii.eqb _ Base64.pad = false |- _ => rewrite H; clear H
           end.
    rewrite Ascii.eqb_refl.
    f_equal. f_equal; [| f_equal]; apply chr_of_code; subst x y;
      Z.div_mod_to_equations; lia.
  - cbn [Base64.encode_bytes Base64.decode]. fold Base64.encode_bytes. fold Base64.decode.
    pose proof (code_bound a). pose proof (code_bound b). pose proof (code_bound c).
    set (x := Json.code a) in *. set (y := Json.code b) in *.
    set (z := Json.code c) in *.
    repeat sextet.
    repeat match goal with
           | H : Ascii.eqb _ Base64.pad = false |- _ => rewrite H; clear H
           end.
    rewrite IH.
    f_equal. f_equal; [| f_equal; [| f_equal]]; apply chr_of_code; subst x y z;
      Z.div_mod_to_equations; lia.
Qed.

(** The Base64 text of a string decodes to the bytes of [Buffer.from]. *)
Lemma base64_decode_encode s :
  Base64.decode (Base64.encode s) = Some (Buffer_from s).
Proof. apply base64_decode_bytes. Qed.

Lemma pieces_byte a b c rest :
  Utf16.surrogate a b c = None ->
  Utf16.pieces (String a (String b (String c rest)))
  = Utf16.Byte a :: Utf16.pieces (String b (String c rest)).
Proof. intros H. cbn [Utf16.pieces]. rewrite H. reflexivity. Qed.

Lemma pieces_surrogate a b c rest hi :
  Utf16.surrogate a b c = Some hi ->
  Utf16.surrogates (String a (String b (String c rest))) = true.
Proof.
  intros H. unfold Utf16.surrogates. cbn [Utf16.pieces]. rewrite H.
  destruct rest as [| d [| e [| f rest6]]]; try reflexivity.
  destruct (Utf16.surrogate d e f) as [lo |]; [| reflexivity].
  destruct ((hi <? 56320) && (56320 <=? lo)); reflexivity.
Qed.

(** Without a surrogate in three bytes, the bytes of [Buffer.from] are the
    string. *)
Lemma Buffer_from_plain s : Utf16.surrogates s = false -> Buffer_from s = s.
Proof.
  remember (String.length s) as n eqn:Hn.
  revert s Hn. induction n as [n IH] using lt_wf_ind. intros s Hn.
  destruct s as [| a [| b [| c rest]]]; try reflexivity.
  destruct (Utf16.surrogate a b c) as [hi |] eqn:E.
  - rewrite (pieces_surrogate _ _ _ rest _ E). discriminate.
  - unfold Utf16.surrogates, Buffer_from. rewrite (pieces_byte _ _ _ _ E).
    cbn [existsb orb fold_right]. intros Hplain. f_equal.
    apply (IH (String.length (String b (String c rest))));
      [subst n; cbn [String.length]; lia | reflexivity | exact Hplain].
Qed.

(** ASCII text has no surrogate. *)
Example Buffer_from_examples :
  Buffer_from "To: a@x.org" = "To: a@x.org"
  /\ Buffer_from (String "237"%char (String "160"%char (String "128"%char "!")))
     = String "239"%char (String "191"%char (String "189"%char "!"))
  /\ Buffer_from (String "237"%char (String "160"%char (String "189"%char
                   (String "237"%char (String "184"%char (String "128"%char
                      EmptyString))))))
     = String "240"%char (String "159"%char (String "152"%char
         (String "128"%char EmptyString))).
Proof. repeat split. Qed.

(** ** Field normalisation *)

(** Where every underscore-named value that is present is truthy, the
    constructor computes the field of the specification. *)
Lemma field_of_as_stated bundle snake camel :
  (forall v, Obj.get snake bundle = Some v -> truthy v = true) ->
  field_of bundle snake camel = field_as_stated bundle snake camel.
Proof.
  intros H. unfold field_of, field_as_stated.
  destruct (Obj.get snake bundle) as [v|]; [| reflexivity].
  now rewrite (H v eq_refl).
Qed.

(** C2, as the code has it: for every bundle the normalisation succeeds, and
    each of the four canonical fields is, independently of the other three,
    the underscore-named value when that is present and truthy, else the
    camel-case value when present, else [undefined]; the constructor sets
    exactly these credentials on the client. An underscore-named value that
    is present but empty or zero does not win over the camel-case one. *)
Theorem normalization_per_field (w : World) (bundle : list (string * value))
    (tr : list event) :
  normalizedTokens (VObj bundle) tr = (Return (canonical bundle), tr)
  /\ prop (canonical bundle) "access_token"
     = field_of bundle "access_token" "accessToken"
  /\ prop (canonical bundle) "refresh_token"
     = field_of bundle "refresh_token" "refreshToken"
  /\ prop (canonical bundle) "expiry_date"
     = field_of bundle "expiry_date" "expiryDate"
  /\ prop (canonical bundle) "token_type"
     = field_of bundle "token_type" "tokenType"
  /\ exists client,
       new_GmailClient w (VObj bundle) tr
       = (Return client,
          tr ++ [EnvRead "GOOGLE_CLIENT_ID"; EnvRead "GOOGLE_CLIENT_SECRET";
                 EnvRead "GOOGLE_REDIRECT_URL"])
       /\ credentials (oauth2Client client) = canonical bundle.
Proof.
  split; [apply normalizedTokens_run |].
  repeat (split; [reflexivity |]).
  eexists. unfold new_GmailClient.
  repeat (erewrite bind_Return by apply getenv_run).
  erewrite bind_Return by apply normalizedTokens_run.
  rewrite <- !app_assoc. cbn [app]. split; reflexivity.
Qed.

(** The mixed-convention bundle of the specification: access token under the
    underscore name, refresh token under the camel-case name. *)
Example normalization_mixed :
  normalizedTokens
    (VObj [("access_token", VStr "snake-access");
           ("refreshToken", VStr "camel-refresh");
           ("expiry_date", int 1234567890);
           ("tokenType", VStr "Bearer")]) []
  = (Return (VObj [("access_token", VStr "snake-access");
                   ("refresh_token", VStr "camel-refresh");
                   ("expiry_date", int 1234567890);
                   ("token_type", VStr "Bearer")]), []).
Proof. reflexivity. Qed.

(** C2 as stated fails: an access token present under the underscore name as
    the empty string, and an expiry present there as zero, lose to the
    camel-case values. *)
Lemma normalization_drops_falsy_underscore_value :
  let bundle := [("access_token", VStr EmptyString);
                 ("accessToken", VStr "X");
                 ("expiry_date", int 0);
                 ("expiryDate", int 1234567890)] in
  field_as_stated bundle "access_token" "accessToken" = VStr EmptyString
  /\ field_as_stated bundle "expiry_date" "expiryDate" = int 0
  /\ normalizedTokens (VObj bundle) []
     = (Return (VObj [("access_token", VStr "X");
                      ("refresh_token", VUndefined);
                      ("expiry_date", int 1234567890);
                      ("token_type", VUndefined)]), [])
  /\ VStr "X" <> field_as_stated bundle "access_token" "accessToken".
Proof. repeat split; discriminate. Qed.

(** ** The message envelope *)

Lemma join_strings sep rs : join sep (map VStr rs) = String.concat sep rs.
Proof.
  induction rs as [| r rs IH]; [reflexivity |].
  destruct rs as [| r' rs]; [reflexivity |].
  change (join sep (map VStr (r :: r' :: rs)))
    with (r +:+ sep +:+ join sep (map VStr (r' :: rs))).
  rewrite IH. reflexivity.
Qed.

Lemma guarded_run {A} options k (K : value -> M A) tr :
  (let* present := has_in k (VObj options) in
   let* v := (if present : bool then get (VObj options) k else ret (VBool false)) in
   K v) tr
  = K (guarded options k) tr.
Proof.
  unfold has_in, get, bind, ret, guarded, Obj.has. cbn [nullish prop].
  destruct (Obj.get k options); reflexivity.
Qed.

Lemma buildMessage_run options tr :
  buildMessage (VObj options) tr
  = (Return (envelope (headers_of options) (body_of options)), tr).
Proof.
  unfold buildMessage.
  erewrite bind_Return by reflexivity.
  erewrite bind_Return by reflexivity.
  erewrite bind_Return by reflexivity.
  rewrite guarded_run. rewrite guarded_run.
  unfold ret, envelope, headers_of, body_of, recipients_of, content_type_header.
  destruct (prop (VObj options) "to"); cbn [ToString];
    destruct (truthy (guarded options "html"));
    destruct (truthy (guarded options "inReplyTo")); reflexivity.
Qed.

Lemma sendMessage_trace w client userId options tr :
  exists rest,
    trace (sendMessage w client userId (VObj options) tr)
    = tr ++ ApiCall messages_send (send_request userId options) :: rest.
Proof.
  unfold sendMessage, sendMessage_try, trace.
  unfold try_catch at 1.
  erewrite bind_Return by apply buildMessage_run.
  erewrite bind_Return by reflexivity.
  erewrite bind_Return by reflexivity.
  unfold bind at 1. unfold api at 1. fold (send_request userId options).
  destruct (gmail_api w (oauth2Client client) messages_send
              (send_request userId options)) as [response | error].
  - unfold get. destruct (nullish response).
    + unfold throw, handleError, Error, bind, console_error, emit.
      eexists. cbn [snd]. rewrite <- app_assoc. reflexivity.
    + exists []. reflexivity.
  - unfold handleError.
    destruct error; unfold bind, console_error, emit, throw;
      eexists; cbn [snd]; rewrite <- app_assoc; reflexivity.
Qed.

Lemma guarded_truthy options k :
  truthy (guarded options k) = truthy (prop (VObj options) k).
Proof. unfold guarded. cbn [prop]. now destruct (Obj.get k options). Qed.

Lemma guarded_string options k s :
  prop (VObj options) k = VStr s -> s <> EmptyString ->
  guarded options k = VStr s.
Proof.
  unfold guarded. cbn [prop].
  destruct (Obj.get k options) as [v |]; cbn [default from_option id].
  - now intros ->.
  - discriminate.
Qed.

(** C3, as the code has it: the envelope of an options object is its header
    lines joined by CRLF, an empty line, and the body. The conditions are on
    the value of a property, whether the property is absent or present and
    undefined. The To header joins a list of recipients with commas and
    shows a single recipient as it is; the Subject header is the placeholder
    when the subject is undefined (or falsy otherwise) and the subject itself
    when it is a non-empty string; the Content-Type header is text/html when
    the html flag is truthy and text/plain when it is falsy; a non-empty
    inReplyTo identifier adds an In-Reply-To and a References header that
    both cite it, and a falsy one adds no header; the body is the body text,
    empty when undefined. [sendMessage] hands the SDK the Base64 text of
    the envelope, which decodes to the bytes of the envelope: to the
    envelope itself, unless it holds a surrogate without partner, which
    [Buffer.from] replaces. *)
Theorem envelope_headers (options : list (string * value)) (tr : list event) :
  exists to_header subject_header type_header reply_headers body,
    buildMessage (VObj options) tr
    = (Return (envelope ([to_header; subject_header; type_header;
                          "MIME-Version: 1.0"] ++ reply_headers) body), tr)
    /\ (forall recipients,
           prop (VObj options) "to" = VArr (map VStr recipients) ->
           to_header = "To: " +:+ String.concat "," recipients)
    /\ (forall recipient,
           prop (VObj options) "to" = VStr recipient ->
           to_header = "To: " +:+ recipient)
    /\ (truthy (prop (VObj options) "subject") = false ->
        subject_header = "Subject: (no subject)")
    /\ (forall subject,
           prop (VObj options) "subject" = VStr subject ->
           subject <> EmptyString ->
           subject_header = "Subject: " +:+ subject)
    /\ (truthy (prop (VObj options) "html") = true ->
        type_header = "Content-Type: text/html; charset=" +:+ quoted "UTF-8")
    /\ (truthy (prop (VObj options) "html") = false ->
        type_header = "Content-Type: text/plain; charset=" +:+ quoted "UTF-8")
    /\ (forall id,
           prop (VObj options) "inReplyTo" = VStr id -> id <> EmptyString ->
           reply_headers = ["In-Reply-To: " +:+ id; "References: " +:+ id])
    /\ (truthy (prop (VObj options) "inReplyTo") = false -> reply_headers = [])
    /\ (forall text, prop (VObj options) "body" = VStr text -> body = text)
    /\ (truthy (prop (VObj options) "body") = false -> body = EmptyString)
    /\ (forall w client userId,
           let email :=
             envelope ([to_header; subject_header; type_header;
                        "MIME-Version: 1.0"] ++ reply_headers) body in
           (exists params rest,
               trace (sendMessage w client userId (VObj options) tr)
               = tr ++ ApiCall messages_send params :: rest
               /\ prop (prop params "requestBody") "raw"
                  = VStr (Base64.encode email))
           /\ Base64.decode (Base64.encode email) = Some (Buffer_from email)
           /\ (Utf16.surrogates email = false -> Buffer_from email = email)).
Proof.
  exists ("To: " +:+ recipients_of options),
    ("Subject: " +:+ ToString (js_or (prop (VObj options) "subject")
                                     (VStr "(no subject)"))),
    (content_type_header (truthy (guarded options "html"))),
    (if truthy (guarded options "inReplyTo")
     then ["In-Reply-To: " +:+ ToString (guarded options "inReplyTo");
           "References: " +:+ ToString (guarded options "inReplyTo")]
     else []),
    (body_of options).
  split; [apply buildMessage_run |].
  split.
  { intros recipients Hto. unfold recipients_of. rewrite Hto.
    now rewrite join_strings. }
  split.
  { intros recipient Hto. unfold recipients_of. now rewrite Hto. }
  split.
  { intros Hsub. unfold js_or. now rewrite Hsub. }
  split.
  { intros subject Hsub Hne. unfold js_or.
    now rewrite Hsub, (truthy_nonempty subject Hne). }
  split.
  { intros Hhtml. now rewrite guarded_truthy, Hhtml. }
  split.
  { intros Hhtml. now rewrite guarded_truthy, Hhtml. }
  split.
  { intros id Hid Hne. rewrite (guarded_string _ _ _ Hid Hne).
    now rewrite (truthy_nonempty id Hne). }
  split.
  { intros Hid. now rewrite guarded_truthy, Hid. }
  split.
  { intros text Hbody. unfold body_of, js_or. rewrite Hbody.
    destruct text; reflexivity. }
  split.
  { intros Hbody. unfold body_of, js_or. now rewrite Hbody. }
  intros w client userId email. split.
  - destruct (sendMessage_trace w client userId options tr) as [rest Hrest].
    exists (send_request userId options), rest. split; [exact Hrest |].
    reflexivity.
  - split; [apply base64_decode_encode | apply Buffer_from_plain].
Qed.

(** The options as the dispatcher builds them, every property present: a
    reply in HTML sent without a subject. *)
Lemma envelope_headers_witness :
  buildMessage (VObj dispatched_options) []
  = (Return (envelope ["To: a@x.org,b@x.org";
                       "Subject: (no subject)";
                       "Content-Type: text/html; charset=" +:+ quoted "UTF-8";
                       "MIME-Version: 1.0";
                       "In-Reply-To: <m1@x.org>";
                       "References: <m1@x.org>"] "<p>hello</p>"), []).
Proof.
  destruct (envelope_headers dispatched_options [])
    as (to_h & subject_h & type_h & reply_h & body
        & Hrun & Hto & _ & Hsubject & _ & Hhtml & _ & Hreply & _ & Hbody & _).
  rewrite (Hto ["a@x.org"; "b@x.org"] eq_refl) in Hrun.
  rewrite (Hsubject eq_refl) in Hrun.
  rewrite (Hhtml eq_refl) in Hrun.
  rewrite (Hreply "<m1@x.org>" eq_refl ltac:(discriminate)) in Hrun.
  rewrite (Hbody "<p>hello</p>" eq_refl) in Hrun.
  exact Hrun.
Defined.

(** The send tool called with recipient and body only: the dispatcher
    passes every property, the omitted ones undefined, and the envelope has
    the placeholder subject, plain text and no threading header. The
    payload carries the number of the result as the runtime prints it. *)
Example send_tool_envelope :
  handler (world {[ "GMAIL_TOKEN" := env_bundle_text ]} ∅
             (answering (Return (VObj [("data",
                                        VObj [("id", VStr "m1");
                                              ("score", VNum (Num 5 (-3)))])]))))
    "gmailSendMessage"
    (VObj [("to", VStr "a@x.org"); ("body", VStr "hello")]) []
  = (Return
       (VObj [("content",
               VArr [VObj [("type", VStr "text");
                           ("text",
                            VStr (object_text [member "id" (quoted "m1");
                                               member "score" "0.005"]))]])]),
     [EnvRead "GMAIL_TOKEN"; EnvRead "GOOGLE_CLIENT_ID";
      EnvRead "GOOGLE_CLIENT_SECRET"; EnvRead "GOOGLE_REDIRECT_URL";
      ApiCall messages_send
        (VObj [("userId", VStr "me");
               ("requestBody",
                VObj [("raw",
                       VStr (Base64.encode
                               (envelope
                                  ["To: a@x.org";
                                   "Subject: (no subject)";
                                   "Content-Type: text/plain; charset="
                                   +:+ quoted "UTF-8";
                                   "MIME-Version: 1.0"] "hello")));
                      ("threadId", VUndefined);
                      ("labelIds", VUndefined)])])]).
Proof. vm_compute. reflexivity. Qed.

(** C3 as stated fails: an inReplyTo property supplied as the empty string
    adds neither header. *)
Lemma empty_inReplyTo_adds_no_header :
  Obj.get "inReplyTo" empty_reply_options = Some (VStr EmptyString)
  /\ buildMessage (VObj empty_reply_options) [] = (Return plain_envelope, [])
  /\ includes "In-Reply-To:" plain_envelope = false
  /\ includes "References:" plain_envelope = false.
Proof. repeat split; vm_compute; reflexivity. Qed.

(** ** The facade: failures and list results *)

Lemma handleError_run {A} error tr :
  @handleError A error tr = (Throw (propagated error), tr ++ [logged error]).
Proof. destruct error; reflexivity. Qed.

Lemma invoke_try_catch w client op :
  invoke w client op = try_catch (attempt w client op) handleError.
Proof. destruct op; reflexivity. Qed.

Lemma api_run w client method params tr :
  api w client method params tr
  = (gmail_api w (oauth2Client client) method params,
     tr ++ [ApiCall method params]).
Proof. reflexivity. Qed.

Lemma attempt_rejected w client op error tr :
  rejecting w client error -> options_given op ->
  exists tr', attempt w client op tr = (Throw error, tr').
Proof.
  intros Hrej Hopt.
  destruct op; cbn [attempt options_given] in *;
    try match type of Hopt with ex _ => destruct Hopt as [fields ->] end;
    unfold listMessages_try, getMessage_try, searchMessages_try,
      sendMessage_try, createDraft_try, listLabels_try,
      modifyMessageLabels_try, trashMessage_try, untrashMessage_try,
      listThreads_try, getThread_try;
    try (erewrite bind_Return by apply buildMessage_run);
    repeat (erewrite bind_Return by reflexivity);
    eexists; (erewrite bind_Throw; [reflexivity |]);
    rewrite api_run, Hrej; reflexivity.
Qed.

(** C4: every facade method is its [try] block under [handleError]. Whatever
    value the block fails with, an [Error] is logged by its message and
    thrown again unchanged, and any other value is logged next to a generic
    line and replaced by a new [Error] with the generic message; in
    particular this is what happens to the value the remote call rejects
    with. *)
Theorem facade_failure_normalised (w : World) (client : GmailClient)
    (op : operation) (tr : list event) :
  (forall error tr',
      attempt w client op tr = (Throw error, tr') ->
      invoke w client op tr = (Throw (propagated error), tr' ++ [logged error]))
  /\ (forall message props,
         propagated (VError message props) = VError message props
         /\ logged (VError message props)
            = ConsoleError [VStr ("Gmail API error: " +:+ message)])
  /\ (forall error,
         instanceof_Error error = false ->
         propagated error = Error "Unknown Gmail API error"
         /\ logged error = ConsoleError [VStr "Unknown Gmail API error:"; error])
  /\ (forall error,
         rejecting w client error -> options_given op ->
         exists tr',
           invoke w client op tr
           = (Throw (propagated error), tr' ++ [logged error])).
Proof.
  split; [| split; [| split]].
  - intros error tr' Hfail.
    rewrite invoke_try_catch, (try_catch_Throw _ _ _ _ _ Hfail).
    apply handleError_run.
  - intros message props. split; reflexivity.
  - intros error Hne. destruct error; try discriminate; split; reflexivity.
  - intros error Hrej Hopt.
    destruct (attempt_rejected w client op error tr Hrej Hopt) as [tr' Hfail].
    exists tr'.
    rewrite invoke_try_catch, (try_catch_Throw _ _ _ _ _ Hfail).
    apply handleError_run.
Qed.

Lemma answering_rejects env files client error :
  rejecting (world env files (answering (Throw error))) client error.
Proof. intros method params. reflexivity. Qed.

Lemma answering_responds env files client response :
  responding (world env files (answering (Return response))) client response.
Proof. intros method params. reflexivity. Qed.

Lemma facade_failure_normalised_witness :
  (exists tr',
      invoke (world ∅ ∅ (answering (Throw (VStr "string error")))) stub_client
        (ListMessages me VUndefined) []
      = (Throw (Error "Unknown Gmail API error"),
         tr' ++ [ConsoleError [VStr "Unknown Gmail API error:";
                               VStr "string error"]]))
  /\ (exists tr',
         invoke (world ∅ ∅ (answering (Throw (Error "API Error")))) stub_client
           (SendMessage me (VObj [("to", VStr "a@x.org")])) []
         = (Throw (Error "API Error"),
            tr' ++ [ConsoleError [VStr "Gmail API error: API Error"]])).
Proof.
  split.
  - apply (proj2 (proj2 (proj2 (facade_failure_normalised
             (world ∅ ∅ (answering (Throw (VStr "string error")))) stub_client
             (ListMessages me VUndefined) []))) (VStr "string error")).
    + apply answering_rejects.
    + exact I.
  - apply (proj2 (proj2 (proj2 (facade_failure_normalised
             (world ∅ ∅ (answering (Throw (Error "API Error")))) stub_client
             (SendMessage me (VObj [("to", VStr "a@x.org")])) [])))
             (Error "API Error")).
    + apply answering_rejects.
    + eexists. reflexivity.
Defined.

(** The tail shared by the list methods: [response.data.<field> || []]. *)
Lemma collection_run w client method params field response data tr :
  responding w client response ->
  prop response "data" = VObj data ->
  (let* response := api w client method params in
   let* data := get response "data" in
   let* items := get data field in
   ret (js_or items (VArr []))) tr
  = (Return (js_or (default VUndefined (Obj.get field data)) (VArr [])),
     tr ++ [ApiCall method params]).
Proof.
  intros Hresp Hdata.
  erewrite bind_Return by (rewrite api_run, Hresp; reflexivity).
  assert (Hnn : nullish response = false).
  { destruct response; try reflexivity; discriminate. }
  unfold get. rewrite Hnn, Hdata. reflexivity.
Qed.

Lemma collection_cases field data :
  (Obj.get field data = None ->
   js_or (default VUndefined (Obj.get field data)) (VArr []) = VArr [])
  /\ (forall items,
         Obj.get field data = Some (VArr items) ->
         js_or (default VUndefined (Obj.get field data)) (VArr []) = VArr items).
Proof.
  split.
  - intros ->. reflexivity.
  - intros items ->. reflexivity.
Qed.

(** C5: when the response of the remote carries a data object, each of the
    four list methods returns the empty list if the data object has no
    collection property ([messages], [labels], [threads]), and returns the
    collection itself if the property holds a list. *)
Theorem list_methods_default_empty (w : World) (client : GmailClient)
    (response : value) (data : list (string * value))
    (userId query options : value) (tr : list event) :
  responding w client response ->
  prop response "data" = VObj data ->
  (Obj.get "messages" data = None ->
   outcome (listMessages w client userId options tr) = Return (VArr [])
   /\ outcome (searchMessages w client userId query options tr) = Return (VArr []))
  /\ (forall items,
         Obj.get "messages" data = Some (VArr items) ->
         outcome (listMessages w client userId options tr) = Return (VArr items)
         /\ outcome (searchMessages w client userId query options tr)
            = Return (VArr items))
  /\ (Obj.get "labels" data = None ->
      outcome (listLabels w client userId tr) = Return (VArr []))
  /\ (forall items,
         Obj.get "labels" data = Some (VArr items) ->
         outcome (listLabels w client userId tr) = Return (VArr items))
  /\ (Obj.get "threads" data = None ->
      outcome (listThreads w client userId options tr) = Return (VArr []))
  /\ (forall items,
         Obj.get "threads" data = Some (VArr items) ->
         outcome (listThreads w client userId options tr) = Return (VArr items)).
Proof.
  intros Hresp Hdata.
  assert (Hlist : forall method params field,
             try_catch
               (let* response := api w client method params in
                let* data := get response "data" in
                let* items := get data field in
                ret (js_or items (VArr []))) handleError tr
             = (Return (js_or (default VUndefined (Obj.get field data)) (VArr [])),
                tr ++ [ApiCall method params])).
  { intros method params field. apply try_catch_Return.
    now apply collection_run with (response := response). }
  unfold listMessages, searchMessages, listLabels, listThreads,
    listMessages_try, searchMessages_try, listLabels_try, listThreads_try, outcome.
  rewrite !Hlist. cbn [fst].
  destruct (collection_cases "messages" data) as [Hm0 Hm1].
  destruct (collection_cases "labels" data) as [Hl0 Hl1].
  destruct (collection_cases "threads" data) as [Ht0 Ht1].
  repeat split; intros; f_equal; auto.
Qed.

Lemma list_methods_default_empty_witness :
  outcome (listMessages
             (world ∅ ∅ (answering (Return (VObj [("data", VObj [])]))))
             stub_client me VUndefined []) = Return (VArr [])
  /\ outcome (listLabels
                (world ∅ ∅ (answering
                   (Return (VObj [("data", VObj [("labels", VArr [inbox])])]))))
                stub_client VUndefined []) = Return (VArr [inbox]).
Proof.
  split.
  - apply (proj1 (list_methods_default_empty
             (world ∅ ∅ (answering (Return (VObj [("data", VObj [])]))))
             stub_client (VObj [("data", VObj [])]) [] me VUndefined VUndefined []
             (answering_responds _ _ _ _) eq_refl)).
    reflexivity.
  - apply (proj1 (proj2 (proj2 (proj2 (list_methods_default_empty
             (world ∅ ∅ (answering
                (Return (VObj [("data", VObj [("labels", VArr [inbox])])]))))
             stub_client (VObj [("data", VObj [("labels", VArr [inbox])])])
             [("labels", VArr [inbox])] VUndefined VUndefined VUndefined []
             (answering_responds _ _ _ _) eq_refl))))).
    reflexivity.
Defined.

(** ** Search is list with the query bound *)

Lemma get_set_same k v fields : Obj.get k (Obj.set k v fields) = Some v.
Proof.
  induction fields as [| [k' v'] fields IH]; cbn [Obj.set Obj.get].
  - now rewrite String.eqb_refl.
  - destruct (String.eqb k k') eqn:E; cbn [Obj.get]; rewrite E; [reflexivity | exact IH].
Qed.

Lemma get_set_other k k' v fields :
  String.eqb k' k = false ->
  Obj.get k' (Obj.set k v fields) = Obj.get k' fields.
Proof.
  intros Hne.
  induction fields as [| [k0 v0] fields IH]; cbn [Obj.set Obj.get].
  - now rewrite Hne.
  - destruct (String.eqb k k0) eqn:E; cbn [Obj.get].
    + apply String.eqb_eq in E. subst k0. now rewrite Hne.
    + destruct (String.eqb k' k0); [reflexivity | exact IH].
Qed.

Lemma with_q_query options query : opt_prop (with_q options query) "q" = query.
Proof.
  unfold with_q, opt_prop. cbn [nullish prop]. now rewrite get_set_same.
Qed.

Lemma with_q_other options query k :
  String.eqb k "q" = false ->
  opt_prop (with_q options query) k = opt_prop (optional options) k.
Proof.
  intros Hne. unfold with_q, opt_prop. cbn [nullish prop].
  rewrite (get_set_other "q" k query _ Hne).
  destruct options; reflexivity.
Qed.

(** C10: for every mailbox identifier, query and options record (or none),
    [searchMessages] is [listMessages] on the options with [q] set to the
    query: the same request reaches the same SDK call, and result, failure
    and trace are the same. *)
Theorem searchMessages_is_listMessages_with_q (w : World) (client : GmailClient)
    (userId query : value) (options : option (list (string * value)))
    (tr : list event) :
  searchMessages w client userId query (optional options) tr
  = listMessages w client userId (with_q options query) tr.
Proof.
  unfold searchMessages, listMessages, searchMessages_try, listMessages_try.
  rewrite with_q_query.
  rewrite !with_q_other by reflexivity.
  reflexivity.
Qed.

Example search_unread :
  trace (searchMessages (world ∅ ∅ (answering (Return (VObj [("data", VObj [])]))))
           stub_client VUndefined (VStr "is:unread")
           (VObj [("maxResults", int 10)]) [])
  = [ApiCall messages_list
       (VObj [("userId", VStr "me"); ("q", VStr "is:unread");
              ("maxResults", int 10); ("pageToken", VUndefined);
              ("includeSpamTrash", VUndefined); ("labelIds", VUndefined)])].
Proof. reflexivity. Qed.

(** ** The dispatcher *)

Lemma call_tool_table w client name toolArgs :
  call_tool w client name toolArgs
  = match tool_operation name toolArgs with
    | Some op =>
        let* r := invoke w client op in ret (text_content (JSON_stringify r))
    | None => ret (error_content (VStr ("Unknown tool: " +:+ name)))
    end.
Proof.
  unfold call_tool, tool_operation.
  repeat (match goal with
          | |- context [String.eqb name ?s] => destruct (String.eqb name s)
          end; [reflexivity |]).
  reflexivity.
Qed.

Lemma handler_catch_run error tr :
  handler_catch error tr = (Return (error_response error), tr ++ [tool_error_logged error]).
Proof. reflexivity. Qed.

(** C9: the handler always returns a payload and never throws. A failure of
    its [try] block, from credential resolution and client construction or
    from the facade call, becomes the payload
    [{content: [{type: 'text', text: 'Error: <message>'}], isError: true}],
    where the message is that of an [Error] and the string form of any other
    thrown value, and is logged as [Tool error: <message>]. When the client
    is built and the facade call of the tool returns, the payload is
    [{content: [{type: 'text', text}]}] with the text [JSON.stringify] gives
    for the result, and carries no error flag. A name that is no tool gives,
    once the client is built, the error-flagged text [Unknown tool: <name>]. *)
Theorem handler_never_throws (w : World) (name : string) (args : value)
    (tr : list event) :
  let failure error :=
    match error with
    | VError message _ => message
    | _ => ToString error
    end in
  let error_payload error :=
    VObj [("content",
           VArr [VObj [("type", VStr "text");
                       ("text", VStr ("Error: " +:+ failure error))]]);
          ("isError", VBool true)] in
  let log error := ConsoleError [VStr ("Tool error: " +:+ failure error)] in
  (exists payload tr', handler w name args tr = (Return payload, tr'))
  /\ (forall error tr',
         handler_try w name (toolArgs_of args) (tokens_of args) tr
         = (Throw error, tr') ->
         handler w name args tr
         = (Return (error_payload error), tr' ++ [log error]))
  /\ (forall error tr',
         createGmailClient w (VObj [("tokens", tokens_of args)]) tr
         = (Throw error, tr') ->
         handler w name args tr
         = (Return (error_payload error), tr' ++ [log error]))
  /\ (forall client tr1 op error tr2,
         createGmailClient w (VObj [("tokens", tokens_of args)]) tr
         = (Return client, tr1) ->
         tool_operation name (toolArgs_of args) = Some op ->
         invoke w client op tr1 = (Throw error, tr2) ->
         handler w name args tr
         = (Return (error_payload error), tr2 ++ [log error]))
  /\ (forall client tr1 op r tr2,
         createGmailClient w (VObj [("tokens", tokens_of args)]) tr
         = (Return client, tr1) ->
         tool_operation name (toolArgs_of args) = Some op ->
         invoke w client op tr1 = (Return r, tr2) ->
         handler w name args tr
         = (Return
              (VObj [("content",
                      VArr [VObj [("type", VStr "text");
                                  ("text", JSON_stringify r)]])]),
            tr2))
  /\ (forall client tr1,
         createGmailClient w (VObj [("tokens", tokens_of args)]) tr
         = (Return client, tr1) ->
         tool_operation name (toolArgs_of args) = None ->
         handler w name args tr
         = (Return
              (VObj [("content",
                      VArr [VObj [("type", VStr "text");
                                  ("text", VStr ("Unknown tool: " +:+ name))]]);
                     ("isError", VBool true)]),
            tr1)).
Proof.
  intros failure error_payload log.
  assert (Hcatch : forall error tr',
             handler_try w name (toolArgs_of args) (tokens_of args) tr
             = (Throw error, tr') ->
             handler w name args tr
             = (Return (error_payload error), tr' ++ [log error])).
  { intros error tr' Hfail. unfold handler.
    fold (toolArgs_of args). fold (tokens_of args).
    rewrite (try_catch_Throw _ _ _ _ _ Hfail). apply handler_catch_run. }
  split; [| split; [exact Hcatch | split; [| split; [| split]]]].
  - destruct (handler_try w name (toolArgs_of args) (tokens_of args) tr)
      as [[payload | error] tr'] eqn:Hrun.
    + exists payload, tr'. unfold handler.
      fold (toolArgs_of args). fold (tokens_of args).
      now apply try_catch_Return.
    + eexists _, _. now apply Hcatch.
  - intros error tr' Hfail. apply Hcatch.
    unfold handler_try. now apply bind_Throw.
  - intros client tr1 op error tr2 Hclient Hop Hfail. apply Hcatch.
    unfold handler_try. rewrite (bind_Return _ _ _ _ _ Hclient).
    rewrite call_tool_table, Hop. now apply bind_Throw.
  - intros client tr1 op r tr2 Hclient Hop Hrun. unfold handler.
    fold (toolArgs_of args). fold (tokens_of args).
    apply try_catch_Return.
    unfold handler_try. rewrite (bind_Return _ _ _ _ _ Hclient).
    rewrite call_tool_table, Hop. now rewrite (bind_Return _ _ _ _ _ Hrun).
  - intros client tr1 Hclient Hop. unfold handler.
    fold (toolArgs_of args). fold (tokens_of args).
    apply try_catch_Return.
    unfold handler_try. rewrite (bind_Return _ _ _ _ _ Hclient).
    now rewrite call_tool_table, Hop.
Qed.

Lemma handler_never_throws_witness :
  handler world_empty "gmailListLabels" VUndefined []
  = (Return
       (VObj [("content",
               VArr [VObj [("type", VStr "text");
                           ("text", VStr ("Error: " +:+ no_tokens_message))]]);
              ("isError", VBool true)]),
     [EnvRead "GMAIL_TOKEN"; EnvRead "GMAIL_TOKEN_FILE";
      ExistsSync "/srv/app/token.json"]
     ++ [ConsoleError [VStr ("Tool error: " +:+ no_tokens_message)]])
  /\ handler world_labels "gmailListLabels" (VObj []) []
     = (Return
          (VObj [("content",
                  VArr [VObj [("type", VStr "text");
                              ("text",
                               VStr ("[" +:+ object_text
                                               [member "id" (quoted "INBOX");
                                                member "name" (quoted "INBOX")]
                                     +:+ "]"))]])]),
        [EnvRead "GMAIL_TOKEN"; EnvRead "GOOGLE_CLIENT_ID";
         EnvRead "GOOGLE_CLIENT_SECRET"; EnvRead "GOOGLE_REDIRECT_URL";
         ApiCall labels_list (VObj [("userId", VStr "me")])]).
Proof.
  split.
  - apply (proj1 (proj2 (proj2
             (handler_never_throws world_empty "gmailListLabels" VUndefined [])))
             (Error no_tokens_message)).
    vm_compute. reflexivity.
  - apply (proj1 (proj2 (proj2 (proj2 (proj2
             (handler_never_throws world_labels "gmailListLabels" (VObj []) [])))))
             labels_client
             [EnvRead "GMAIL_TOKEN"; EnvRead "GOOGLE_CLIENT_ID";
              EnvRead "GOOGLE_CLIENT_SECRET"; EnvRead "GOOGLE_REDIRECT_URL"]
             (ListLabels VUndefined) (VArr [inbox])).
    + vm_compute. reflexivity.
    + reflexivity.
    + vm_compute. reflexivity.
Defined.


(** * Further properties *)

(** ** Credential resolution: what is read, what can fail *)

Lemma resolveTokens_falsy w provided tr :
  truthy provided = false ->
  resolveTokens w provided tr = resolveTokens w VUndefined tr.
Proof. intros H. unfold resolveTokens. now rewrite H. Qed.

Lemma env_falsy_blank w :
  truthy (env_value w "GMAIL_TOKEN") = false -> env_token_blank w.
Proof.
  unfold env_value, env_token_blank.
  destruct (process_env w !! "GMAIL_TOKEN") as [[| c s] |]; cbn;
    [now right | discriminate | now left].
Qed.

Lemma env_truthy_set w :
  truthy (env_value w "GMAIL_TOKEN") = true ->
  exists s, process_env w !! "GMAIL_TOKEN" = Some s /\ s <> EmptyString.
Proof.
  unfold env_value.
  destruct (process_env w !! "GMAIL_TOKEN") as [[| c s] |]; cbn;
    try discriminate.
  intros _. eexists. split; [reflexivity | discriminate].
Qed.

(** X1: [resolveTokens] does nothing but read, in a fixed order: its trace
    grows by a prefix of GMAIL_TOKEN, GMAIL_TOKEN_FILE, existsSync and
    readFileSync of the token path. Nothing is read for a truthy supplied
    value, only GMAIL_TOKEN when that variable is non-empty (the file system
    is not touched), and the file is read only when it exists. *)
Theorem resolveTokens_only_reads (w : World) (provided : value)
    (tr : list event) :
  trace (resolveTokens w provided tr)
  = tr ++ firstn (reads_needed w provided) (resolution_events w).
Proof.
  unfold reads_needed, trace.
  destruct (truthy provided) eqn:Hp.
  { unfold resolveTokens. rewrite Hp. cbn. now rewrite app_nil_r. }
  rewrite (resolveTokens_falsy w provided tr Hp).
  destruct (truthy (env_value w "GMAIL_TOKEN")) eqn:He.
  - destruct (env_truthy_set w He) as (s & Hs & Hne).
    rewrite (resolveTokens_env w tr s Hs Hne).
    destruct (JSON_parse s); reflexivity.
  - rewrite (resolveTokens_file w tr (env_falsy_blank w He)).
    destruct (fs w !! tokenPath w) as [[content |] |]; cbn [firstn resolution_events].
    + destruct (JSON_parse content); cbn [snd]; now rewrite <- app_assoc.
    + cbn [snd]. now rewrite <- app_assoc.
    + reflexivity.
Qed.

(** X2: whatever fails inside, [resolveTokens] throws one of its own three
    errors; the [SyntaxError] of [JSON.parse] and the error of the file
    system never reach the caller. *)
Theorem resolveTokens_throws_own_errors (w : World) (provided : value)
    (tr : list event) (error : value) :
  outcome (resolveTokens w provided tr) = Throw error ->
  error = Error env_invalid_message
  \/ error = Error (file_failed_message (tokenPath w))
  \/ error = Error no_tokens_message.
Proof.
  unfold outcome.
  destruct (truthy provided) eqn:Hp.
  { unfold resolveTokens. rewrite Hp. discriminate. }
  rewrite (resolveTokens_falsy w provided tr Hp).
  destruct (truthy (env_value w "GMAIL_TOKEN")) eqn:He.
  - destruct (env_truthy_set w He) as (s & Hs & Hne).
    rewrite (resolveTokens_env w tr s Hs Hne).
    destruct (JSON_parse s); cbn; [discriminate |].
    intros [= <-]. now left.
  - rewrite (resolveTokens_file w tr (env_falsy_blank w He)).
    destruct (fs w !! tokenPath w) as [[content |] |]; cbn.
    + destruct (JSON_parse content); cbn; [discriminate |].
      intros [= <-]. right. now left.
    + intros [= <-]. right. now left.
    + intros [= <-]. right. now right.
Qed.

Lemma resolveTokens_throws_own_errors_witness :
  outcome (resolveTokens world_bad_file VUndefined [])
  = Throw (Error "Failed to read or parse token file at /srv/app/token.json")
  /\ (Error "Failed to read or parse token file at /srv/app/token.json"
      = Error env_invalid_message
      \/ Error "Failed to read or parse token file at /srv/app/token.json"
         = Error (file_failed_message (tokenPath world_bad_file))
      \/ Error "Failed to read or parse token file at /srv/app/token.json"
         = Error no_tokens_message).
Proof.
  split; [vm_compute; reflexivity |].
  apply (resolveTokens_throws_own_errors world_bad_file VUndefined []).
  vm_compute. reflexivity.
Defined.

Lemma same_sources_blank w1 w2 :
  same_sources w1 w2 -> env_token_blank w1 -> env_token_blank w2.
Proof.
  intros (Henv & _) Hblank. unfold env_token_blank in *. now rewrite <- Henv.
Qed.

(** X3: the run of [resolveTokens] depends on the world only through
    GMAIL_TOKEN, GMAIL_TOKEN_FILE, the resolved token path and the file at
    that path: other variables, other files and the remote service do not
    matter. *)
Theorem resolveTokens_same_sources (w1 w2 : World) (provided : value)
    (tr : list event) :
  same_sources w1 w2 ->
  resolveTokens w1 provided tr = resolveTokens w2 provided tr.
Proof.
  intros Hsame. pose proof Hsame as (Henv & Hfilevar & Hpath & Hfile).
  destruct (truthy provided) eqn:Hp.
  { unfold resolveTokens. now rewrite Hp. }
  rewrite !(resolveTokens_falsy _ provided tr Hp).
  destruct (truthy (env_value w1 "GMAIL_TOKEN")) eqn:He.
  - destruct (env_truthy_set w1 He) as (s & Hs & Hne).
    rewrite (resolveTokens_env w1 tr s Hs Hne).
    rewrite Henv in Hs.
    now rewrite (resolveTokens_env w2 tr s Hs Hne).
  - pose proof (env_falsy_blank w1 He) as Hblank.
    rewrite (resolveTokens_file w1 tr Hblank).
    rewrite (resolveTokens_file w2 tr (same_sources_blank w1 w2 Hsame Hblank)).
    now rewrite Hfile, Hpath.
Qed.

Lemma resolveTokens_same_sources_witness :
  same_sources world_file_only world_file_and_more
  /\ resolveTokens world_file_only VUndefined []
     = resolveTokens world_file_and_more VUndefined [].
Proof.
  assert (H : same_sources world_file_only world_file_and_more).
  { repeat split; vm_compute; reflexivity. }
  split; [exact H |].
  apply (resolveTokens_same_sources world_file_only world_file_and_more
           VUndefined [] H).
Defined.

(** ** The constructor: unvalidated credentials, OAuth settings *)

Lemma either_name_value tokens snake camel tr :
  nullish tokens = false ->
  either_name tokens snake camel tr
  = (Return (js_or (prop tokens snake) (prop tokens camel)), tr).
Proof.
  intros H. unfold either_name, get, bind, ret, js_or. rewrite H.
  destruct (truthy (prop tokens snake)); reflexivity.
Qed.

Lemma normalizedTokens_value tokens tr :
  nullish tokens = false ->
  normalizedTokens tokens tr
  = (Return (VObj [("access_token",
                    js_or (prop tokens "access_token") (prop tokens "accessToken"));
                   ("refresh_token",
                    js_or (prop tokens "refresh_token") (prop tokens "refreshToken"));
                   ("expiry_date",
                    js_or (prop tokens "expiry_date") (prop tokens "expiryDate"));
                   ("token_type",
                    js_or (prop tokens "token_type") (prop tokens "tokenType"))]),
     tr).
Proof.
  intros H. unfold normalizedTokens.
  repeat (erewrite bind_Return by (apply either_name_value; exact H)).
  reflexivity.
Qed.

Lemma normalizedTokens_nullish tokens tr :
  nullish tokens = true ->
  normalizedTokens tokens tr
  = (Throw (Error ("Cannot read properties of " +:+ ToString tokens
                   +:+ " (reading 'access_token')")), tr).
Proof.
  intros H. unfold normalizedTokens, either_name, get, bind, throw.
  now rewrite H.
Qed.

Lemma new_GmailClient_value w tokens tr :
  nullish tokens = false ->
  exists normalized,
    normalizedTokens tokens (tr ++ oauth_reads) = (Return normalized, tr ++ oauth_reads)
    /\ new_GmailClient w tokens tr
       = (Return {| oauth2Client :=
                      {| clientId := env_value w "GOOGLE_CLIENT_ID";
                         clientSecret := env_value w "GOOGLE_CLIENT_SECRET";
                         redirectUri :=
                           js_or (env_value w "GOOGLE_REDIRECT_URL") default_redirect;
                         credentials := normalized |} |},
          tr ++ oauth_reads).
Proof.
  intros H. eexists. split; [apply normalizedTokens_value; exact H |].
  unfold new_GmailClient.
  repeat (erewrite bind_Return by apply getenv_run).
  rewrite <- !app_assoc. cbn [app]. fold oauth_reads.
  erewrite bind_Return by (apply normalizedTokens_value; exact H).
  reflexivity.
Qed.

Lemma new_GmailClient_nullish w tokens tr :
  nullish tokens = true ->
  new_GmailClient w tokens tr
  = (Throw (Error ("Cannot read properties of " +:+ ToString tokens
                   +:+ " (reading 'access_token')")), tr ++ oauth_reads).
Proof.
  intros H. unfold new_GmailClient.
  repeat (erewrite bind_Return by apply getenv_run).
  rewrite <- !app_assoc. cbn [app]. fold oauth_reads.
  erewrite bind_Throw by (apply normalizedTokens_nullish; exact H).
  reflexivity.
Qed.

(** X4: what [GMAIL_TOKEN] parses to is not validated. When it is the JSON
    text [null], building the client throws the runtime's error for reading
    a property of [null]; when it is any other JSON value that is not an
    object (a number, a string, a boolean, an array), the client is built,
    with all four credentials undefined. *)
Theorem createGmailClient_unvalidated (w : World) (s : string) (v : value)
    (tr : list event) :
  process_env w !! "GMAIL_TOKEN" = Some s ->
  JSON_parse s = Some v ->
  (v = VNull ->
   outcome (createGmailClient w VUndefined tr)
   = Throw (Error "Cannot read properties of null (reading 'access_token')"))
  /\ (not_an_object v = true ->
      exists client,
        outcome (createGmailClient w VUndefined tr) = Return client
        /\ credentials (oauth2Client client) = no_credentials).
Proof.
  intros Henv Hparse.
  assert (Hs : s <> EmptyString).
  { intros ->. rewrite JSON_parse_empty in Hparse. discriminate. }
  assert (Hres : resolveTokens w VUndefined tr = (Return v, tr ++ [EnvRead "GMAIL_TOKEN"])).
  { rewrite (resolveTokens_env w tr s Henv Hs). now rewrite Hparse. }
  unfold createGmailClient, outcome. cbn [opt_prop nullish].
  rewrite (bind_Return _ _ _ _ _ Hres).
  split.
  - intros ->. now rewrite new_GmailClient_nullish.
  - intros Hv.
    assert (Hnn : nullish v = false) by (destruct v; try reflexivity; discriminate).
    destruct (new_GmailClient_value w v (tr ++ [EnvRead "GMAIL_TOKEN"]) Hnn)
      as (normalized & Hnorm & Hnew).
    rewrite Hnew. eexists. split; [reflexivity |]. cbn [credentials oauth2Client].
    rewrite (normalizedTokens_value v _ Hnn) in Hnorm.
    injection Hnorm as <-.
    destruct v; try discriminate; reflexivity.
Qed.

Lemma createGmailClient_unvalidated_witness :
  outcome (createGmailClient world_null_token VUndefined [])
  = Throw (Error "Cannot read properties of null (reading 'access_token')")
  /\ exists client,
       outcome (createGmailClient world_number_token VUndefined []) = Return client
       /\ credentials (oauth2Client client) = no_credentials.
Proof.
  split.
  - apply (proj1 (createGmailClient_unvalidated world_null_token "null" VNull []
                    ltac:(vm_compute; reflexivity) ltac:(vm_compute; reflexivity))).
    reflexivity.
  - apply (proj2 (createGmailClient_unvalidated world_number_token "42" (int 42) []
                    ltac:(vm_compute; reflexivity) ltac:(vm_compute; reflexivity))).
    reflexivity.
Defined.

(** X5: a client that is built always has a non-empty redirect URL: the
    value of GOOGLE_REDIRECT_URL when that is set and not empty, else the
    localhost default. The client id and secret are the values of
    GOOGLE_CLIENT_ID and GOOGLE_CLIENT_SECRET as they are, undefined
    included. *)
Theorem client_oauth_settings (w : World) (tokens : value) (tr tr' : list event)
    (client : GmailClient) :
  new_GmailClient w tokens tr = (Return client, tr') ->
  truthy (redirectUri (oauth2Client client)) = true
  /\ (process_env w !! "GOOGLE_REDIRECT_URL" = None
      \/ process_env w !! "GOOGLE_REDIRECT_URL" = Some EmptyString ->
      redirectUri (oauth2Client client) = default_redirect)
  /\ (forall url,
         process_env w !! "GOOGLE_REDIRECT_URL" = Some url -> url <> EmptyString ->
         redirectUri (oauth2Client client) = VStr url)
  /\ clientId (oauth2Client client) = env_value w "GOOGLE_CLIENT_ID"
  /\ clientSecret (oauth2Client client) = env_value w "GOOGLE_CLIENT_SECRET".
Proof.
  intros Hnew.
  destruct (nullish tokens) eqn:Hn.
  { rewrite (new_GmailClient_nullish w tokens tr Hn) in Hnew. discriminate. }
  destruct (new_GmailClient_value w tokens tr Hn) as (normalized & _ & Hrun).
  rewrite Hrun in Hnew. injection Hnew as <- _.
  cbn [oauth2Client redirectUri clientId clientSecret].
  unfold env_value at 1 2 3.
  repeat split.
  - destruct (process_env w !! "GOOGLE_REDIRECT_URL") as [[| c url] |]; reflexivity.
  - intros [-> | ->]; reflexivity.
  - intros url -> Hurl. unfold js_or. now rewrite (truthy_nonempty url Hurl).
Qed.

Lemma client_oauth_settings_witness :
  exists client tr',
    new_GmailClient world_redirect (VObj []) [] = (Return client, tr')
    /\ redirectUri (oauth2Client client) = VStr "https://app.example/cb"
    /\ clientId (oauth2Client client) = VUndefined.
Proof.
  eexists _, _. split; [vm_compute; reflexivity |].
  split.
  - refine (proj1 (proj2 (proj2 (client_oauth_settings world_redirect (VObj []) [] _ _
                                   ltac:(vm_compute; reflexivity))))
              "https://app.example/cb" _ _);
      [vm_compute; reflexivity | discriminate].
  - reflexivity.
Defined.

(** X6: the client built from a bundle depends on the bundle only through
    the eight token property names: two bundles that agree on those give the
    same run and the same client, so no other property of a bundle (a scope,
    an id token) reaches the credentials. *)
Theorem client_reads_token_names_only (w : World)
    (bundle1 bundle2 : list (string * value)) (tr : list event) :
  Forall (fun k => prop (VObj bundle1) k = prop (VObj bundle2) k) token_names ->
  new_GmailClient w (VObj bundle1) tr = new_GmailClient w (VObj bundle2) tr.
Proof.
  intros Hagree.
  destruct (new_GmailClient_value w (VObj bundle1) tr eq_refl) as (n1 & H1 & ->).
  destruct (new_GmailClient_value w (VObj bundle2) tr eq_refl) as (n2 & H2 & ->).
  rewrite (normalizedTokens_value (VObj bundle1) _ eq_refl) in H1.
  rewrite (normalizedTokens_value (VObj bundle2) _ eq_refl) in H2.
  injection H1 as <-. injection H2 as <-.
  unfold token_names in Hagree.
  repeat (apply Forall_cons_iff in Hagree; destruct Hagree as [E Hagree];
          cbn [prop] in E; rewrite E; clear E).
  reflexivity.
Qed.

Lemma client_reads_token_names_only_witness :
  new_GmailClient world_empty
    (VObj [("access_token", VStr "a"); ("scope", VStr "mail")]) []
  = new_GmailClient world_empty (VObj [("access_token", VStr "a")]) [].
Proof.
  apply (client_reads_token_names_only world_empty
           [("access_token", VStr "a"); ("scope", VStr "mail")]
           [("access_token", VStr "a")] []).
  repeat constructor.
Defined.

(** ** The facade: one call, no retry, what is relayed *)

Lemma silent_ret {A} (a : A) : silent (ret a).
Proof. intros tr. reflexivity. Qed.

Lemma silent_throw {A} error : silent (@throw A error).
Proof. intros tr. reflexivity. Qed.

Lemma silent_get v k : silent (get v k).
Proof. intros tr. unfold get. destruct (nullish v); reflexivity. Qed.

Lemma silent_has_in k v : silent (has_in k v).
Proof. intros tr. destruct v; reflexivity. Qed.

Lemma silent_bind {A B} (m : M A) (k : A -> M B) :
  silent m -> (forall a, silent (k a)) -> silent (bind m k).
Proof.
  intros Hm Hk tr. unfold bind. specialize (Hm tr).
  destruct (m tr) as [[a | error] tr']; cbn [snd] in Hm; subst tr'.
  - apply Hk.
  - reflexivity.
Qed.

Lemma silent_if {A} (b : bool) (m1 m2 : M A) :
  silent m1 -> silent m2 -> silent (if b then m1 else m2).
Proof. destruct b; trivial. Qed.

Create HintDb silent.
#[local] Hint Resolve silent_ret silent_throw silent_get silent_has_in
  silent_if : silent.

Lemma silent_buildMessage options : silent (buildMessage options).
Proof.
  unfold buildMessage.
  repeat (apply silent_bind; [auto with silent | intros ?]).
  apply silent_ret.
Qed.

Lemma silent_outcome {A} (m : M A) tr :
  silent m -> m tr = (fst (m tr), tr).
Proof.
  intros H. specialize (H tr). destruct (m tr) as [r tr']. cbn in *. now subst.
Qed.

Lemma one_call_api {A} w client method mailbox params (post : value -> M A) :
  prop params "userId" = mailbox ->
  (forall response, silent (post response)) ->
  one_call method mailbox (bind (api w client method params) post).
Proof.
  intros Hbox Hpost tr. right. unfold bind. rewrite api_run.
  destruct (gmail_api w (oauth2Client client) method params) as [response | error].
  - exists params, (fst (post response (tr ++ [ApiCall method params]))).
    split; [now apply silent_outcome | exact Hbox].
  - exists params, (Throw error). split; [reflexivity | exact Hbox].
Qed.

Lemma one_call_bind {A B} method mailbox (m : M A) (k : A -> M B) :
  silent m -> (forall a, one_call method mailbox (k a)) ->
  one_call method mailbox (bind m k).
Proof.
  intros Hm Hk tr. unfold bind. rewrite (silent_outcome m tr Hm).
  destruct (fst (m tr)) as [a | error].
  - apply Hk.
  - left. now exists error.
Qed.

Lemma attempt_one_call w client op :
  one_call (method_of op) (mailbox_of op) (attempt w client op).
Proof.
  destruct op; cbn [attempt method_of mailbox_of];
    unfold listMessages_try, getMessage_try, searchMessages_try,
      sendMessage_try, createDraft_try, listLabels_try,
      modifyMessageLabels_try, trashMessage_try, untrashMessage_try,
      listThreads_try, getThread_try;
    repeat (apply one_call_bind;
            [first [apply silent_buildMessage | apply silent_get] | intros ?]);
    (apply one_call_api; [reflexivity |]);
    intros response;
    repeat (apply silent_bind; [auto with silent | intros ?]);
    auto with silent.
Qed.

(** X7: a facade method never retries and never calls another endpoint.
    When it returns, the run has made exactly one call, of its own SDK
    method and for the mailbox it was given (or [me]), and has logged
    nothing. When it throws, what it throws is an [Error], exactly one line
    has been logged, and at most that one call was made before it. *)
Theorem facade_one_call (w : World) (client : GmailClient) (op : operation)
    (tr : list event) :
  (forall r tr',
      invoke w client op tr = (Return r, tr') ->
      exists params,
        tr' = tr ++ [ApiCall (method_of op) params]
        /\ prop params "userId" = mailbox_of op)
  /\ (forall error tr',
         invoke w client op tr = (Throw error, tr') ->
         instanceof_Error error = true
         /\ exists line,
              tr' = tr ++ [ConsoleError line]
              \/ exists params,
                   tr' = tr ++ [ApiCall (method_of op) params; ConsoleError line]
                   /\ prop params "userId" = mailbox_of op).
Proof.
  rewrite invoke_try_catch. unfold try_catch.
  destruct (attempt_one_call w client op tr)
    as [[e He] | (params & res & Hrun & Hbox)].
  - rewrite He, handleError_run. split; [discriminate |].
    intros error tr' [= <- <-]. split; [destruct e; reflexivity |].
    destruct e; eexists; left; reflexivity.
  - rewrite Hrun. destruct res as [r | e].
    + split; [| discriminate].
      intros r' tr' [= <- <-]. now exists params.
    + rewrite handleError_run. split; [discriminate |].
      intros error tr' [= <- <-]. split; [destruct e; reflexivity |].
      destruct e; eexists; right; exists params;
        (split; [now rewrite <- app_assoc | exact Hbox]).
Qed.

Lemma facade_one_call_witness :
  exists params,
    [ApiCall messages_trash (VObj [("userId", VStr "me"); ("id", VStr "m1")])]
    = [] ++ [ApiCall (method_of (TrashMessage VUndefined (VStr "m1"))) params]
    /\ prop params "userId" = VStr "me".
Proof.
  apply (proj1 (facade_one_call
                  (world ∅ ∅ (answering (Return (VObj [("data", VObj [])]))))
                  stub_client (TrashMessage VUndefined (VStr "m1")) [])
           (VObj [])).
  reflexivity.
Defined.

(** X8: the methods that are not list methods (getMessage, sendMessage,
    createDraft, modifyMessageLabels, trashMessage, untrashMessage,
    getThread) hand back [response.data] exactly as the remote gave it, with
    no default: a response without data gives [undefined]. *)
Theorem facade_relays_data (w : World) (client : GmailClient) (op : operation)
    (response : value) (tr : list event) :
  relays_data op -> options_given op ->
  responding w client response -> nullish response = false ->
  outcome (invoke w client op tr) = Return (prop response "data").
Proof.
  intros Hrelay Hopt Hresp Hnn.
  rewrite invoke_try_catch. unfold outcome.
  assert (Hget : forall tr', get response "data" tr' = (Return (prop response "data"), tr')).
  { intros tr'. unfold get. now rewrite Hnn. }
  destruct op; cbn [relays_data options_given] in *; try contradiction;
    try match type of Hopt with ex _ => destruct Hopt as [fields ->] end;
    cbn [attempt];
    unfold getMessage_try, sendMessage_try, createDraft_try,
      modifyMessageLabels_try, trashMessage_try, untrashMessage_try,
      getThread_try;
    erewrite try_catch_Return; try reflexivity;
    try (erewrite bind_Return by apply buildMessage_run);
    repeat (erewrite bind_Return by reflexivity);
    (erewrite bind_Return by (rewrite api_run, Hresp; reflexivity));
    apply Hget.
Qed.

Lemma facade_relays_data_witness :
  outcome (invoke (world ∅ ∅ (answering (Return (VObj [("status", int 200)]))))
             stub_client (GetThread VUndefined (VStr "t1") VUndefined) [])
  = Return VUndefined.
Proof.
  apply (facade_relays_data
           (world ∅ ∅ (answering (Return (VObj [("status", int 200)]))))
           stub_client (GetThread VUndefined (VStr "t1") VUndefined)
           (VObj [("status", int 200)]) []).
  - exact I.
  - exact I.
  - apply answering_responds.
  - reflexivity.
Defined.

(** X9: sendMessage, createDraft and modifyMessageLabels called without an
    options argument ([undefined] or [null]) fail before the remote is
    called: the run throws an [Error], logs its message once and makes no
    call. *)
Theorem facade_missing_options (w : World) (client : GmailClient)
    (op : operation) (tr : list event) :
  options_missing op ->
  exists message,
    invoke w client op tr
    = (Throw (Error message),
       tr ++ [ConsoleError [VStr ("Gmail API error: " +:+ message)]]).
Proof.
  intros Hmiss. rewrite invoke_try_catch.
  assert (Hfail : exists message,
             attempt w client op tr = (Throw (Error message), tr)).
  { destruct op; cbn [options_missing] in Hmiss; try contradiction;
      cbn [attempt];
      unfold sendMessage_try, createDraft_try, modifyMessageLabels_try,
        buildMessage;
      eexists;
      repeat (erewrite bind_Throw; [reflexivity |]);
      unfold get; rewrite Hmiss; reflexivity. }
  destruct Hfail as [message Hfail]. exists message.
  rewrite (try_catch_Throw _ _ _ _ _ Hfail). apply handleError_run.
Qed.

Lemma facade_missing_options_witness :
  exists message,
    invoke world_empty stub_client (SendMessage me VUndefined) []
    = (Throw (Error message),
       [] ++ [ConsoleError [VStr ("Gmail API error: " +:+ message)]]).
Proof.
  apply (facade_missing_options world_empty stub_client
           (SendMessage me VUndefined) []).
  reflexivity.
Defined.

(** ** Drafts and the text of the envelope *)

Lemma createDraft_trace w client userId options tr :
  exists rest,
    trace (createDraft w client userId (VObj options) tr)
    = tr ++ ApiCall drafts_create (draft_request userId options) :: rest.
Proof.
  unfold createDraft, createDraft_try, trace.
  unfold try_catch at 1.
  erewrite bind_Return by apply buildMessage_run.
  erewrite bind_Return by reflexivity.
  unfold bind at 1. unfold api at 1. fold (draft_request userId options).
  destruct (gmail_api w (oauth2Client client) drafts_create
              (draft_request userId options)) as [response | error].
  - unfold get. destruct (nullish response).
    + unfold throw, handleError, Error, bind, console_error, emit.
      eexists. cbn [snd]. rewrite <- app_assoc. reflexivity.
    + exists []. reflexivity.
  - unfold handleError.
    destruct error; unfold bind, console_error, emit, throw;
      eexists; cbn [snd]; rewrite <- app_assoc; reflexivity.
Qed.

(** X10: for the same options object, [createDraft] and [sendMessage]
    transmit the same Base64 text, the encoding of the one envelope
    [buildMessage] makes of the options (threading headers included when the
    object carries an inReplyTo). The draft carries it under
    [requestBody.message] with the thread id, and forwards no label ids. *)
Theorem createDraft_same_envelope (w : World) (client : GmailClient)
    (userId : value) (options : list (string * value)) (tr : list event) :
  exists email draft sent rest_draft rest_sent,
    buildMessage (VObj options) tr = (Return email, tr)
    /\ trace (createDraft w client userId (VObj options) tr)
       = tr ++ ApiCall drafts_create draft :: rest_draft
    /\ trace (sendMessage w client userId (VObj options) tr)
       = tr ++ ApiCall messages_send sent :: rest_sent
    /\ prop (prop (prop draft "requestBody") "message") "raw"
       = VStr (Base64.encode email)
    /\ prop (prop sent "requestBody") "raw" = VStr (Base64.encode email)
    /\ prop (prop (prop draft "requestBody") "message") "threadId"
       = prop (VObj options) "threadId"
    /\ prop (prop (prop draft "requestBody") "message") "labelIds" = VUndefined
    /\ prop (prop draft "requestBody") "labelIds" = VUndefined.
Proof.
  destruct (createDraft_trace w client userId options tr) as [rest_draft Hd].
  destruct (sendMessage_trace w client userId options tr) as [rest_sent Hs].
  exists (envelope (headers_of options) (body_of options)),
    (draft_request userId options), (send_request userId options),
    rest_draft, rest_sent.
  split; [apply buildMessage_run |].
  split; [exact Hd |]. split; [exact Hs |].
  repeat split.
Qed.

(** X11: [buildMessage] copies its text verbatim. For recipients, a subject
    and a body given as strings, the first header is [To: ] followed by the
    recipient, or by the recipients of a list joined by a comma and nothing
    else; the second is [Subject: ] followed by the subject (by the
    placeholder when the subject is the empty string), and the body follows
    the empty line unchanged: nothing is encoded, folded or escaped. *)
Theorem envelope_verbatim (options : list (string * value))
    (to subject body : string) (tr : list event) :
  (prop (VObj options) "to" = VStr to
   \/ exists recipients,
        prop (VObj options) "to" = VArr (map VStr recipients)
        /\ to = String.concat "," recipients) ->
  prop (VObj options) "subject" = VStr subject ->
  prop (VObj options) "body" = VStr body ->
  buildMessage (VObj options) tr
  = (Return
       (envelope
          (("To: " +:+ to)
           :: ("Subject: "
               +:+ (if String.eqb subject EmptyString then "(no subject)"
                    else subject))
           :: skipn 2 (headers_of options))
          body), tr).
Proof.
  intros Hto Hsubject Hbody. rewrite buildMessage_run.
  unfold headers_of, body_of, recipients_of. cbn [skipn app].
  rewrite Hsubject, Hbody.
  assert (Hrecipients :
    match prop (VObj options) "to" with
    | VArr items => join "," items
    | v => ToString v
    end = to).
  { destruct Hto as [-> | (recipients & -> & ->)]; [reflexivity |].
    apply join_strings. }
  rewrite Hrecipients. unfold js_or. cbn [truthy].
  destruct (String.eqb subject EmptyString), (String.eqb body EmptyString) eqn:Hb;
    cbn [negb ToString]; try reflexivity;
    apply String.eqb_eq in Hb; subst body; reflexivity.
Qed.

Lemma envelope_verbatim_witness :
  buildMessage (VObj draft_options) []
  = (Return (envelope ["To: a@x.org,b@x.org"; "Subject: (no subject)";
                       "Content-Type: text/plain; charset=" +:+ quoted "UTF-8";
                       "MIME-Version: 1.0"] "line one"), []).
Proof.
  apply (envelope_verbatim draft_options "a@x.org,b@x.org" EmptyString
           "line one" []).
  - right. exists ["a@x.org"; "b@x.org"]. split; reflexivity.
  - reflexivity.
  - reflexivity.
Defined.

(** ** The dispatcher and the registry *)

Lemma handler_try_table w nm toolArgs tokens tr :
  handler_try w nm toolArgs tokens tr
  = bind (createGmailClient w (VObj [("tokens", tokens)]))
      (fun client =>
         match tool_operation nm toolArgs with
         | Some op =>
             let* r := invoke w client op in ret (text_content (JSON_stringify r))
         | None => ret (error_content (VStr ("Unknown tool: " +:+ nm)))
         end) tr.
Proof.
  unfold handler_try, bind.
  destruct (createGmailClient w (VObj [("tokens", tokens)]) tr)
    as [[client | error] tr']; [| reflexivity].
  now rewrite call_tool_table.
Qed.

Lemma tool_operation_registered nm toolArgs :
  In nm tool_names -> exists op, tool_operation nm toolArgs = Some op.
Proof.
  intros Hin. cbn in Hin.
  repeat (destruct Hin as [<- | Hin]; [eexists; reflexivity |]).
  contradiction.
Qed.

Lemma tool_operation_unregistered nm toolArgs :
  ~ In nm tool_names -> tool_operation nm toolArgs = None.
Proof.
  intros Hout. unfold tool_operation.
  repeat match goal with
         | |- context [String.eqb nm ?s] =>
             let E := fresh "E" in
             destruct (String.eqb nm s) eqn:E;
             [apply String.eqb_eq in E; subst nm; exfalso; apply Hout;
              cbn; auto 20 | clear E]
         end.
  reflexivity.
Qed.

(** X12: the registry and the dispatcher agree on the tool names. A name the
    registry announces is dispatched to a facade call whose JSON text is the
    answer; for every other name the switch answers [Unknown tool: <name>]
    with the error flag, without calling the facade. *)
Theorem registry_matches_dispatch (w : World) (client : GmailClient)
    (nm : string) (toolArgs : value) :
  (In nm tool_names ->
   exists op,
     call_tool w client nm toolArgs
     = (let* r := invoke w client op in ret (text_content (JSON_stringify r))))
  /\ (~ In nm tool_names ->
      call_tool w client nm toolArgs
      = ret (error_content (VStr ("Unknown tool: " +:+ nm)))).
Proof.
  rewrite call_tool_table. split.
  - intros Hin. destruct (tool_operation_registered nm toolArgs Hin) as [op ->].
    now exists op.
  - intros Hout. now rewrite (tool_operation_unregistered nm toolArgs Hout).
Qed.

Lemma registry_matches_dispatch_witness :
  (exists op,
      call_tool world_empty stub_client "gmailTrashMessage" (VObj [])
      = (let* r := invoke world_empty stub_client op in
         ret (text_content (JSON_stringify r))))
  /\ call_tool world_empty stub_client "gmailArchiveMessage" (VObj [])
     = ret (error_content (VStr "Unknown tool: gmailArchiveMessage")).
Proof.
  split.
  - apply (proj1 (registry_matches_dispatch world_empty stub_client
                    "gmailTrashMessage" (VObj []))).
    cbn. auto 20.
  - apply (proj2 (registry_matches_dispatch world_empty stub_client
                    "gmailArchiveMessage" (VObj []))).
    cbn. intros H.
    repeat (destruct H as [H | H]; [discriminate |]). exact H.
Defined.

Ltac declared_key :=
  vm_compute; repeat (first [left; reflexivity | right]).

Lemma tool_operation_declared tool args1 args2 :
  In tool Registry.tools ->
  (forall k, In k (Registry.declared (Registry.inputSchema tool)) ->
             prop (VObj args1) k = prop (VObj args2) k) ->
  tool_operation (Registry.name tool) (VObj args1)
  = tool_operation (Registry.name tool) (VObj args2).
Proof.
  intros Hin Hagree. cbn in Hin.
  repeat (destruct Hin as [<- | Hin];
          [cbn [Registry.name Registry.inputSchema] in *;
           unfold tool_operation; cbn -[prop];
           repeat match goal with
                  | |- context [prop (VObj args1) ?k] =>
                      rewrite (Hagree k ltac:(declared_key))
                  end;
           reflexivity |]).
  contradiction.
Qed.

Lemma tokens_declared tool :
  In tool Registry.tools ->
  In "tokens" (Registry.declared (Registry.inputSchema tool)).
Proof.
  intros Hin. cbn in Hin.
  repeat (destruct Hin as [<- | Hin]; [declared_key |]).
  contradiction.
Qed.

(** X13: a registered tool looks at its arguments only through the
    properties its input schema declares: two argument objects that agree on
    every declared property give the same run of the handler, so any other
    property of the arguments is ignored, not rejected. *)
Theorem handler_reads_declared_only (w : World) (tool : Registry.Tool)
    (args1 args2 : list (string * value)) (tr : list event) :
  In tool Registry.tools ->
  (forall k, In k (Registry.declared (Registry.inputSchema tool)) ->
             prop (VObj args1) k = prop (VObj args2) k) ->
  handler w (Registry.name tool) (VObj args1) tr
  = handler w (Registry.name tool) (VObj args2) tr.
Proof.
  intros Hin Hagree. unfold handler, try_catch.
  cbn [js_or truthy].
  rewrite !handler_try_table.
  rewrite (tool_operation_declared tool args1 args2 Hin Hagree).
  now rewrite (Hagree "tokens" (tokens_declared tool Hin)).
Qed.

Lemma handler_reads_declared_only_witness :
  handler world_labels "gmailListLabels"
    (VObj [("verbose", VBool true); ("userId", VStr "someone@x.org")]) []
  = handler world_labels "gmailListLabels" (VObj []) [].
Proof.
  apply (handler_reads_declared_only world_labels
           {| Registry.name := "gmailListLabels";
              Registry.description := "List all labels in the mailbox";
              Registry.inputSchema := Registry.ListLabelsInputSchema |}
           [("verbose", VBool true); ("userId", VStr "someone@x.org")] [] []).
  - cbn. auto 20.
  - intros k Hk. vm_compute in Hk. destruct Hk as [<- | []]. reflexivity.
Defined.

(** X14: the name of the tool is looked at only after the client has been
    built. For a name the registry does not announce, the handler answers
    [{content: [{type: 'text', text: 'Unknown tool: <name>'}], isError: true}]
    without logging and without a remote call, when the credentials
    resolve; when they do not, it answers with the error of the credentials
    instead, [Error: <message>], logged as [Tool error: <message>]. *)
Theorem handler_unknown_tool (w : World) (nm : string) (args : value)
    (tr : list event) :
  let failure error :=
    match error with
    | VError message _ => message
    | _ => ToString error
    end in
  ~ In nm tool_names ->
  (forall client tr',
      createGmailClient w (VObj [("tokens", tokens_of args)]) tr
      = (Return client, tr') ->
      handler w nm args tr
      = (Return
           (VObj [("content",
                   VArr [VObj [("type", VStr "text");
                               ("text", VStr ("Unknown tool: " +:+ nm))]]);
                  ("isError", VBool true)]),
         tr'))
  /\ (forall error tr',
         createGmailClient w (VObj [("tokens", tokens_of args)]) tr
         = (Throw error, tr') ->
         handler w nm args tr
         = (Return
              (VObj [("content",
                      VArr [VObj [("type", VStr "text");
                                  ("text",
                                   VStr ("Error: " +:+ failure error))]]);
                     ("isError", VBool true)]),
            tr' ++ [ConsoleError [VStr ("Tool error: " +:+ failure error)]])).
Proof.
  intros failure Hout. unfold handler.
  fold (toolArgs_of args). fold (tokens_of args).
  unfold try_catch. rewrite handler_try_table.
  rewrite (tool_operation_unregistered nm _ Hout). unfold bind.
  split; intros ? ? ->; reflexivity.
Qed.

Lemma handler_unknown_tool_witness :
  handler world_labels "gmailArchiveMessage" (VObj []) []
  = (Return
       (VObj [("content",
               VArr [VObj [("type", VStr "text");
                           ("text", VStr "Unknown tool: gmailArchiveMessage")]]);
              ("isError", VBool true)]),
     [EnvRead "GMAIL_TOKEN"; EnvRead "GOOGLE_CLIENT_ID";
      EnvRead "GOOGLE_CLIENT_SECRET"; EnvRead "GOOGLE_REDIRECT_URL"])
  /\ handler world_empty "gmailArchiveMessage" (VObj []) []
     = (Return
          (VObj [("content",
                  VArr [VObj [("type", VStr "text");
                              ("text", VStr ("Error: " +:+ no_tokens_message))]]);
                 ("isError", VBool true)]),
        [EnvRead "GMAIL_TOKEN"; EnvRead "GMAIL_TOKEN_FILE";
         ExistsSync "/srv/app/token.json"]
        ++ [ConsoleError [VStr ("Tool error: " +:+ no_tokens_message)]]).
Proof.
  assert (Hout : ~ In "gmailArchiveMessage" tool_names).
  { cbn. intros H. repeat (destruct H as [H | H]; [discriminate |]). exact H. }
  split.
  - apply (proj1 (handler_unknown_tool world_labels "gmailArchiveMessage"
                    (VObj []) [] Hout) labels_client).
    vm_compute. reflexivity.
  - apply (proj2 (handler_unknown_tool world_empty "gmailArchiveMessage"
                    (VObj []) [] Hout) (Error no_tokens_message)).
    vm_compute. reflexivity.
Defined.

(** ** Every surface calls the remote once, for one mailbox *)

Lemma reads_only_silent {A} (m : M A) : silent m -> reads_only m.
Proof.
  intros H tr. exists []. rewrite app_nil_r. split; [apply H | constructor].
Qed.

Lemma reads_only_bind {A B} (m : M A) (k : A -> M B) :
  reads_only m -> (forall a, reads_only (k a)) -> reads_only (bind m k).
Proof.
  intros Hm Hk tr. unfold bind. destruct (Hm tr) as (ev1 & H1 & F1).
  destruct (m tr) as [[a | error] tr']; cbn [snd] in H1; subst tr'.
  - destruct (Hk a (tr ++ ev1)) as (ev2 & H2 & F2).
    exists (ev1 ++ ev2). rewrite H2, app_assoc.
    split; [reflexivity | now apply Forall_app].
  - now exists ev1.
Qed.

Lemma reads_only_try_catch {A} (m : M A) (h : value -> M A) :
  reads_only m -> (forall e, reads_only (h e)) -> reads_only (try_catch m h).
Proof.
  intros Hm Hh tr. unfold try_catch. destruct (Hm tr) as (ev1 & H1 & F1).
  destruct (m tr) as [[a | error] tr']; cbn [snd] in H1; subst tr'.
  - now exists ev1.
  - destruct (Hh error (tr ++ ev1)) as (ev2 & H2 & F2).
    exists (ev1 ++ ev2). rewrite H2, app_assoc.
    split; [reflexivity | now apply Forall_app].
Qed.

Lemma reads_only_getenv w name : reads_only (getenv w name).
Proof. intros tr. exists [EnvRead name]. split; [reflexivity | repeat constructor]. Qed.

Lemma reads_only_existsSync w path : reads_only (existsSync w path).
Proof. intros tr. exists [ExistsSync path]. split; [reflexivity | repeat constructor]. Qed.

Lemma reads_only_readFileSync w path : reads_only (readFileSync w path).
Proof.
  intros tr. exists [ReadFileSync path]. rewrite readFileSync_run.
  split; [reflexivity | repeat constructor].
Qed.

Lemma reads_only_parse text : reads_only (JSON_parse_or_throw text).
Proof.
  apply reads_only_silent. intros tr. unfold JSON_parse_or_throw.
  destruct (JSON_parse text); reflexivity.
Qed.

Lemma reads_only_resolveTokens w provided : reads_only (resolveTokens w provided).
Proof.
  unfold resolveTokens.
  destruct (truthy provided); [apply reads_only_silent, silent_ret |].
  apply reads_only_bind; [apply reads_only_getenv | intros envToken].
  destruct (truthy envToken).
  - apply reads_only_try_catch; [apply reads_only_parse |].
    intros _. apply reads_only_silent, silent_throw.
  - apply reads_only_bind; [apply reads_only_getenv | intros fileVar].
    apply reads_only_bind; [apply reads_only_existsSync | intros [|]].
    + apply reads_only_try_catch.
      * apply reads_only_bind; [apply reads_only_readFileSync |].
        intros content. apply reads_only_parse.
      * intros _. apply reads_only_silent, silent_throw.
    + apply reads_only_silent, silent_throw.
Qed.

Lemma silent_normalizedTokens tokens : silent (normalizedTokens tokens).
Proof.
  unfold normalizedTokens, either_name.
  repeat (apply silent_bind; [| intros ?]);
    repeat (apply silent_bind; [auto with silent | intros ?]);
    auto with silent.
Qed.

Lemma reads_only_new_GmailClient w tokens : reads_only (new_GmailClient w tokens).
Proof.
  unfold new_GmailClient.
  repeat (apply reads_only_bind; [apply reads_only_getenv | intros ?]).
  apply reads_only_bind;
    [apply reads_only_silent, silent_normalizedTokens | intros ?].
  apply reads_only_silent, silent_ret.
Qed.

Lemma reads_only_createGmailClient w options :
  reads_only (createGmailClient w options).
Proof.
  unfold createGmailClient.
  apply reads_only_bind; [apply reads_only_resolveTokens | intros tokens].
  apply reads_only_new_GmailClient.
Qed.

Lemma reads_call_nothing mailbox events :
  Forall is_read events -> calls_at_most 0 mailbox events.
Proof.
  intros H. induction H as [| e events He _ [IHa IHc]].
  - split; [constructor | reflexivity].
  - split.
    + constructor; [destruct e; try contradiction; exact I | exact IHa].
    + unfold api_count in *. cbn [List.filter].
      destruct e; try contradiction; exact IHc.
Qed.

Lemma calls_at_most_app n1 n2 mailbox ev1 ev2 :
  calls_at_most n1 mailbox ev1 -> calls_at_most n2 mailbox ev2 ->
  calls_at_most (n1 + n2) mailbox (ev1 ++ ev2).
Proof.
  intros [F1 C1] [F2 C2]. split; [now apply Forall_app |].
  unfold api_count in *. rewrite List.filter_app, length_app. lia.
Qed.

Lemma log_calls_nothing mailbox line :
  calls_at_most 0 mailbox [ConsoleError line].
Proof. split; [repeat constructor | reflexivity]. Qed.

Lemma invoke_events w client op tr :
  exists events,
    snd (invoke w client op tr) = tr ++ events
    /\ calls_at_most 1 (mailbox_of op) events.
Proof.
  rewrite invoke_try_catch. unfold try_catch.
  destruct (attempt_one_call w client op tr)
    as [[e He] | (params & res & Hrun & Hbox)].
  - rewrite He, handleError_run. eexists. split; [reflexivity |].
    destruct e; (split; [repeat constructor | cbn; lia]).
  - rewrite Hrun. destruct res as [r | e].
    + eexists. split; [reflexivity |].
      split; [repeat constructor; exact Hbox | cbn; lia].
    + rewrite handleError_run. cbn [snd]. rewrite <- app_assoc.
      eexists. split; [reflexivity |].
      destruct e; (split; [repeat constructor; exact Hbox | cbn; lia]).
Qed.

Lemma tool_operation_me nm toolArgs op :
  tool_operation nm toolArgs = Some op -> mailbox_of op = VStr "me".
Proof.
  unfold tool_operation.
  repeat match goal with
         | |- context [String.eqb nm ?s] =>
             destruct (String.eqb nm s); [now intros [= <-] |]
         end.
  discriminate.
Qed.

(** X15: through the dispatcher every tool works on the mailbox [me] and
    calls the remote at most once. Whatever the tool name and the arguments
    (a [userId] among them included), the events of a run of the handler
    contain at most one SDK call, and that call names the mailbox [me]. *)
Theorem handler_calls_me_once (w : World) (nm : string) (args : value)
    (tr : list event) :
  exists events,
    trace (handler w nm args tr) = tr ++ events
    /\ Forall (about (VStr "me")) events
    /\ (api_count events <= 1)%nat.
Proof.
  unfold handler, trace, try_catch. rewrite handler_try_table. unfold bind.
  destruct (reads_only_createGmailClient w
              (VObj [("tokens", js_or (prop (js_or args (VObj [])) "tokens")
                                  VUndefined)]) tr) as (ev1 & H1 & F1).
  pose proof (reads_call_nothing (VStr "me") ev1 F1) as C1.
  destruct (createGmailClient w _ tr) as [[client | error] tr1];
    cbn [snd] in H1; subst tr1.
  - destruct (tool_operation nm (js_or args (VObj []))) as [op |] eqn:Hop.
    + destruct (invoke_events w client op (tr ++ ev1)) as (ev2 & H2 & C2).
      rewrite (tool_operation_me _ _ _ Hop) in C2.
      unfold bind.
      destruct (invoke w client op (tr ++ ev1)) as [[r | error] tr2];
        cbn [snd] in H2; subst tr2.
      * exists (ev1 ++ ev2). cbn [ret snd]. rewrite app_assoc.
        split; [reflexivity |].
        apply (calls_at_most_app 0 1 _ _ _ C1 C2).
      * rewrite handler_catch_run. cbn [snd].
        exists (ev1 ++ ev2 ++ [tool_error_logged error]).
        rewrite !app_assoc. split; [reflexivity |].
        rewrite <- app_assoc.
        apply (calls_at_most_app 0 1 _ _ _ C1).
        apply (calls_at_most_app 1 0 _ _ _ C2), log_calls_nothing.
    + exists ev1. split; [reflexivity |].
      destruct C1 as [F C]. split; [exact F | lia].
  - rewrite handler_catch_run. cbn [snd].
    exists (ev1 ++ [tool_error_logged error]). rewrite app_assoc.
    split; [reflexivity |]. unfold tool_error_logged.
    destruct (calls_at_most_app 0 0 _ _ _ C1
                (log_calls_nothing (VStr "me")
                   [VStr ("Tool error: " +:+ error_message error)])) as [F C].
    split; [exact F | lia].
Qed.

(** ** The exported functions *)

Lemma bind_assoc {A B C} (m : M A) (f : A -> M B) (g : B -> M C) tr :
  bind (bind m f) g tr = bind m (fun a => bind (f a) g) tr.
Proof.
  unfold bind. destruct (m tr) as [[a | error] tr']; reflexivity.
Qed.

Lemma run_exported_composition w call tr :
  run_exported w call tr
  = (let* client :=
       createGmailClient w (VObj [("tokens", tokens_argument call)]) in
     invoke w client (facade_call call)) tr.
Proof.
  unfold createGmailClient. rewrite bind_assoc.
  destruct call; reflexivity.
Qed.

(** X16: every exported function is credential resolution, the constructor
    and one facade method in a row. A run makes at most one SDK call; the
    call names the mailbox [me], except for the exported [listMessages],
    which forwards the caller's [userId]. *)
Theorem exported_one_call (w : World) (call : exported_call) (tr : list event) :
  run_exported w call tr
  = (let* client :=
       createGmailClient w (VObj [("tokens", tokens_argument call)]) in
     invoke w client (facade_call call)) tr
  /\ exists events,
       trace (run_exported w call tr) = tr ++ events
       /\ Forall (about (exported_mailbox call)) events
       /\ (api_count events <= 1)%nat.
Proof.
  split; [apply run_exported_composition |].
  rewrite run_exported_composition. unfold trace, bind.
  destruct (reads_only_createGmailClient w
              (VObj [("tokens", tokens_argument call)]) tr) as (ev1 & H1 & F1).
  pose proof (reads_call_nothing (exported_mailbox call) ev1 F1) as C1.
  destruct (createGmailClient w _ tr) as [[client | error] tr1];
    cbn [snd] in H1; subst tr1.
  - destruct (invoke_events w client (facade_call call) (tr ++ ev1))
      as (ev2 & H2 & C2).
    assert (Hbox : mailbox_of (facade_call call) = exported_mailbox call)
      by (destruct call; reflexivity).
    rewrite Hbox in C2.
    exists (ev1 ++ ev2). rewrite H2, app_assoc. split; [reflexivity |].
    apply (calls_at_most_app 0 1 _ _ _ C1 C2).
  - exists ev1. split; [reflexivity |].
    destruct C1 as [F C]. split; [exact F | lia].
Qed.

(** X17: when credential resolution fails, an exported function fails with
    the error of the resolution itself, unchanged. The run has only read the
    environment and the file system: no client is built, the remote is not
    called, and, unlike a failure of the remote, nothing is logged. *)
Theorem exported_resolution_failure (w : World) (call : exported_call)
    (tr tr' : list event) (error : value) :
  resolveTokens w (tokens_argument call) tr = (Throw error, tr') ->
  run_exported w call tr = (Throw error, tr')
  /\ exists events, tr' = tr ++ events /\ Forall is_read events.
Proof.
  intros Hfail. split.
  - destruct call; cbn [run_exported tokens_argument] in *;
      unfold Exported.listMessages, Exported.getMessage,
        Exported.searchMessages, Exported.sendMessage, Exported.createDraft,
        Exported.listLabels, Exported.modifyMessageLabels,
        Exported.trashMessage, Exported.untrashMessage, Exported.listThreads,
        Exported.getThread;
      now apply bind_Throw.
  - destruct (reads_only_resolveTokens w (tokens_argument call) tr)
      as (events & Hev & Fev).
    rewrite Hfail in Hev. now exists events.
Qed.

Lemma exported_resolution_failure_witness :
  run_exported world_empty (XSendMessage (VObj [("to", VStr "a@x.org")]) VUndefined) []
  = (Throw (Error no_tokens_message),
     [EnvRead "GMAIL_TOKEN"; EnvRead "GMAIL_TOKEN_FILE";
      ExistsSync "/srv/app/token.json"]).
Proof.
  apply (exported_resolution_failure world_empty
           (XSendMessage (VObj [("to", VStr "a@x.org")]) VUndefined) []).
  vm_compute. reflexivity.
Defined.

(** ** List methods on a response without data; the search tool *)

Lemma collection_without_data w client method params field response tr :
  responding w client response ->
  nullish response = false ->
  nullish (prop response "data") = true ->
  try_catch
    (let* response := api w client method params in
     let* data := get response "data" in
     let* items := get data field in
     ret (js_or items (VArr []))) handleError tr
  = (Throw (Error ("Cannot read properties of "
                   +:+ ToString (prop response "data")
                   +:+ " (reading '" +:+ field +:+ "')")),
     tr ++ [ApiCall method params;
            ConsoleError [VStr ("Gmail API error: Cannot read properties of "
                                +:+ ToString (prop response "data")
                                +:+ " (reading '" +:+ field +:+ "')")]]).
Proof.
  intros Hresp Hnn Hdata.
  set (message := "Cannot read properties of "
                  +:+ ToString (prop response "data")
                  +:+ " (reading '" +:+ field +:+ "')").
  assert (Hbody :
    (let* response := api w client method params in
     let* data := get response "data" in
     let* items := get data field in
     ret (js_or items (VArr []))) tr
    = (Throw (Error message), tr ++ [ApiCall method params])).
  { erewrite bind_Return by (rewrite api_run, Hresp; reflexivity).
    erewrite bind_Return by (unfold get; rewrite Hnn; reflexivity).
    apply bind_Throw. unfold get. rewrite Hdata. reflexivity. }
  rewrite (try_catch_Throw _ _ _ _ _ Hbody), handleError_run.
  cbn [propagated logged Error]. now rewrite <- app_assoc.
Qed.

(** X18: the empty-list default of the list methods covers a missing
    collection only, not missing data. When the response of the remote has
    no data ([undefined] or [null]), each of the four list methods throws
    the runtime's error for reading the collection of it, after the call and
    with the message logged, instead of returning an empty list. *)
Theorem list_methods_without_data (w : World) (client : GmailClient)
    (response userId query options : value) (tr : list event) :
  responding w client response ->
  nullish response = false ->
  nullish (prop response "data") = true ->
  let failure field :=
    Throw (Error ("Cannot read properties of "
                  +:+ ToString (prop response "data")
                  +:+ " (reading '" +:+ field +:+ "')")) in
  outcome (listMessages w client userId options tr) = failure "messages"
  /\ outcome (searchMessages w client userId query options tr) = failure "messages"
  /\ outcome (listLabels w client userId tr) = failure "labels"
  /\ outcome (listThreads w client userId options tr) = failure "threads".
Proof.
  intros Hresp Hnn Hdata failure.
  unfold listMessages, searchMessages, listLabels, listThreads,
    listMessages_try, searchMessages_try, listLabels_try, listThreads_try,
    outcome.
  rewrite !(collection_without_data w client _ _ _ response tr Hresp Hnn Hdata).
  repeat split.
Qed.

Lemma list_methods_without_data_witness :
  outcome (listLabels (world ∅ ∅ (answering (Return (VObj [("status", int 204)]))))
             stub_client VUndefined [])
  = Throw (Error "Cannot read properties of undefined (reading 'labels')").
Proof.
  apply (list_methods_without_data
           (world ∅ ∅ (answering (Return (VObj [("status", int 204)]))))
           stub_client (VObj [("status", int 204)])
           VUndefined VUndefined VUndefined []).
  - apply answering_responds.
  - reflexivity.
  - reflexivity.
Defined.

(** X19: the search tool is the list tool with the query bound and without
    the spam-and-trash switch. A run of [gmailSearchMessages] equals the run
    of [gmailListMessages] on arguments whose [q] is the search's [query],
    whose [includeSpamTrash] is absent, and which agree on [tokens],
    [maxResults], [pageToken] and [labelIds]. *)
Theorem search_tool_is_list_tool (w : World)
    (search listing : list (string * value)) (tr : list event) :
  prop (VObj listing) "q" = prop (VObj search) "query" ->
  prop (VObj listing) "includeSpamTrash" = VUndefined ->
  Forall (fun k => prop (VObj listing) k = prop (VObj search) k)
    ["tokens"; "maxResults"; "pageToken"; "labelIds"] ->
  handler w "gmailSearchMessages" (VObj search) tr
  = handler w "gmailListMessages" (VObj listing) tr.
Proof.
  intros Hq Hspam Hagree.
  repeat (apply Forall_cons_iff in Hagree; destruct Hagree as [? Hagree]).
  unfold handler, try_catch. cbn [js_or truthy].
  rewrite !handler_try_table.
  unfold tool_operation. cbn -[prop invoke].
  repeat match goal with
         | H : prop (VObj listing) _ = _ |- _ => rewrite H; clear H
         end.
  reflexivity.
Qed.

Lemma search_tool_is_list_tool_witness :
  handler world_labels "gmailSearchMessages" (VObj search_arguments) []
  = handler world_labels "gmailListMessages" (VObj list_arguments) [].
Proof.
  apply (search_tool_is_list_tool world_labels search_arguments list_arguments []).
  - reflexivity.
  - reflexivity.
  - repeat constructor.
Defined.
